(** * SQLAgent: a shallow embedding of the agent loop and the SQL executor

    Sources embedded here:
    - [src/sql_paraser.py]: [clean_sql], [list_tables], [run_sql];
    - [src/sql_agent.py]: [SQLAgent.get_schema_context],
      [SQLAgent.get_completion], [SQLAgent.process_message];
    - [src/app.py]: [respond].

    What lies outside the repository is taken as a parameter: the completion
    provider (an oracle answering each call), the sqlite3 engine (a state
    transformer over an abstract database state), and the [json] library
    functions [json.loads] / [json.dumps].  Python text is modelled by
    [string], the sequence of bytes of its UTF-8 encoding.  What the sources
    print on the console is left out. *)

From Stdlib Require Import String Ascii List Bool Arith ZArith Lia.
From Stdlib Require Import SpecFloat DecimalString Sorted.
Import ListNotations.
Open Scope string_scope.

Set Implicit Arguments.
Set Warnings "-register-all,-automation".

(** ** Python text primitives *)

Module PyStr.

Definition nl : string := String (ascii_of_nat 10) EmptyString.
Definition dquote : string := String (ascii_of_nat 34) EmptyString.

Definition quoted (text : string) : string := dquote ++ text ++ dquote.

(** The text of the bytes given. *)
Definition utf8 (bytes : list nat) : string :=
  fold_right (fun n s => String (ascii_of_nat n) s) EmptyString bytes.

(** The characters [str.isspace] holds of, each in its UTF-8 encoding:
    U+0009 to U+000D, U+001C to U+0020, U+0085, U+00A0, U+1680, U+2000 to
    U+200A, U+2028, U+2029, U+202F, U+205F and U+3000. *)
Definition whitespace : list string :=
  map utf8
      [ [9]; [10]; [11]; [12]; [13]; [28]; [29]; [30]; [31]; [32];
        [194; 133]; [194; 160]; [225; 154; 128];
        [226; 128; 128]; [226; 128; 129]; [226; 128; 130]; [226; 128; 131];
        [226; 128; 132]; [226; 128; 133]; [226; 128; 134]; [226; 128; 135];
        [226; 128; 136]; [226; 128; 137]; [226; 128; 138];
        [226; 128; 168]; [226; 128; 169]; [226; 128; 175];
        [226; 129; 159]; [227; 128; 128] ].

(** The number of bytes of the white-space character [s] starts with, [0]
    when it starts with none. *)
Definition space_len (s : string) : nat :=
  match find (fun w => prefix w s) whitespace with
  | Some w => String.length w
  | None => 0
  end.

Definition is_upper (c : ascii) : bool :=
  let n := nat_of_ascii c in (65 <=? n)%nat && (n <=? 90)%nat.

Definition lower_char (c : ascii) : ascii :=
  if is_upper c then ascii_of_nat (nat_of_ascii c + 32) else c.

(** [s.lower()]; letters outside ASCII are left alone, which does not
    change any comparison against the ASCII literals the sources use. *)
Fixpoint lower (s : string) : string :=
  match s with
  | EmptyString => EmptyString
  | String c s' => String (lower_char c) (lower s')
  end.

(** [needle in s] *)
Fixpoint contains (needle s : string) : bool :=
  if prefix needle s then true
  else match s with
       | EmptyString => false
       | String _ s' => contains needle s'
       end.

(** Drops leading white space; [pending] counts the bytes left of a
    white-space character under way. *)
Fixpoint drop_space (pending : nat) (s : string) {struct s} : string :=
  match s with
  | EmptyString => EmptyString
  | String _ s' =>
      match pending with
      | S p => drop_space p s'
      | O => match space_len s with
             | S p => drop_space p s'
             | O => s
             end
      end
  end.

(** [s.lstrip()] *)
Definition lstrip (s : string) : string := drop_space 0 s.

(** [s.rstrip()]: a byte is kept when something that is not white space
    comes with it or after it. *)
Fixpoint rstrip (s : string) : string :=
  match s with
  | EmptyString => EmptyString
  | String c s' =>
      match lstrip s with
      | EmptyString => EmptyString
      | _ => String c (rstrip s')
      end
  end.

(** [s.strip()] *)
Definition strip (s : string) : string := rstrip (lstrip s).

(** The bytes up to the first white-space character. *)
Fixpoint take_word (s : string) : string :=
  match s with
  | EmptyString => EmptyString
  | String c s' =>
      match space_len s with
      | O => String c (take_word s')
      | S _ => EmptyString
      end
  end.

(** [s.split(None, 1)[0]]: [None] is the [IndexError] of an empty or
    all-blank [s]. *)
Definition first_word (s : string) : option string :=
  match lstrip s with
  | EmptyString => None
  | w => Some (take_word w)
  end.

(** [s.count(c)] for a one-character [c]. *)
Fixpoint count (c : ascii) (s : string) : nat :=
  match s with
  | EmptyString => 0
  | String c' s' => (if Ascii.eqb c' c then 1 else 0) + count c s'
  end.

Definition is_ascii_char (c : ascii) : bool := (nat_of_ascii c <? 128)%nat.

Fixpoint is_ascii (s : string) : bool :=
  match s with
  | EmptyString => true
  | String c s' => is_ascii_char c && is_ascii s'
  end.

(** [sep.join(parts)] *)
Fixpoint join (sep : string) (parts : list string) : string :=
  match parts with
  | [] => EmptyString
  | [p] => p
  | p :: ps => p ++ sep ++ join sep ps
  end.

(** [str(n)] for a machine-independent Python [int]. *)
Definition str_of_nat (n : nat) : string :=
  NilEmpty.string_of_uint (Nat.to_uint n).

Definition str_of_Z (z : Z) : string :=
  NilEmpty.string_of_int (Z.to_int z).

End PyStr.

(** ** JSON values, as [json.loads] builds them *)

Inductive json : Type :=
| JNull
| JBool (b : bool)
| JInt (z : Z)
| JFloat (f : spec_float)
| JStr (s : string)
| JArr (items : list json)
| JObj (fields : list (string * json)).

(** A Python [dict] keeps its keys in insertion order: an association list
    without repeated keys, looked up from the front. *)
Section Dict.
Variable V : Type.

Fixpoint dict_get (d : list (string * V)) (k : string) : option V :=
  match d with
  | [] => None
  | (k', v) :: d' => if String.eqb k' k then Some v else dict_get d' k
  end.

(** [d[k] = v]: replaces the value in place, or appends a new key. *)
Fixpoint dict_set (d : list (string * V)) (k : string) (v : V)
  : list (string * V) :=
  match d with
  | [] => [(k, v)]
  | (k', v') :: d' =>
      if String.eqb k' k then (k', v) :: d' else (k', v') :: dict_set d' k v
  end.

Definition dict_keys (d : list (string * V)) : list string := map fst d.
End Dict.

(** [d.get(k)] on a parsed object: a missing key reads as [None]. *)
Definition json_get (d : list (string * json)) (k : string) : json :=
  match dict_get d k with
  | Some v => v
  | None => JNull
  end.

(** A Python [float] is a binary64 value; it is false when it is a zero of
    either sign. *)
Definition float_truthy (f : spec_float) : bool :=
  match f with
  | S754_zero _ => false
  | _ => true
  end.

(** Python truth value of a parsed JSON value. *)
Definition truthy (v : json) : bool :=
  match v with
  | JNull => false
  | JBool b => b
  | JInt z => negb (Z.eqb z 0)
  | JFloat f => float_truthy f
  | JStr s => negb (String.eqb s "")
  | JArr items => match items with [] => false | _ => true end
  | JObj fields => match fields with [] => false | _ => true end
  end.

(** ** Exceptions *)

(** [except sqlite3.Error] separates the engine's own failures from every
    other exception class. *)
Inductive exn : Type :=
| Sqlite3Error (msg : string)
| OtherException (cls msg : string).

(** ** Conversation *)

Inductive role : Type := System | User | Assistant.

Definition role_eqb (a b : role) : bool :=
  match a, b with
  | System, System | User, User | Assistant, Assistant => true
  | _, _ => false
  end.

Record message : Type := Msg { msg_role : role; msg_content : string }.

(** The provider's answer to one [chat.completions.create] call: the
    content of the first choice (which the API may leave [None]), or an
    exception with its [str(e)]. *)
Inductive presp : Type :=
| PContent (content : option string)
| PFail (description : string).

(** ** The sqlite3 engine *)

(** A value of a result cell: [None], [int], [float], [str] or [bytes]. *)
Inductive sqlval : Type :=
| SqlNull
| SqlInt (z : Z)
| SqlReal (f : spec_float)
| SqlText (s : string)
| SqlBlob (b : string).

Definition sqlval_truthy (v : sqlval) : bool :=
  match v with
  | SqlNull => false
  | SqlInt z => negb (Z.eqb z 0)
  | SqlReal f => float_truthy f
  | SqlText s => negb (String.eqb s "")
  | SqlBlob b => negb (String.eqb b "")
  end.

(** The outcome of a call that may raise. *)
Inductive res (A : Type) : Type :=
| Val (a : A)
| Exc (e : exn).
Arguments Val {A} a.
Arguments Exc {A} e.

(** What the code reads off a cursor after [execute] / [executescript]:
    the column names of [description] ([None] when the statement returns
    no rows), what [fetchall()] gives (one value list per row, or the
    exception it raises), [rowcount] and [lastrowid]. *)
Record cursor : Type := Cursor {
  cur_description : option (list string);
  cur_fetchall : res (list (list sqlval));
  cur_rowcount : Z;
  cur_lastrowid : option Z
}.

(** The file system and the engine, over an abstract database state [DB].
    A call that fails may still have changed the state (a script that
    stops half way). *)
Record engine (DB : Type) : Type := Engine {
  path_exists : DB -> string -> bool;
  sqlite_connect : DB -> string -> option exn;
  sqlite_execute : DB -> string -> string -> DB * res cursor;
  sqlite_executescript : DB -> string -> string -> DB * res cursor;
  sqlite_commit : DB -> string -> DB * option exn
}.

(** The engine calls a run makes, in order. *)
Inductive db_op : Type :=
| OpConnect (path : string)
| OpExecute (sql : string)
| OpFetchall
| OpExecuteScript (sql : string)
| OpCommit
| OpClose.

(** ** The Python library functions the sources call *)

Inductive loads_result : Type :=
| LoadsOk (v : json)
| LoadsDecodeError
| LoadsRaise (e : exn).

Record pylib : Type := PyLib {
  (** [json.loads(text)]: a value, [json.JSONDecodeError], or another
      exception ([RecursionError] on very deep nesting). *)
  json_loads : string -> loads_result;
  (** [json.dumps(s)] of a [str]: the quoted, escaped text. *)
  json_dumps_str : string -> string;
  (** [json.dumps(v, default=str)] of one cell value. *)
  json_dumps_val : sqlval -> string;
  (** [repr] of a float or of a container, as an f-string shows it. *)
  py_repr : json -> string;
  (** [str] of a cell value that is a float or bytes. *)
  sqlval_repr : sqlval -> string
}.

(** ** Results of [run_sql] *)

(** A row as [sqlite3.Row] holds it: the column names of the cursor, each
    with its value. *)
Definition row : Type := list (string * sqlval).

(** The values stored in the dictionary [run_sql] returns. *)
Inductive rval : Type :=
| RStr (s : string)
| RInt (z : Z)
| RNone
| RCols (names : list string)
| RRows (rows : list (list (string * sqlval))).

Definition qresult : Type := list (string * rval).

(** [Row.__getitem__] compares a name with the column names exactly, or
    without regard to case when both are ASCII; the first match wins. *)
Definition equal_ignore_case (a b : string) : bool :=
  String.eqb a b
  || (PyStr.is_ascii a && PyStr.is_ascii b
      && String.eqb (PyStr.lower a) (PyStr.lower b)).

Fixpoint row_getitem (r : row) (k : string) : option sqlval :=
  match r with
  | [] => None
  | (k', v) :: r' => if equal_ignore_case k' k then Some v else row_getitem r' k
  end.

(** [dict(r)]: [for k in r.keys(): d[k] = r[k]]. *)
Definition dict_of_row (r : row) : list (string * sqlval) :=
  fold_left
    (fun d k => match row_getitem r k with
                | Some v => dict_set d k v
                | None => d
                end)
    (map fst r) [].

Definition opt_int (o : option Z) : rval :=
  match o with
  | Some z => RInt z
  | None => RNone
  end.

(** The catalogue query of [list_tables]. *)
Definition master_query : string :=
  PyStr.nl ++ "            SELECT name, type, sql" ++
  PyStr.nl ++ "            FROM sqlite_master" ++
  PyStr.nl ++ "            WHERE type IN ('table','view') AND name NOT LIKE 'sqlite_%'" ++
  PyStr.nl ++ "            ORDER BY type, name" ++
  PyStr.nl ++ "        ".

(** ** A small concrete world

    One database file with one table [t] of integers, used to run the model
    on concrete inputs.  The database state is the number of rows of [t];
    the path ["."] is a directory, which exists and cannot be opened. *)

Module Demo.

Definition db_file : string := "chinook.db".

Definition select_all : string := "SELECT a FROM t".
Definition select_twice : string := "SELECT 1 AS a, 2 AS a".
Definition insert_one : string := "INSERT INTO t VALUES (0)".
Definition insert_two : string :=
  "INSERT INTO t VALUES (0); INSERT INTO t VALUES (0);".

Definition syntax_error : exn := Sqlite3Error "near the statement: syntax error".

(** Statements are told apart without regard to case. *)
Definition same_statement (a b : string) : bool :=
  String.eqb (PyStr.lower a) (PyStr.lower b).

Definition demo_execute (db : nat) (path sql : string) : nat * res cursor :=
  if String.eqb sql master_query then
    (db, Val (Cursor (Some ["name"; "type"; "sql"])
                     (Val [[SqlText "t"; SqlText "table";
                            SqlText "CREATE TABLE t (a INTEGER)"]])
                     (-1) None))
  else if same_statement sql select_all then
    (db, Val (Cursor (Some ["a"])
                     (Val (map (fun i => [SqlInt (Z.of_nat i)]) (seq 1 db)))
                     (-1) None))
  else if same_statement sql select_twice then
    (db, Val (Cursor (Some ["a"; "a"]) (Val [[SqlInt 1; SqlInt 2]]) (-1) None))
  else if same_statement sql insert_one then
    (S db, Val (Cursor None (Val []) 1 (Some (Z.of_nat (S db)))))
  else (db, Exc syntax_error).

Definition demo_executescript (db : nat) (path sql : string)
  : nat * res cursor :=
  if same_statement sql insert_two then
    (S (S db), Val (Cursor None (Val []) (-1) None))
  else (db, Exc syntax_error).

Definition sqlite : engine nat :=
  {| path_exists := fun _ path => String.eqb path db_file || String.eqb path ".";
     sqlite_connect := fun _ path =>
       if String.eqb path "."
       then Some (Sqlite3Error "unable to open database file")
       else None;
     sqlite_execute := demo_execute;
     sqlite_executescript := demo_executescript;
     sqlite_commit := fun db _ => (db, None) |}.

(** A reader for flat objects whose values are plain strings, the shape
    of the decision schema; it refuses every other text. *)
Definition is_json_space (c : ascii) : bool :=
  let n := nat_of_ascii c in
  (n =? 32)%nat || (n =? 9)%nat || (n =? 10)%nat || (n =? 13)%nat.

Fixpoint skip_space (s : string) : string :=
  match s with
  | EmptyString => EmptyString
  | String c s' => if is_json_space c then skip_space s' else s
  end.

(** The text up to the closing quote, and what follows it. *)
Fixpoint read_text (s : string) : option (string * string) :=
  match s with
  | EmptyString => None
  | String c s' =>
      if (nat_of_ascii c =? 34)%nat then Some (EmptyString, s')
      else if (nat_of_ascii c =? 92)%nat || (nat_of_ascii c <? 32)%nat then None
      else match read_text s' with
           | Some (t, r) => Some (String c t, r)
           | None => None
           end
  end.

Definition expect (n : nat) (s : string) : option string :=
  match skip_space s with
  | String c s' => if (nat_of_ascii c =? n)%nat then Some s' else None
  | EmptyString => None
  end.

Definition read_quoted (s : string) : option (string * string) :=
  match expect 34 s with
  | Some r => read_text r
  | None => None
  end.

Fixpoint read_fields (fuel : nat) (s : string) (fields : list (string * json))
  : option (list (string * json)) :=
  match fuel with
  | O => None
  | S fuel' =>
      match read_quoted s with
      | None => None
      | Some (k, r1) =>
          match expect 58 r1 with
          | None => None
          | Some r2 =>
              match read_quoted r2 with
              | None => None
              | Some (v, r3) =>
                  let fields' := dict_set fields k (JStr v) in
                  match expect 44 r3 with
                  | Some r4 => read_fields fuel' r4 fields'
                  | None =>
                      match expect 125 r3 with
                      | Some r4 =>
                          match skip_space r4 with
                          | EmptyString => Some fields'
                          | _ => None
                          end
                      | None => None
                      end
                  end
              end
          end
      end
  end.

Definition flat_loads (text : string) : loads_result :=
  match expect 123 text with
  | None => LoadsDecodeError
  | Some r =>
      match read_fields (String.length text) r [] with
      | Some fields => LoadsOk (JObj fields)
      | None => LoadsDecodeError
      end
  end.

Definition dumps_val (v : sqlval) : string :=
  match v with
  | SqlNull => "null"
  | SqlInt z => PyStr.str_of_Z z
  | SqlText s => PyStr.quoted s
  | _ => PyStr.quoted "?"
  end.

Definition python : pylib :=
  {| json_loads := flat_loads;
     json_dumps_str := PyStr.quoted;
     json_dumps_val := dumps_val;
     py_repr := fun _ => "?";
     sqlval_repr := fun _ => "?" |}.

Definition clean (ddl : string) : string := ddl.

(** Decision texts. *)
Definition field (k v : string) : string :=
  PyStr.quoted k ++ ":" ++ PyStr.quoted v.

Definition answer_text (content : string) : string :=
  "{" ++ field "type" "answer" ++ "," ++ field "content" content ++ "}".

Definition sql_text (sql : string) : string :=
  "{" ++ field "type" "sql" ++ "," ++ field "sql" sql ++ "}".

(** Providers. *)
Definition chatty : nat -> bool -> list message -> presp :=
  fun _ _ _ => PContent (Some "I think the answer is 42.").

Definition answers (content : string) : nat -> bool -> list message -> presp :=
  fun _ _ _ => PContent (Some (answer_text content)).

Definition asks (sql : string) : nat -> bool -> list message -> presp :=
  fun _ _ _ => PContent (Some (sql_text sql)).

(** Fails once with [description], then answers. *)
Definition fails_once (description : string)
  : nat -> bool -> list message -> presp :=
  fun n _ _ => if (n =? 0)%nat then PFail description
               else PContent (Some (answer_text "42")).

End Demo.

(** ** The SQL side: [sql_paraser.py]

    [list_tables] and [run_sql] see the database and nothing of the
    conversation: a call maps the database state to the new state, the
    engine calls it made, and its outcome. *)

Section Executor.

Variable DB : Type.
Variable eng : engine DB.
(** [clean_sql] past its first test (sql_paraser.py, lines 10 to 35): the
    flattened DDL text, which only ends up inside the system prompt. *)
Variable clean_sql_text : string -> string.

Definition dbm (A : Type) : Type := DB -> DB * list db_op * res A.

Definition db_ret {A} (a : A) : dbm A := fun db => (db, [], Val a).
Definition db_raise {A} (e : exn) : dbm A := fun db => (db, [], Exc e).
Definition db_bind {A B} (m : dbm A) (k : A -> dbm B) : dbm B :=
  fun db => match m db with
            | (db1, ops1, Val a) =>
                match k a db1 with
                | (db2, ops2, r) => (db2, (ops1 ++ ops2)%list, r)
                end
            | (db1, ops1, Exc e) => (db1, ops1, Exc e)
            end.

Notation "x <- m ;; k" := (db_bind m (fun x => k))
  (at level 61, m at next level, right associativity).
Notation "m ;;; k" := (db_bind m (fun _ => k))
  (at level 61, right associativity).

(** [try: body except sqlite3.Error as e: handler(str(e))] *)
Definition except_sqlite3 {A} (body : dbm A) (handler : string -> dbm A)
  : dbm A :=
  fun db => match body db with
            | (db1, ops1, Exc (Sqlite3Error msg)) =>
                match handler msg db1 with
                | (db2, ops2, r) => (db2, (ops1 ++ ops2)%list, r)
                end
            | r => r
            end.

(** [try: body finally: cleanup], for a [cleanup] that cannot raise. *)
Definition finally {A} (body : dbm A) (cleanup : dbm unit) : dbm A :=
  fun db => match body db with
            | (db1, ops1, r) =>
                match cleanup db1 with
                | (db2, ops2, _) => (db2, (ops1 ++ ops2)%list, r)
                end
            end.

(** *** Engine calls *)

Definition os_path_exists (path : string) : dbm bool :=
  fun db => (db, [], Val (path_exists eng db path)).

Definition connect (path : string) : dbm unit :=
  fun db => match sqlite_connect eng db path with
            | Some e => (db, [OpConnect path], Exc e)
            | None => (db, [OpConnect path], Val tt)
            end.

Definition execute (path sql : string) : dbm cursor :=
  fun db => match sqlite_execute eng db path sql with
            | (db', r) => (db', [OpExecute sql], r)
            end.

Definition executescript (path sql : string) : dbm cursor :=
  fun db => match sqlite_executescript eng db path sql with
            | (db', r) => (db', [OpExecuteScript sql], r)
            end.

Definition commit (path : string) : dbm unit :=
  fun db => match sqlite_commit eng db path with
            | (db', Some e) => (db', [OpCommit], Exc e)
            | (db', None) => (db', [OpCommit], Val tt)
            end.

Definition fetchall (cur : cursor) : dbm (list (list sqlval)) :=
  fun db => (db, [OpFetchall], cur_fetchall cur).

Definition close : dbm unit := fun db => (db, [OpClose], Val tt).

(** *** [run_sql] (sql_paraser.py, lines 70 to 108) *)

Definition attribute_error (what : string) : exn :=
  OtherException "AttributeError" what.

(** [(sql_query or "").strip()] *)
Definition stripped_query (sql_query : json) : dbm string :=
  match (if truthy sql_query then sql_query else JStr "") with
  | JStr s => db_ret (PyStr.strip s)
  | _ => db_raise (attribute_error "object has no attribute 'strip'")
  end.

Definition error_result (msg : string) : qresult :=
  [("status", RStr "error"); ("error", RStr msg)].

(** [cur.description]: the first item of each column's tuple. *)
Definition column_names (cur : cursor) : list string :=
  match cur_description cur with
  | Some names => names
  | None => []
  end.

(** The rows [fetchall()] hands back under [row_factory = sqlite3.Row]. *)
Definition make_row (cur : cursor) (values : list sqlval) : row :=
  combine (column_names cur) values.

(** The body of the [try], after [cur = conn.cursor()]. *)
Definition run_sql_body (db_path : string) (sql_query : json) : dbm qresult :=
  sql <- stripped_query sql_query ;;
  if String.eqb sql "" then db_ret (error_result "Empty SQL query")
  else
    match PyStr.first_word sql with
    | None => db_raise (OtherException "IndexError" "list index out of range")
    | Some w =>
        let first_word := PyStr.lower w in
        if String.eqb first_word "select" then
          cur <- execute db_path sql ;;
          fetched <- fetchall cur ;;
          let rows := map (fun v => dict_of_row (make_row cur v)) fetched in
          let cols := column_names cur in
          db_ret [("status", RStr "ok"); ("columns", RCols cols);
                  ("rows", RRows rows)]
        else if PyStr.contains ";" sql && (0 <? PyStr.count ";" sql)%nat then
          cur <- executescript db_path sql ;;
          commit db_path ;;;
          db_ret [("status", RStr "ok");
                  ("rows_affected", RInt (cur_rowcount cur))]
        else
          cur <- execute db_path sql ;;
          commit db_path ;;;
          db_ret [("status", RStr "ok");
                  ("rows_affected", RInt (cur_rowcount cur));
                  ("lastrowid", opt_int (cur_lastrowid cur))]
    end.

Definition run_sql (db_path : string) (sql_query : json) : dbm qresult :=
  there <- os_path_exists db_path ;;
  if negb there then
    db_ret (error_result ("Database not found: " ++ db_path))
  else
    connect db_path ;;;
    finally
      (except_sqlite3 (run_sql_body db_path sql_query)
                      (fun msg => db_ret (error_result msg)))
      close.

(** *** [list_tables] (sql_paraser.py, lines 37 to 68) *)

Record table_info : Type := TableInfo {
  table_name : sqlval;
  table_sql : string
}.

(** [list_tables] returns the empty dict [{}] or the list of tables. *)
Inductive tables_result : Type :=
| EmptyDict
| TableList (tables : list table_info).

(** [clean_sql(sql_text)]: an empty value gives the empty text; the
    [replace] calls that follow need a [str]. *)
Definition clean_sql (sql_text : sqlval) : res string :=
  if negb (sqlval_truthy sql_text) then Val ""
  else match sql_text with
       | SqlText s => Val (clean_sql_text s)
       | SqlBlob _ =>
           Exc (OtherException "TypeError" "a bytes-like object is required, not 'str'")
       | _ => Exc (attribute_error "object has no attribute 'replace'")
       end.

(** The [print] of each table evaluates [typ.upper()], with the format
    [:4] when [show_sql] is off. *)
Definition print_table (show_sql : bool) (typ : sqlval) : res unit :=
  match typ with
  | SqlText _ => Val tt
  | SqlBlob _ =>
      if show_sql then Val tt
      else Exc (OtherException "TypeError"
                  "unsupported format string passed to bytes.__format__")
  | _ => Exc (attribute_error "object has no attribute 'upper'")
  end.

(** [for name, typ, sql in rows: ...] *)
Fixpoint tables_of_rows (show_sql : bool) (rows : list (list sqlval))
         (tables_json : list table_info) : res (list table_info) :=
  match rows with
  | [] => Val tables_json
  | [name; typ; sql] :: rest =>
      let sql_text := if sqlval_truthy sql then sql else SqlText "" in
      match clean_sql sql_text with
      | Exc e => Exc e
      | Val cleaned =>
          match print_table show_sql typ with
          | Exc e => Exc e
          | Val _ =>
              tables_of_rows show_sql rest
                (tables_json ++ [TableInfo name cleaned])
          end
      end
  | _ :: _ => Exc (OtherException "ValueError" "wrong number of values to unpack")
  end.

Definition list_tables (db_path : string) (show_sql : bool)
  : dbm tables_result :=
  there <- os_path_exists db_path ;;
  if negb there then db_ret EmptyDict
  else
    connect db_path ;;;
    finally
      (cur <- execute db_path master_query ;;
       rows <- fetchall cur ;;
       match rows with
       | [] => db_ret EmptyDict
       | _ =>
           match tables_of_rows show_sql rows [] with
           | Val tables_json => db_ret (TableList tables_json)
           | Exc e => db_raise e
           end
       end)
      close.

End Executor.

(** ** The agent: [sql_agent.py] *)

Section Agent.

Variable DB : Type.
Variable eng : engine DB.
Variable py : pylib.
Variable clean_sql_text : string -> string.
(** The completion provider: its answer to the call number [n] of the
    run, made in JSON mode or not, over the conversation sent. *)
Variable provider : nat -> bool -> list message -> presp.
(** [OpenAI(api_key=..., base_url=...)] for this agent: the client object,
    or the exception its constructor raises (no API key at hand). *)
Variable openai_client : res unit.

(** [st_messages] and [st_step] are the locals [messages] and [step] of
    [process_message]; [messages] is the list object [get_completion]
    appends to.  [st_events] collects what the generator yields,
    [st_sent] logs the conversation each provider call was sent,
    [st_ops] logs the engine calls. *)
Record state : Type := State {
  st_db : DB;
  st_ops : list db_op;
  st_sent : list (list message);
  st_events : list string;
  st_messages : list message;
  st_step : nat
}.

(** The number of provider calls made so far. *)
Definition st_calls (s : state) : nat := length (st_sent s).

Definition eff (A : Type) : Type := state -> state * res A.

Definition ret {A} (a : A) : eff A := fun s => (s, Val a).
Definition raise {A} (e : exn) : eff A := fun s => (s, Exc e).
Definition bind {A B} (m : eff A) (k : A -> eff B) : eff B :=
  fun s => match m s with
           | (s', Val a) => k a s'
           | (s', Exc e) => (s', Exc e)
           end.

Notation "x <- m ;; k" := (bind m (fun x => k))
  (at level 61, m at next level, right associativity).
Notation "m ;;; k" := (bind m (fun _ => k))
  (at level 61, right associativity).

(** A call into [sql_paraser.py]. *)
Definition lift_db {A} (m : dbm DB A) : eff A :=
  fun s => match m (st_db s) with
           | (db, ops, r) =>
               (State db (st_ops s ++ ops) (st_sent s) (st_events s)
                      (st_messages s) (st_step s), r)
           end.

(** [yield text] *)
Definition emit (text : string) : eff unit :=
  fun s => (State (st_db s) (st_ops s) (st_sent s) (st_events s ++ [text])
                  (st_messages s) (st_step s), Val tt).

(** [messages.append(m)] *)
Definition append_message (m : message) : eff unit :=
  fun s => (State (st_db s) (st_ops s) (st_sent s) (st_events s)
                  (st_messages s ++ [m]) (st_step s), Val tt).

(** *** [SQLAgent.get_schema_context] (sql_agent.py, lines 27 to 34) *)

(** [str(v)] of a cell value inside an f-string. *)
Definition sqlval_str (v : sqlval) : string :=
  match v with
  | SqlNull => "None"
  | SqlInt z => PyStr.str_of_Z z
  | SqlText s => s
  | _ => sqlval_repr py v
  end.

Definition table_desc (t : table_info) : string :=
  "Table: " ++ sqlval_str (table_name t) ++ PyStr.nl ++
  table_sql t ++ PyStr.nl ++ PyStr.nl.

Definition get_schema_context (db_path : string) : eff string :=
  tables <- lift_db (list_tables eng clean_sql_text db_path false) ;;
  match tables with
  | TableList l => ret (String.concat "" (map table_desc l))
  | EmptyDict => ret ""
  end.

(** *** [SQLAgent.get_completion] (sql_agent.py, lines 36 to 62) *)

Definition max_retries : nat := 3.

(** The test on [str(e)] that marks a response-format failure. *)
Definition is_format_failure (description : string) : bool :=
  PyStr.contains "json_validate_failed" (PyStr.lower description)
  || PyStr.contains "400" description.

Definition json_reminder : message :=
  Msg System "IMPORTANT: You must respond ONLY with a valid JSON object. No conversational text before or after.".

(** [client.chat.completions.create(...)] followed by
    [response.choices[0].message.content], both inside the [try]. *)
Definition call_provider (json_mode : bool) : eff presp :=
  fun s => (State (st_db s) (st_ops s) (st_sent s ++ [st_messages s])
                  (st_events s) (st_messages s) (st_step s),
            Val (provider (st_calls s) json_mode (st_messages s))).

(** [messages[-1]] *)
Definition last_message : eff message :=
  fun s => match rev (st_messages s) with
           | m :: _ => (s, Val m)
           | [] => (s, Exc (OtherException "IndexError" "list index out of range"))
           end.

(** The [for attempt in range(max_retries)] loop, over the attempts left. *)
Fixpoint get_completion_loop (attempts : list nat) (json_mode : bool)
  : eff (option string) :=
  match attempts with
  | [] => ret (Some "")
  | attempt :: rest =>
      r <- call_provider json_mode ;;
      match r with
      | PContent content => ret content
      | PFail description =>
          if is_format_failure description && (attempt <? max_retries - 1)%nat
          then
            m <- last_message ;;
            (if negb (role_eqb (msg_role m) System)
             then append_message json_reminder else ret tt) ;;;
            get_completion_loop rest json_mode
          else if (attempt =? max_retries - 1)%nat then ret (Some "")
          else get_completion_loop rest json_mode
      end
  end.

(** [self.get_client()], called before the loop and outside its [try]. *)
Definition get_client : eff unit := fun s => (s, openai_client).

Definition get_completion (json_mode : bool) : eff (option string) :=
  get_client ;;;
  get_completion_loop (seq 0 max_retries) json_mode.

(** *** [SQLAgent.process_message] (sql_agent.py, lines 64 to 167) *)

(** The agent's database path, [self.db_path]. *)
Variable db_path : string.

Definition example_field (key value tail : string) : string :=
  "    " ++ PyStr.quoted key ++ ": " ++ PyStr.quoted value ++ tail.

Definition system_prompt (schema_context : string) : string :=
  PyStr.join PyStr.nl
    [ "You are a SQL agent. You have access to a SQLite database.";
      "Schema:";
      schema_context;
      "";
      "You interact with the database to answer the user's question.";
      "You can iteratively execute SQL queries to investigate data.";
      "You will query the database to get the answers, NEVER guess.";
      "If a query returns too many rows, you will see a truncated result, and you should refine your query (e.g., using aggregations or limits).";
      "";
      "RESPONSE FORMAT:";
      "You must respond with a JSON object. Ensure the entire response is a single JSON object.";
      "";
      "Example for SQL:";
      "{";
      example_field "type" "sql" ",";
      example_field "sql" "SELECT ..." ",";
      example_field "thought" "Brief logic" "";
      "}";
      "";
      "Example for Answer:";
      "{";
      example_field "type" "answer" ",";
      example_field "content" "Final human-readable answer" ",";
      example_field "thought" "How I got here" "";
      "}";
      "";
      "Strictly NO markdown blocks, NO preamble, and NO text outside the JSON.";
      "" ].

Definition max_steps : nat := 10.
Definition MAX_PREVIEW_ROWS : nat := 10.

(** [str(v)] of a parsed value inside an f-string. *)
Definition py_str (v : json) : string :=
  match v with
  | JNull => "None"
  | JBool true => "True"
  | JBool false => "False"
  | JInt z => PyStr.str_of_Z z
  | JStr s => s
  | _ => py_repr py v
  end.

(** [v == text] for a parsed value [v]. *)
Definition json_is (v : json) (text : string) : bool :=
  match v with
  | JStr s => String.eqb s text
  | _ => false
  end.

(** [json.dumps(rows, default=str)] of a list of row dictionaries. *)
Definition json_dumps_row (r : list (string * sqlval)) : string :=
  "{" ++ PyStr.join ", "
           (map (fun kv => json_dumps_str py (fst kv) ++ ": "
                           ++ json_dumps_val py (snd kv)) r) ++ "}".

Definition json_dumps_rows (rows : list (list (string * sqlval))) : string :=
  "[" ++ PyStr.join ", " (map json_dumps_row rows) ++ "]".

(** [result.get("status") == "ok"] *)
Definition status_ok (result : qresult) : bool :=
  match dict_get result "status" with
  | Some (RStr s) => String.eqb s "ok"
  | _ => false
  end.

(** [result.get("rows", [])]; [run_sql] stores nothing but a row list
    under that key. *)
Definition result_rows (result : qresult) : list (list (string * sqlval)) :=
  match dict_get result "rows" with
  | Some (RRows rows) => rows
  | _ => []
  end.

(** [result.get("error", "Unknown error")]; [run_sql] stores nothing but
    a text under that key. *)
Definition result_error (result : qresult) : string :=
  match dict_get result "error" with
  | Some (RStr msg) => msg
  | _ => "Unknown error"
  end.

(** The feedback text built from the rows of an [ok] result. *)
Definition result_message (rows : list (list (string * sqlval))) : string :=
  let total_rows := length rows in
  if (MAX_PREVIEW_ROWS <? total_rows)%nat then
    let preview_rows := firstn MAX_PREVIEW_ROWS rows in
    let data_str := json_dumps_rows preview_rows in
    "Query returned " ++ PyStr.str_of_nat total_rows
    ++ " rows. This is too many to show. Here are the first "
    ++ PyStr.str_of_nat MAX_PREVIEW_ROWS ++ " rows:" ++ PyStr.nl
    ++ data_str ++ PyStr.nl ++ PyStr.nl
    ++ "Please refine your query if you need more specific data, or use this sample to answer."
  else
    let data_str := json_dumps_rows rows in
    "Query returned " ++ PyStr.str_of_nat total_rows ++ " rows:" ++ PyStr.nl
    ++ data_str.

Definition invalid_json_message : message :=
  Msg User "Error: Invalid JSON response. Please respond with valid JSON.".

Definition unknown_type_message : message :=
  Msg User "Error: Unknown response type. Use 'sql' or 'answer'.".

Definition step_limit_event : string :=
  "Error: Agent reached maximum steps without a final answer.".

Definition schema_error_event : string :=
  "Error: Could not retrieve schema.".

(** How one pass through the loop body ends: back to the loop test, or
    the generator's [return]. *)
Inductive ctl : Type := Continue | Return.

Definition incr_step : eff unit :=
  fun s => (State (st_db s) (st_ops s) (st_sent s) (st_events s)
                  (st_messages s) (S (st_step s)), Val tt).

(** The branch [response_type == "sql"]. *)
Definition sql_branch (response_text : string)
           (response_data : list (string * json)) : eff ctl :=
  let sql_query := json_get response_data "sql" in
  emit ("Executing SQL: " ++ py_str sql_query) ;;;
  result <- lift_db (run_sql eng db_path sql_query) ;;
  if status_ok result then
    let rows := result_rows result in
    emit ("SQL Result (" ++ PyStr.str_of_nat (length rows) ++ " rows)") ;;;
    append_message (Msg Assistant response_text) ;;;
    append_message (Msg User (result_message rows)) ;;;
    ret Continue
  else
    let error_msg := result_error result in
    emit ("SQL Error: " ++ error_msg) ;;;
    append_message (Msg Assistant response_text) ;;;
    append_message (Msg User ("SQL Error: " ++ error_msg)) ;;;
    ret Continue.

(** What follows a successful [json.loads]. *)
Definition dispatch (response_text : string) (parsed : json) : eff ctl :=
  match parsed with
  | JObj response_data =>
      let response_type := json_get response_data "type" in
      let thought := json_get response_data "thought" in
      (if truthy thought then emit ("Thought: " ++ py_str thought)
       else ret tt) ;;;
      if json_is response_type "sql" then
        sql_branch response_text response_data
      else if json_is response_type "answer" then
        emit ("Final Answer: " ++ py_str (json_get response_data "content")) ;;;
        ret Return
      else
        emit ("Debug: Unknown response type: " ++ py_str response_type) ;;;
        append_message unknown_type_message ;;;
        ret Continue
  | _ => raise (OtherException "AttributeError" "object has no attribute 'get'")
  end.

(** The body of [while step < max_steps]. *)
Definition iteration : eff ctl :=
  incr_step ;;;
  response <- get_completion true ;;
  match response with
  | None =>
      raise (OtherException "TypeError"
               "the JSON object must be str, bytes or bytearray, not NoneType")
  | Some response_text =>
      match json_loads py response_text with
      | LoadsDecodeError =>
          emit ("Debug: Failed to parse JSON response: " ++ response_text) ;;;
          append_message invalid_json_message ;;;
          ret Continue
      | LoadsRaise e => raise e
      | LoadsOk parsed => dispatch response_text parsed
      end
  end.

(** [if step >= max_steps: yield ...], after the loop. *)
Definition after_loop : eff unit :=
  fun s => if (max_steps <=? st_step s)%nat then emit step_limit_event s
           else (s, Val tt).

(** The [while] loop and what follows it; [None] when [fuel] passes
    through the loop test did not suffice. *)
Fixpoint agent_loop (fuel : nat) (s : state) : option (state * res unit) :=
  match fuel with
  | O => None
  | S fuel' =>
      if (st_step s <? max_steps)%nat then
        match iteration s with
        | (s', Val Continue) => agent_loop fuel' s'
        | (s', Val Return) => Some (s', Val tt)
        | (s', Exc e) => Some (s', Exc e)
        end
      else Some (after_loop s)
  end.

(** [messages = [...]; max_steps = 10; step = 0] *)
Definition start_conversation (schema_context user_input : string)
  : eff unit :=
  fun s => (State (st_db s) (st_ops s) (st_sent s) (st_events s)
                  [Msg System (system_prompt schema_context);
                   Msg User user_input] 0, Val tt).

Definition process_message_with (fuel : nat) (user_input : string)
           (s : state) : option (state * res unit) :=
  match get_schema_context db_path s with
  | (s1, Exc e) => Some (s1, Exc e)
  | (s1, Val schema_context) =>
      if String.eqb schema_context "" then Some (emit schema_error_event s1)
      else agent_loop fuel (fst (start_conversation schema_context user_input s1))
  end.

(** Eleven passes through the loop test are always enough. *)
Definition process_message (user_input : string) (s : state)
  : option (state * res unit) :=
  process_message_with (S max_steps) user_input s.

(** The state a fresh call starts from: nothing yielded, no provider
    call made, no engine call made. *)
Definition fresh (db : DB) : state := State db [] [] [] [] 0.

(** *** Notions the properties are stated with *)

Definition parse_failure_event (response_text : string) : string :=
  "Debug: Failed to parse JSON response: " ++ response_text.

(** The event a thought adds, when the object carries one. *)
Definition thought_events (fields : list (string * json)) : list string :=
  if truthy (json_get fields "thought")
  then ["Thought: " ++ py_str (json_get fields "thought")]
  else [].

(** A provider that answers every call with text [json.loads] rejects
    with [json.JSONDecodeError]. *)
Definition always_malformed : Prop :=
  forall n mode messages,
    exists text, provider n mode messages = PContent (Some text)
                 /\ json_loads py text = LoadsDecodeError.

(** The conversation after a failed attempt that is not the last: the JSON
    reminder is appended when the failure carries a format marker and the
    last message is not a system message. *)
Definition reminded (description : string) (messages : list message)
  : list message :=
  if is_format_failure description then
    match rev messages with
    | m :: _ => if negb (role_eqb (msg_role m) System)
                then (messages ++ [json_reminder])%list else messages
    | [] => messages
    end
  else messages.

(** The state after provider calls over [sent], with [messages] as the
    conversation. *)
Definition after_calls (s : state) (sent : list (list message))
           (messages : list message) : state :=
  State (st_db s) (st_ops s) (st_sent s ++ sent) (st_events s) messages
        (st_step s).

(** *** The shape of a conversation *)

Definition message_eqb (a b : message) : bool :=
  role_eqb (msg_role a) (msg_role b)
  && String.eqb (msg_content a) (msg_content b).

(** Follows the spec's words: the first message is the system prompt; what
    follows alternates between [assistant] and [user], except that an
    invalid-JSON complaint may come without an assistant message before
    it. *)
Definition spec_may_follow (prev : role) (m : message) : bool :=
  match msg_role m with
  | System => false
  | Assistant => negb (role_eqb prev Assistant)
  | User => negb (role_eqb prev User) || message_eqb m invalid_json_message
  end.

Fixpoint spec_alternates (prev : role) (l : list message) : bool :=
  match l with
  | [] => true
  | m :: l' => spec_may_follow prev m && spec_alternates (msg_role m) l'
  end.

Definition spec_conversation_ok (l : list message) : bool :=
  match l with
  | m0 :: rest => role_eqb (msg_role m0) System && spec_alternates System rest
  | [] => false
  end.

(** What the code keeps.  The two complaints the loop appends on its own,
    with no assistant message before them: *)
Definition is_repair (m : message) : bool :=
  message_eqb m invalid_json_message || message_eqb m unknown_type_message.

(** [m] may come right after a message of role [prev], past the opening
    pair: an assistant message is followed by a user message and by nothing
    else; an assistant message comes after a user message or a reminder; a
    system message is the JSON reminder, right after a user message; a user
    message that does not answer an assistant message is a repair
    message. *)
Definition may_follow (prev : role) (m : message) : bool :=
  match prev, msg_role m with
  | Assistant, User => true
  | Assistant, _ => false
  | _, Assistant => true
  | User, System => message_eqb m json_reminder
  | System, System => false
  | _, User => is_repair m
  end.

Fixpoint linked (prev : role) (l : list message) : bool :=
  match l with
  | [] => true
  | m :: l' => may_follow prev m && linked (msg_role m) l'
  end.

(** The role of the last message of [l], or [prev] when [l] is empty. *)
Fixpoint final_role (prev : role) (l : list message) : role :=
  match l with
  | [] => prev
  | m :: l' => final_role (msg_role m) l'
  end.

(** The system prompt, the user's input, then messages linked as above,
    the last of which is not an assistant message. *)
Definition conversation_ok (l : list message) : bool :=
  match l with
  | m0 :: m1 :: rest =>
      role_eqb (msg_role m0) System && role_eqb (msg_role m1) User
      && linked User rest
      && negb (role_eqb (final_role User rest) Assistant)
  | _ => false
  end.

(** The invariant of a run: every conversation sent to the provider, and
    the conversation as it stands, is well formed. *)
Definition conv_inv (s : state) : Prop :=
  Forall (fun c => conversation_ok c = true) (st_sent s)
  /\ conversation_ok (st_messages s) = true.

(** [m] keeps [P]: from a state in [P] it ends in a state in [P], whether
    it returns or raises. *)
Definition preserves (P : state -> Prop) {A : Type} (m : eff A) : Prop :=
  forall s, P s -> P (fst (m s)).

(** The step counter stands at [n]. *)
Definition at_step (n : nat) (s : state) : Prop := st_step s = n.

End Agent.

Arguments preserves {DB} P {A} m.
Arguments at_step {DB} n s.
Arguments conv_inv {DB} s.
Arguments after_calls {DB} s sent messages.

(** ** States of the concrete world *)

(** A conversation to call [get_completion] on. *)
Definition demo_state (db : nat) : state nat :=
  State db [] [] [] [Msg System "You are a SQL agent."; Msg User "hi"] 0.

(** The state [get_completion] leaves on [demo_state db] when the first
    attempt is answered. *)
Definition demo_called (db : nat) : state nat :=
  State db [] [st_messages (demo_state db)] [] (st_messages (demo_state db)) 1.

(** ** What the spec says, in the model's terms *)

(** The dispatch test of [run_sql]: the first blank-separated word of the
    trimmed statement, in lower case, is [select]. *)
Definition is_select (sql : string) : bool :=
  match PyStr.first_word sql with
  | Some w => String.eqb (PyStr.lower w) "select"
  | None => false
  end.

(** Follows the spec's words: after a failure that carries no format
    marker, [get_completion] makes no further attempt and returns the empty
    string. *)
Definition spec_no_local_retry
           (provider : nat -> bool -> list message -> presp) : Prop :=
  forall (DB : Type) (s : state DB) (mode : bool) (description : string),
    provider (st_calls s) mode (st_messages s) = PFail description ->
    is_format_failure description = false ->
    snd (get_completion provider (Val tt) mode s) = Val (Some "")
    /\ st_calls (fst (get_completion provider (Val tt) mode s)) = S (st_calls s).

(** The engine raises nothing but [sqlite3.Error] on the file [db_path]:
    what the [except] clause of [run_sql] is written for. *)
Definition sqlite3_only {A : Type} (r : res A) : Prop :=
  match r with
  | Exc (OtherException _ _) => False
  | _ => True
  end.

Definition engine_raises_sqlite3_only (DB : Type) (eng : engine DB)
           (db_path : string) : Prop :=
  (forall db sql,
      match snd (sqlite_execute eng db db_path sql) with
      | Val cur => sqlite3_only (cur_fetchall cur)
      | r => sqlite3_only r
      end)
  /\ (forall db sql, sqlite3_only (snd (sqlite_executescript eng db db_path sql)))
  /\ (forall db,
         match snd (sqlite_commit eng db db_path) with
         | Some (OtherException _ _) => False
         | _ => True
         end).

(** ** More Python text primitives *)

(** [s.replace(old, new)] for an [old] that is not empty: the occurrences
    of [old] are taken from the left, without overlap; [skip] counts the
    bytes left of an occurrence under way. *)
Fixpoint replace_from (old new : string) (skip : nat) (s : string) {struct s}
  : string :=
  match s with
  | EmptyString => EmptyString
  | String c s' =>
      match skip with
      | S k => replace_from old new k s'
      | O => if prefix old s
             then new ++ replace_from old new (String.length old - 1) s'
             else String c (replace_from old new 0 s')
      end
  end.

Definition py_replace (old new s : string) : string := replace_from old new 0 s.

(** [s.endswith(c)] for a one-character [c]. *)
Fixpoint ends_with (c : ascii) (s : string) : bool :=
  match s with
  | EmptyString => false
  | String c' EmptyString => Ascii.eqb c' c
  | String _ s' => ends_with c s'
  end.

(** [s.split(sep)] for a one-character [sep]. *)
Fixpoint split_on (sep : ascii) (s : string) : list string :=
  match s with
  | EmptyString => [EmptyString]
  | String c s' =>
      if Ascii.eqb c sep then EmptyString :: split_on sep s'
      else match split_on sep s' with
           | part :: parts => String c part :: parts
           | [] => [String c EmptyString]
           end
  end.

(** [c * n] for a one-character [c]. *)
Fixpoint repeat_char (c : ascii) (n : nat) : string :=
  match n with
  | O => EmptyString
  | S n' => String c (repeat_char c n')
  end.

(** ** [clean_sql] past its first test (sql_paraser.py, lines 10 to 35)

    The regular expressions are written out as the scanners they stand
    for.  [re.sub] takes the matches from the left, without overlap; none
    of the patterns matches the empty text.  [\s] is the white space of
    [str.isspace]. *)

Module CleanSql.

Definition lf : ascii := ascii_of_nat 10.
Definition cr : ascii := ascii_of_nat 13.
Definition tab : ascii := ascii_of_nat 9.

(** A literal of ASCII letters under [re.IGNORECASE], at the head of [s]:
    what follows it. *)
Fixpoint match_ci (word s : string) : option string :=
  match word with
  | EmptyString => Some s
  | String a word' =>
      match s with
      | String b s' =>
          if Ascii.eqb (PyStr.lower_char a) (PyStr.lower_char b)
          then match_ci word' s' else None
      | EmptyString => None
      end
  end.

(** The letter [I] under [re.IGNORECASE]: [i], [I], and the letters U+0130
    and U+0131, which Unicode sends to [i]. *)
Definition match_letter_i (s : string) : option string :=
  match s with
  | String c s' =>
      if Ascii.eqb (PyStr.lower_char c) "i" then Some s'
      else if prefix (PyStr.utf8 [196; 176]) s || prefix (PyStr.utf8 [196; 177]) s
           then match s' with
                | String _ s'' => Some s''
                | EmptyString => None
                end
           else None
  | EmptyString => None
  end.

(** [(?:TABLE|VIEW)] *)
Definition match_kind (s : string) : option string :=
  match match_ci "TABLE" s with
  | Some r => Some r
  | None =>
      match match_ci "V" s with
      | Some r1 =>
          match match_letter_i r1 with
          | Some r2 => match_ci "EW" r2
          | None => None
          end
      | None => None
      end
  end.

(** The text up to the first [(], and what follows that [(]. *)
Fixpoint until_paren (s : string) : option (string * string) :=
  match s with
  | EmptyString => None
  | String c s' =>
      if Ascii.eqb c "(" then Some (EmptyString, s')
      else match until_paren s' with
           | Some (before, after) => Some (String c before, after)
           | None => None
           end
  end.

(** [(CREATE\s+(?:TABLE|VIEW)\s+[^\(]+)\(\s*] at the head of [s]: the
    group [\1] and what follows the match.  Nothing before the [\(] of the
    pattern matches a [(], so the match runs up to the first [(] of [s];
    [\s+[^\(]+] asks for a white-space character and at least one more
    character. *)
Definition match_create (s : string) : option (string * string) :=
  match until_paren s with
  | None => None
  | Some (head, after) =>
      match match_ci "CREATE" head with
      | None => None
      | Some r1 =>
          match PyStr.space_len r1 with
          | O => None
          | S _ =>
              match match_kind (PyStr.lstrip r1) with
              | None => None
              | Some r3 =>
                  match PyStr.space_len r3 with
                  | O => None
                  | S k =>
                      if (S k <? String.length r3)%nat
                      then Some (head, PyStr.lstrip after)
                      else None
                  end
              end
          end
      end
  end.

(** Line 12: [re.sub(r'(CREATE\s+(?:TABLE|VIEW)\s+[^\(]+)\(\s*', r'\1(\n',
    s, flags=re.IGNORECASE)]; [skip] counts the bytes left of a match
    under way. *)
Fixpoint sub_create (skip : nat) (s : string) {struct s} : string :=
  match s with
  | EmptyString => EmptyString
  | String c s' =>
      match skip with
      | S k => sub_create k s'
      | O =>
          match match_create s with
          | Some (head, rest) =>
              head ++ "(" ++ PyStr.nl
              ++ sub_create (String.length s - String.length rest - 1) s'
          | None => String c (sub_create 0 s')
          end
      end
  end.

(** Line 13: [re.sub(r'[ \t]+', ' ', s)]; [in_run] holds inside a run of
    blanks. *)
Fixpoint sub_blanks (in_run : bool) (s : string) : string :=
  match s with
  | EmptyString => EmptyString
  | String c s' =>
      if Ascii.eqb c " " || Ascii.eqb c tab then
        if in_run then sub_blanks true s' else String " " (sub_blanks true s')
      else String c (sub_blanks false s')
  end.

(** [re.sub(c + r'\s*', repl, s)] for a character [c]; [eating] holds
    right after a match of [c] and the white space taken so far, and
    [pending] counts the bytes left of a white-space character under
    way. *)
Fixpoint sub_with_space (c : ascii) (repl : string) (eating : bool)
         (pending : nat) (s : string) {struct s} : string :=
  match s with
  | EmptyString => EmptyString
  | String c' s' =>
      match pending with
      | S p => sub_with_space c repl eating p s'
      | O =>
          let plain :=
            if Ascii.eqb c' c then repl ++ sub_with_space c repl true 0 s'
            else String c' (sub_with_space c repl false 0 s') in
          if eating then
            match PyStr.space_len s with
            | S p => sub_with_space c repl true p s'
            | O => plain
            end
          else plain
      end
  end.

(** Line 15: [[ln.strip() for ln in s.split('\n') if ln.strip()]] *)
Definition stripped_lines (s : string) : list string :=
  filter (fun ln => negb (String.eqb ln ""))
         (map PyStr.strip (split_on lf s)).

(** Lines 17 to 27: the indentation loop. *)
Fixpoint indent_lines (indent_level : nat) (lines : list string)
  : list string :=
  match lines with
  | [] => []
  | line :: rest =>
      let indent_level :=
        if prefix ")" line then Nat.max (indent_level - 1) 0
        else indent_level in
      let prefix_text := repeat_char " " (4 * indent_level) in
      let indent_level' :=
        if ends_with "(" line
           || (PyStr.contains "(" line && negb (PyStr.contains ")" line))
        then indent_level + 1 else indent_level in
      (prefix_text ++ line) :: indent_lines indent_level' rest
  end.

(** Line 30: [re.sub(r'\n{2,}', '\n\n', cleaned)]; [run] counts the
    newlines of the run under way. *)
Fixpoint sub_newlines (run : nat) (s : string) : string :=
  match s with
  | EmptyString => EmptyString
  | String c s' =>
      if Ascii.eqb c lf then
        if (run <? 2)%nat then String c (sub_newlines (S run) s')
        else sub_newlines (S run) s'
      else String c (sub_newlines 0 s')
  end.

End CleanSql.

(** The body of [clean_sql] for a text that is not empty; the [old] of
    line 31 is the two characters backslash and [n]. *)
Definition clean_sql_body (sql_text : string) : string :=
  let cr := String CleanSql.cr EmptyString in
  let s := py_replace cr PyStr.nl
             (py_replace (cr ++ PyStr.nl) PyStr.nl sql_text) in
  let s := py_replace "]" "" (py_replace "[" "" (py_replace PyStr.dquote "" s)) in
  let s := CleanSql.sub_create 0 s in
  let s := CleanSql.sub_blanks false s in
  let s := CleanSql.sub_with_space "," ("," ++ PyStr.nl) false 0 s in
  let lines := CleanSql.stripped_lines s in
  let out_lines := CleanSql.indent_lines 0 lines in
  let cleaned := PyStr.join PyStr.nl out_lines in
  let cleaned := PyStr.strip (CleanSql.sub_newlines 0 cleaned) in
  let cleaned := py_replace "\n" "" cleaned in
  let cleaned := CleanSql.sub_with_space CleanSql.lf "" false 0 cleaned in
  let cleaned := py_replace "," ", " cleaned in
  cleaned.

(** *** Notions for the properties of [clean_sql] *)

(** [c in s] for a character [c]. *)
Fixpoint occurs (c : ascii) (s : string) : bool :=
  match s with
  | EmptyString => false
  | String c' s' => Ascii.eqb c' c || occurs c s'
  end.

(** Every comma of [s] is followed by a space. *)
Fixpoint commas_spaced (s : string) : bool :=
  match s with
  | EmptyString => true
  | String c s' =>
      (if Ascii.eqb c "," then prefix " " s' else true) && commas_spaced s'
  end.

(** An ASCII letter, a digit or an underscore. *)
Definition is_word_char (c : ascii) : bool :=
  let n := nat_of_ascii c in
  ((65 <=? n)%nat && (n <=? 90)%nat)
  || ((97 <=? n)%nat && (n <=? 122)%nat)
  || ((48 <=? n)%nat && (n <=? 57)%nat)
  || (n =? 95)%nat.

(** A text made of such characters. *)
Fixpoint is_word (s : string) : bool :=
  match s with
  | EmptyString => true
  | String c s' => is_word_char c && is_word s'
  end.

(** ** The chat front end: [app.py] *)

(** What [respond] adds to [full_response] for one update. *)
Definition render_update (update : string) : string :=
  if prefix "Final Answer:" update then
    let answer := PyStr.strip (py_replace "Final Answer:" "" update) in
    PyStr.nl ++ PyStr.nl ++ "**Answer:** " ++ answer
  else if prefix "Thought:" update then
    PyStr.nl ++ "*Thinking: "
    ++ PyStr.strip (py_replace "Thought:" "" update) ++ "*"
  else if prefix "Executing SQL:" update then
    PyStr.nl ++ "`" ++ update ++ "`"
  else if prefix "SQL Result" update then
    PyStr.nl ++ "_" ++ update ++ "_"
  else if prefix "SQL Error" update then
    PyStr.nl ++ update
  else
    PyStr.nl ++ update.

(** The texts [respond] yields, one per update of the agent, from the
    [full_response] built so far. *)
Fixpoint respond_outputs (full_response : string) (updates : list string)
  : list string :=
  match updates with
  | [] => []
  | update :: rest =>
      let full_response := full_response ++ render_update update in
      full_response :: respond_outputs full_response rest
  end.

Section App.

Variable DB : Type.
Variable eng : engine DB.
Variable py : pylib.
Variable clean_sql_text : string -> string.
Variable provider : nat -> bool -> list message -> presp.
Variable openai_client : res unit.
Variable db_path : string.

(** [respond(message, history)] (app.py, lines 17 to 43): the texts
    yielded, and how the generator ends; [history] is not read. *)
Definition respond (message : string) (history : list (string * string))
           (db : DB) : option (list string * res unit) :=
  match process_message eng py clean_sql_text provider openai_client db_path
                        message (fresh db) with
  | Some (s', r) => Some (respond_outputs "" (st_events s'), r)
  | None => None
  end.

End App.

(** ** Notions for the further properties of the agent *)

(** [l'] is [l] with messages appended. *)
Definition extends (l l' : list message) : Prop :=
  exists d, l' = (l ++ d)%list.

(** The two messages a conversation opens with. *)
Definition opening (schema_context user_input : string) : list message :=
  [Msg System (system_prompt schema_context); Msg User user_input].

(** [messages[-1]["role"] == "system"] *)
Definition ends_with_system (l : list message) : bool :=
  match rev l with
  | m :: _ => role_eqb (msg_role m) System
  | [] => false
  end.

(** An event that carries the final answer. *)
Definition is_final_answer (event : string) : bool :=
  prefix "Final Answer: " event.

Definition no_final_answer (events : list string) : bool :=
  forallb (fun e => negb (is_final_answer e)) events.

(** Nothing sent is ever taken back: every conversation sent is an
    extension of [base], and of the ones sent before it, and the
    conversation as it stands extends them all. *)
Definition grows_from (base : list message) (DB : Type) (s : state DB)
  : Prop :=
  extends base (st_messages s)
  /\ Forall (fun c => extends base c /\ extends c (st_messages s)) (st_sent s)
  /\ StronglySorted extends (st_sent s).

(** ** Notions for the further properties of the executor *)

(** The engine calls made on an open connection. *)
Definition is_statement_op (op : db_op) : bool :=
  match op with
  | OpExecute _ | OpExecuteScript _ | OpFetchall | OpCommit => true
  | OpConnect _ | OpClose => false
  end.

(** The first engine call [run_sql] makes for a statement text that is not
    blank, by its dispatch: what the engine answers, and the call made. *)
Definition statement_call (DB : Type) (eng : engine DB) (db : DB)
           (db_path sql : string) : DB * res cursor * db_op :=
  if is_select sql then (sqlite_execute eng db db_path sql, OpExecute sql)
  else if PyStr.contains ";" sql
       then (sqlite_executescript eng db db_path sql, OpExecuteScript sql)
       else (sqlite_execute eng db db_path sql, OpExecute sql).

(** What the [except sqlite3.Error] clause makes of an exception. *)
Definition converted (e : exn) : res qresult :=
  match e with
  | Sqlite3Error msg => Val (error_result msg)
  | OtherException _ _ => Exc e
  end.

(** A row of the catalogue as [sqlite_master] holds it: a name, the type as
    text, and the DDL as text or [NULL]. *)
Definition catalogue_row_ok (r : list sqlval) : bool :=
  match r with
  | [_; SqlText _; SqlText _] | [_; SqlText _; SqlNull] => true
  | _ => false
  end.

(** The entry [list_tables] builds for such a row. *)
Definition table_of_row (clean_sql_text : string -> string) (r : list sqlval)
  : table_info :=
  match r with
  | [name; _; SqlText ddl] =>
      TableInfo name (if String.eqb ddl "" then "" else clean_sql_text ddl)
  | name :: _ => TableInfo name ""
  | [] => TableInfo SqlNull ""
  end.

(** ** The keys of a row dictionary *)

(** [d[k] = ...] on the keys of a dictionary: a key that is there keeps
    its place. *)
Definition add_name (seen : list string) (k : string) : list string :=
  if existsb (String.eqb k) seen then seen else (seen ++ [k])%list.

(** The names of [names] without repetition, each at the place of its
    first occurrence: the keys of a dictionary filled in that order. *)
Definition distinct_names (names : list string) : list string :=
  fold_left add_name names [].

(** ** What the spec says of [SELECT] statements and of malformed replies *)

(** The leading keyword of the statement is [SELECT], without regard to
    case: past the leading white space the text starts with the letters
    of [select], and no letter, digit or underscore goes on with them. *)
Definition leading_keyword_select (sql : string) : bool :=
  match CleanSql.match_ci "select" (PyStr.lstrip sql) with
  | Some (String c _) => negb (is_word_char c)
  | Some EmptyString => true
  | None => false
  end.

(** Follows the spec's words, at one statement: when its leading keyword
    is [SELECT] and the engine accepts it, [run_sql] returns an [ok]
    result whose [columns] list is as long as the key count of every
    mapping of [rows]. *)
Definition spec_select_shape_at (DB : Type) (eng : engine DB)
           (db_path text : string) (db : DB) : Prop :=
  path_exists eng db db_path = true ->
  sqlite_connect eng db db_path = None ->
  leading_keyword_select text = true ->
  (exists db1 cur fetched,
      sqlite_execute eng db db_path (PyStr.strip text) = (db1, Val cur)
      /\ cur_fetchall cur = Val fetched) ->
  exists db' ops result cols rows,
    run_sql eng db_path (JStr text) db = (db', ops, Val result)
    /\ status_ok result = true
    /\ dict_get result "columns" = Some (RCols cols)
    /\ dict_get result "rows" = Some (RRows rows)
    /\ Forall (fun r => length (dict_keys r) = length cols) rows.

Definition spec_select_shape (DB : Type) (eng : engine DB) : Prop :=
  forall db_path text db, spec_select_shape_at eng db_path text db.

(** Follows the spec's words: with a provider whose every reply is text
    that [json.loads] does not parse, a run that reaches the loop goes
    through the loop body exactly ten times, yields one
    [Debug: Failed to parse JSON response] event each time, and ends with
    the step-limit error. *)
Definition spec_malformed_exhausts (DB : Type) (eng : engine DB) (py : pylib)
           (clean_sql_text : string -> string)
           (provider : nat -> bool -> list message -> presp)
           (db_path : string) : Prop :=
  forall user_input db s1 schema,
    get_schema_context eng py clean_sql_text db_path (fresh db)
    = (s1, Val schema) ->
    schema <> "" ->
    (forall n mode messages,
        exists text,
          provider n mode messages = PContent (Some text)
          /\ forall v, json_loads py text <> LoadsOk v) ->
    exists s' texts,
      process_message eng py clean_sql_text provider (Val tt) db_path
                      user_input (fresh db)
      = Some (s', Val tt)
      /\ st_step s' = 10
      /\ length texts = 10
      /\ st_events s'
         = (map parse_failure_event texts ++ [step_limit_event])%list.

(** ** More concrete worlds *)

Module DemoMore.

(** A database file without a table or a view. *)
Definition empty_sqlite : engine nat :=
  {| path_exists := fun _ path => String.eqb path Demo.db_file;
     sqlite_connect := fun _ _ => None;
     sqlite_execute := fun db _ _ =>
       (db, Val (Cursor (Some ["name"; "type"; "sql"]) (Val []) (-1) None));
     sqlite_executescript := fun db _ _ => (db, Exc Demo.syntax_error);
     sqlite_commit := fun db _ => (db, None) |}.

(** A file that opens and is no database. *)
Definition not_a_database : exn := Sqlite3Error "file is not a database".

Definition broken_sqlite : engine nat :=
  {| path_exists := fun _ path => String.eqb path Demo.db_file;
     sqlite_connect := fun _ _ => None;
     sqlite_execute := fun db _ _ => (db, Exc not_a_database);
     sqlite_executescript := fun db _ _ => (db, Exc not_a_database);
     sqlite_commit := fun db _ => (db, None) |}.

(** A table, a view whose DDL is [NULL], and the cleaning of [Demo]. *)
Definition two_objects : list (list sqlval) :=
  [ [SqlText "t"; SqlText "table"; SqlText "CREATE TABLE t (a INTEGER)"];
    [SqlText "v"; SqlText "view"; SqlNull] ].

Definition two_objects_sqlite : engine nat :=
  {| path_exists := fun _ path => String.eqb path Demo.db_file;
     sqlite_connect := fun _ _ => None;
     sqlite_execute := fun db _ _ =>
       (db, Val (Cursor (Some ["name"; "type"; "sql"]) (Val two_objects)
                        (-1) None));
     sqlite_executescript := fun db _ _ => (db, Exc Demo.syntax_error);
     sqlite_commit := fun db _ => (db, None) |}.

(** A reply without a [type]. *)
Definition wonders : nat -> bool -> list message -> presp :=
  fun _ _ _ => PContent (Some ("{" ++ Demo.field "thought" "hm" ++ "}")).

(** A reply that is a JSON list, and a reader that knows the empty list. *)
Definition lists : nat -> bool -> list message -> presp :=
  fun _ _ _ => PContent (Some "[]").

Definition python : pylib :=
  {| json_loads := fun text => if String.eqb text "[]" then LoadsOk (JArr [])
                               else Demo.flat_loads text;
     json_dumps_str := PyStr.quoted;
     json_dumps_val := Demo.dumps_val;
     py_repr := fun _ => "?";
     sqlval_repr := fun _ => "?" |}.

(** The constructor of the client without an API key. *)
Definition no_api_key : exn :=
  OtherException "OpenAIError" "The api_key client option must be set".

(** The schema text of the database of [Demo], and the state once it is
    read. *)
Definition schema_text : string :=
  "Table: t" ++ PyStr.nl ++ "CREATE TABLE t (a INTEGER)" ++ PyStr.nl ++ PyStr.nl.

Definition schema_read (db : nat) : state nat :=
  State db [OpConnect Demo.db_file; OpExecute master_query; OpFetchall; OpClose]
        [] [] [] 0.

(** A DDL text as the catalogue of the sample database holds them:
    bracketed names, lines that end in CR LF. *)
Definition bracketed_ddl : string :=
  "CREATE TABLE [t] (" ++ String CleanSql.cr PyStr.nl
  ++ "    [a] INTEGER  NOT NULL," ++ String CleanSql.cr PyStr.nl
  ++ "    [b] TEXT" ++ String CleanSql.cr PyStr.nl ++ ")".

Definition flat_ddl : string := "CREATE TABLE t (a INTEGER NOT NULL, b TEXT)".

(** The engine of [Demo], which also knows a [SELECT] written without a
    blank after the keyword. *)
Definition select_star : string := "SELECT*FROM t".

Definition star_sqlite : engine nat :=
  {| path_exists := path_exists Demo.sqlite;
     sqlite_connect := sqlite_connect Demo.sqlite;
     sqlite_execute := fun db path sql =>
       if Demo.same_statement sql select_star then
         (db, Val (Cursor (Some ["a"])
                          (Val (map (fun i => [SqlInt (Z.of_nat i)]) (seq 1 db)))
                          (-1) (Some 0%Z)))
       else Demo.demo_execute db path sql;
     sqlite_executescript := Demo.demo_executescript;
     sqlite_commit := fun db _ => (db, None) |}.

(** A thousand opening brackets: [json.loads] gives up on the nesting
    before it finds the text malformed. *)
Definition deep_text : string := repeat_char "[" 1000.

Definition recursion_error : exn :=
  OtherException "RecursionError"
    "maximum recursion depth exceeded while decoding a JSON array from a unicode string".

Definition deep_python : pylib :=
  {| json_loads := fun text => if String.eqb text deep_text
                               then LoadsRaise recursion_error
                               else Demo.flat_loads text;
     json_dumps_str := PyStr.quoted;
     json_dumps_val := Demo.dumps_val;
     py_repr := fun _ => "?";
     sqlval_repr := fun _ => "?" |}.

Definition nests : nat -> bool -> list message -> presp :=
  fun _ _ _ => PContent (Some deep_text).

End DemoMore.

(** * Properties of the SQL executor *)

Unset Implicit Arguments.

Section ExecutorProperties.

Variable DB : Type.
Variable eng : engine DB.

Lemma contains_char_count (c : ascii) (s : string) :
  PyStr.contains (String c EmptyString) s = true ->
  (0 <? PyStr.count c s)%nat = true.
Proof.
  induction s as [|c' s IH]; simpl.
  - discriminate.
  - destruct (ascii_dec c c') as [->|Hne].
    + rewrite Ascii.eqb_refl. intros _. reflexivity.
    + intros H.
      destruct (Ascii.eqb c' c) eqn:E; [reflexivity|].
      simpl. apply IH.
      destruct s; exact H.
Qed.

(** The second half of the test [";" in sql and sql.count(";") > 0]
    never decides. *)
Lemma separator_test (sql : string) :
  PyStr.contains ";" sql && (0 <? PyStr.count ";" sql)%nat
  = PyStr.contains ";" sql.
Proof.
  destruct (PyStr.contains ";" sql) eqn:E; [|reflexivity].
  simpl. now apply contains_char_count.
Qed.

Lemma truthy_of_stripped (text : string) :
  PyStr.strip text <> "" -> truthy (JStr text) = true.
Proof.
  intros H. simpl. destruct text; [|reflexivity].
  exfalso. apply H. reflexivity.
Qed.

Lemma stripped_query_text (text : string) (db : DB) :
  PyStr.strip text <> "" ->
  stripped_query (JStr text) db = (db, [], Val (PyStr.strip text)).
Proof.
  intros H. unfold stripped_query.
  rewrite (truthy_of_stripped text H). reflexivity.
Qed.

Lemma prefix_trans (a b c : string) :
  prefix a b = true -> prefix b c = true -> prefix a c = true.
Proof.
  revert b c. induction a as [|x a IH]; intros [|y b] [|z c]; simpl;
    try discriminate; try reflexivity.
  destruct (ascii_dec x y) as [->|]; [|discriminate].
  destruct (ascii_dec y z) as [->|]; [|discriminate].
  apply IH.
Qed.

Lemma whitespace_not_empty :
  Forall (fun w => String.length w <> 0) PyStr.whitespace.
Proof. repeat constructor; discriminate. Qed.

(** White space at the head of a prefix is white space at the head of the
    whole. *)
Lemma space_len_prefix (p s : string) :
  prefix p s = true -> PyStr.space_len p <> 0 -> PyStr.space_len s <> 0.
Proof.
  unfold PyStr.space_len. intros Hp Hlen.
  destruct (find (fun w => prefix w p) PyStr.whitespace) as [w|] eqn:Hw;
    [|now elim Hlen].
  apply find_some in Hw as [Hin Hwp].
  destruct (find (fun w => prefix w s) PyStr.whitespace) as [w'|] eqn:Hs.
  - apply find_some in Hs as [Hin' _].
    exact (proj1 (Forall_forall _ _) whitespace_not_empty w' Hin').
  - pose proof (find_none _ _ Hs w Hin) as Hnone. simpl in Hnone.
    rewrite (prefix_trans w p s Hwp Hp) in Hnone. discriminate.
Qed.

(** What [lstrip] leaves does not start with white space. *)
Lemma drop_space_head (s : string) :
  forall pending, PyStr.space_len (PyStr.drop_space pending s) = 0.
Proof.
  induction s as [|c s IH]; intros pending; [reflexivity|].
  cbn [PyStr.drop_space]. destruct pending as [|p]; [|apply IH].
  destruct (PyStr.space_len (String c s)) as [|p] eqn:E; [exact E|apply IH].
Qed.

Lemma lstrip_fixed (s : string) :
  PyStr.space_len s = 0 -> PyStr.lstrip s = s.
Proof.
  intros H. unfold PyStr.lstrip. destruct s as [|c s]; [reflexivity|].
  cbn [PyStr.drop_space]. now rewrite H.
Qed.

Lemma rstrip_prefix (s : string) : prefix (PyStr.rstrip s) s = true.
Proof.
  induction s as [|c s IH]; [reflexivity|].
  cbn [PyStr.rstrip]. destruct (PyStr.lstrip (String c s)); [reflexivity|].
  simpl. destruct (ascii_dec c c) as [_|Hne]; [exact IH|now elim Hne].
Qed.

(** A trimmed statement that is not empty has a first word: the
    [IndexError] of [split(None, 1)[0]] cannot happen in [run_sql]. *)
Lemma first_word_of_stripped (text : string) :
  PyStr.strip text <> "" ->
  exists w, PyStr.first_word (PyStr.strip text) = Some w.
Proof.
  unfold PyStr.strip. intros H.
  assert (Hhead : PyStr.space_len (PyStr.rstrip (PyStr.lstrip text)) = 0).
  { destruct (PyStr.space_len (PyStr.rstrip (PyStr.lstrip text))) eqn:E;
      [reflexivity|].
    exfalso.
    apply (space_len_prefix _ (PyStr.lstrip text) (rstrip_prefix _));
      [now rewrite E|].
    apply drop_space_head. }
  unfold PyStr.first_word. rewrite (lstrip_fixed _ Hhead).
  destruct (PyStr.rstrip (PyStr.lstrip text)); [now elim H|now eexists].
Qed.

(** The dispatch of [run_sql_body], once the statement is known not to
    be blank. *)
Lemma run_sql_body_dispatch (db_path text : string) :
  PyStr.strip text <> "" ->
  forall db,
    run_sql_body eng db_path (JStr text) db
    = (let sql := PyStr.strip text in
       if is_select sql then
         db_bind (execute eng db_path sql) (fun cur =>
         db_bind (fetchall cur) (fun fetched =>
         db_ret [("status", RStr "ok"); ("columns", RCols (column_names cur));
                 ("rows", RRows (map (fun v => dict_of_row (make_row cur v))
                                     fetched))]))
       else if PyStr.contains ";" sql then
         db_bind (executescript eng db_path sql) (fun cur =>
         db_bind (commit eng db_path) (fun _ =>
         db_ret [("status", RStr "ok");
                 ("rows_affected", RInt (cur_rowcount cur))]))
       else
         db_bind (execute eng db_path sql) (fun cur =>
         db_bind (commit eng db_path) (fun _ =>
         db_ret [("status", RStr "ok");
                 ("rows_affected", RInt (cur_rowcount cur));
                 ("lastrowid", opt_int (cur_lastrowid cur))]))) db.
Proof.
  intros Hne db.
  unfold run_sql_body, db_bind at 1.
  rewrite (stripped_query_text text db Hne).
  destruct (String.eqb_spec (PyStr.strip text) "") as [E|_]; [contradiction|].
  destruct (first_word_of_stripped text Hne) as [w Hw].
  unfold is_select. cbv zeta. rewrite Hw, separator_test.
  destruct (String.eqb (PyStr.lower w) "select");
    [|destruct (PyStr.contains ";" (PyStr.strip text))].
  all: match goal with
       | |- context [db_bind ?m ?k ?d] =>
           destruct (db_bind m k d) as [[? ?] ?]
       end; reflexivity.
Qed.

(** [run_sql] once the file is there and the connection is open. *)
Lemma run_sql_connected (db_path : string) (sql_query : json) (db : DB) :
  path_exists eng db db_path = true ->
  sqlite_connect eng db db_path = None ->
  run_sql eng db_path sql_query db
  = (let '(db1, ops1, r) :=
       except_sqlite3 (run_sql_body eng db_path sql_query)
                      (fun msg => db_ret (error_result msg)) db in
     (db1, OpConnect db_path :: ops1 ++ [OpClose], r))%list.
Proof.
  intros Hex Hconn.
  unfold run_sql, db_bind, os_path_exists, connect, finally, close.
  rewrite Hex. cbn [negb]. rewrite Hconn.
  destruct (except_sqlite3 _ _ db) as [[db1 ops1] r].
  reflexivity.
Qed.

(** A connection that cannot be opened: the exception of
    [sqlite3.connect], raised before the [try], leaves [run_sql]. *)
Lemma run_sql_connect_raises (db_path : string) (sql_query : json) (db : DB)
      (e : exn) :
  path_exists eng db db_path = true ->
  sqlite_connect eng db db_path = Some e ->
  run_sql eng db_path sql_query db = (db, [OpConnect db_path], Exc e).
Proof.
  intros Hex Hconn.
  unfold run_sql, db_bind, os_path_exists, connect.
  rewrite Hex. cbn [negb]. rewrite Hconn. reflexivity.
Qed.

(** *** Row dictionaries *)

Lemma equal_ignore_case_refl (k : string) : equal_ignore_case k k = true.
Proof. unfold equal_ignore_case. now rewrite String.eqb_refl. Qed.

Lemma row_getitem_key (r : row) (k : string) :
  In k (map fst r) -> exists v, row_getitem r k = Some v.
Proof.
  induction r as [|[k' v'] r IH]; simpl; [tauto|].
  intros [->|Hin].
  - rewrite equal_ignore_case_refl. now eexists.
  - destruct (equal_ignore_case k' k); [now eexists|now apply IH].
Qed.

Lemma dict_keys_set_new (d : list (string * sqlval)) (k : string) (v : sqlval) :
  ~ In k (dict_keys d) -> dict_keys (dict_set d k v) = (dict_keys d ++ [k])%list.
Proof.
  unfold dict_keys.
  induction d as [|[k' v'] d IH]; simpl; intros Hnin; [reflexivity|].
  destruct (String.eqb_spec k' k) as [->|Hne].
  - exfalso. apply Hnin. now left.
  - simpl. f_equal. apply IH. intros Hin. apply Hnin. now right.
Qed.

Lemma dict_of_row_fold (r : row) (ks : list string) :
  forall d,
    incl ks (map fst r) ->
    NoDup (dict_keys d ++ ks) ->
    dict_keys
      (fold_left (fun d k => match row_getitem r k with
                             | Some v => dict_set d k v
                             | None => d
                             end) ks d)
    = (dict_keys d ++ ks)%list.
Proof.
  induction ks as [|k ks IH]; intros d Hincl Hnd; simpl.
  - now rewrite app_nil_r.
  - destruct (row_getitem_key r k) as [v Hv]; [apply Hincl; now left|].
    rewrite Hv.
    assert (Hnew : ~ In k (dict_keys d)).
    { apply NoDup_remove_2 in Hnd. intros Hin. apply Hnd.
      apply in_or_app. now left. }
    rewrite IH.
    + rewrite (dict_keys_set_new d k v Hnew), <- app_assoc. reflexivity.
    + intros x Hx. apply Hincl. now right.
    + rewrite (dict_keys_set_new d k v Hnew), <- app_assoc. exact Hnd.
Qed.

(** With pairwise distinct column names, [dict(r)] has the keys of the
    row, in order. *)
Lemma dict_of_row_keys (r : row) :
  NoDup (map fst r) -> dict_keys (dict_of_row r) = map fst r.
Proof.
  intros Hnd. unfold dict_of_row.
  rewrite (dict_of_row_fold r (map fst r) []); [reflexivity| |exact Hnd].
  apply incl_refl.
Qed.

Lemma map_fst_combine (names : list string) (values : list sqlval) :
  length values = length names -> map fst (combine names values) = names.
Proof.
  revert values.
  induction names as [|n names IH]; intros [|v values]; simpl;
    try discriminate; [reflexivity|].
  intros [= H]. now rewrite IH.
Qed.

Lemma existsb_eqb_In (k : string) (l : list string) :
  existsb (String.eqb k) l = true <-> In k l.
Proof.
  rewrite existsb_exists. split.
  - intros (x & Hin & E). apply String.eqb_eq in E. now subst.
  - intros Hin. exists k. split; [exact Hin|apply String.eqb_refl].
Qed.

Lemma dict_keys_set (d : list (string * sqlval)) (k : string) (v : sqlval) :
  dict_keys (dict_set d k v) = add_name (dict_keys d) k.
Proof.
  unfold add_name.
  destruct (existsb (String.eqb k) (dict_keys d)) eqn:E.
  - apply existsb_eqb_In in E. unfold dict_keys in *.
    induction d as [|[k' v'] d IH]; simpl in *; [tauto|].
    destruct (String.eqb_spec k' k) as [->|Hne]; [reflexivity|].
    simpl. f_equal. apply IH. destruct E as [E|E]; [congruence|exact E].
  - apply dict_keys_set_new. intros Hin.
    apply existsb_eqb_In in Hin. congruence.
Qed.

Lemma dict_of_row_fold_keys (r : row) (ks : list string) :
  forall d,
    incl ks (map fst r) ->
    dict_keys
      (fold_left (fun d k => match row_getitem r k with
                             | Some v => dict_set d k v
                             | None => d
                             end) ks d)
    = fold_left add_name ks (dict_keys d).
Proof.
  induction ks as [|k ks IH]; intros d Hincl; [reflexivity|].
  cbn [fold_left].
  destruct (row_getitem_key r k) as [v Hv]; [apply Hincl; now left|].
  rewrite Hv, IH, dict_keys_set; [reflexivity|].
  intros x Hx. apply Hincl. now right.
Qed.

(** The keys of [dict(r)] are the distinct names of the row, each at the
    place of its first occurrence. *)
Lemma dict_of_row_distinct (r : row) :
  dict_keys (dict_of_row r) = distinct_names (map fst r).
Proof.
  unfold dict_of_row, distinct_names.
  now rewrite (dict_of_row_fold_keys r (map fst r) [] (incl_refl _)).
Qed.

Lemma add_names_length (l : list string) :
  forall seen, length (fold_left add_name l seen) <= length seen + length l.
Proof.
  induction l as [|k l IH]; intros seen; simpl; [lia|].
  specialize (IH (add_name seen k)). unfold add_name in *.
  destruct (existsb (String.eqb k) seen); [lia|].
  rewrite length_app in IH. simpl in IH. lia.
Qed.

Lemma add_names_distinct (l : list string) :
  forall seen, NoDup (seen ++ l) -> fold_left add_name l seen = (seen ++ l)%list.
Proof.
  induction l as [|k l IH]; intros seen Hnd; simpl; [now rewrite app_nil_r|].
  unfold add_name at 2.
  destruct (existsb (String.eqb k) seen) eqn:E.
  - apply existsb_eqb_In in E. apply NoDup_remove_2 in Hnd.
    elim Hnd. apply in_or_app. now left.
  - rewrite IH; rewrite <- app_assoc; [reflexivity|exact Hnd].
Qed.

Lemma add_names_repeated (l : list string) :
  forall seen,
    NoDup seen -> ~ NoDup (seen ++ l) ->
    length (fold_left add_name l seen) < length seen + length l.
Proof.
  induction l as [|k l IH]; intros seen Hseen Hrep.
  - elim Hrep. now rewrite app_nil_r.
  - cbn [fold_left]. unfold add_name at 2.
    destruct (existsb (String.eqb k) seen) eqn:E.
    + pose proof (add_names_length l seen). simpl. lia.
    + assert (Hnew : ~ In k seen).
      { intros Hin. apply existsb_eqb_In in Hin. congruence. }
      assert (Hseen' : NoDup (seen ++ [k])).
      { apply NoDup_app; [exact Hseen|repeat constructor; intros []|].
        intros x Hx [<-|[]]. now apply Hnew. }
      specialize (IH (seen ++ [k])%list Hseen').
      rewrite <- app_assoc, length_app in IH. simpl in IH |- *.
      specialize (IH Hrep). lia.
Qed.

Lemma map_fst_combine_firstn (names : list string) (values : list sqlval) :
  map fst (combine names values) = firstn (length values) names.
Proof.
  revert values.
  induction names as [|n names IH]; intros [|v values]; simpl;
    try reflexivity.
  now rewrite IH.
Qed.


(** C7.  A statement that the dispatch does not take for a [SELECT] and
    that the engine accepts: when the trimmed text holds a [;] it runs
    through [executescript] and one [commit] after it, and the result is
    [ok] with [rows_affected]; otherwise it runs through [execute] and
    one [commit], and the result is [ok] with [rows_affected] and the
    [lastrowid] of the cursor. *)
Theorem run_sql_mutation (db_path text : string) (db : DB) :
  path_exists eng db db_path = true ->
  sqlite_connect eng db db_path = None ->
  PyStr.strip text <> "" ->
  is_select (PyStr.strip text) = false ->
  (PyStr.contains ";" (PyStr.strip text) = true ->
   forall db1 cur db2,
     sqlite_executescript eng db db_path (PyStr.strip text) = (db1, Val cur) ->
     sqlite_commit eng db1 db_path = (db2, None) ->
     run_sql eng db_path (JStr text) db
     = (db2,
        [OpConnect db_path; OpExecuteScript (PyStr.strip text); OpCommit;
         OpClose],
        Val [("status", RStr "ok");
             ("rows_affected", RInt (cur_rowcount cur))]))
  /\
  (PyStr.contains ";" (PyStr.strip text) = false ->
   forall db1 cur db2,
     sqlite_execute eng db db_path (PyStr.strip text) = (db1, Val cur) ->
     sqlite_commit eng db1 db_path = (db2, None) ->
     run_sql eng db_path (JStr text) db
     = (db2,
        [OpConnect db_path; OpExecute (PyStr.strip text); OpCommit; OpClose],
        Val [("status", RStr "ok");
             ("rows_affected", RInt (cur_rowcount cur));
             ("lastrowid", opt_int (cur_lastrowid cur))])).
Proof.
  intros Hex Hconn Hne Hsel.
  split; intros Hsep db1 cur db2 Hrun Hcommit;
    rewrite (run_sql_connected db_path (JStr text) db Hex Hconn);
    unfold except_sqlite3;
    rewrite (run_sql_body_dispatch db_path text Hne db);
    cbv zeta; rewrite Hsel, Hsep;
    unfold db_bind, executescript, execute, commit, db_ret;
    rewrite Hrun, Hcommit; reflexivity.
Qed.

(** *** Results of a mutation *)

Lemma run_sql_body_blank (db_path text : string) (db : DB) :
  PyStr.strip text = "" ->
  run_sql_body eng db_path (JStr text) db
  = (db, [], Val (error_result "Empty SQL query")).
Proof.
  intros E. unfold run_sql_body, db_bind, stripped_query.
  destruct (truthy (JStr text)); unfold db_ret; simpl; rewrite ?E; reflexivity.
Qed.

(** An [ok] result of a statement that is not a [SELECT] has one of the
    two mutation shapes; neither holds a ["rows"] key. *)
Lemma run_sql_mutation_result (db_path text : string) (db db' : DB)
      (ops : list db_op) (result : qresult) :
  is_select (PyStr.strip text) = false ->
  run_sql eng db_path (JStr text) db = (db', ops, Val result) ->
  status_ok result = true ->
  (exists n, result = [("status", RStr "ok"); ("rows_affected", RInt n)])
  \/ (exists n l, result = [("status", RStr "ok"); ("rows_affected", RInt n);
                            ("lastrowid", l)]).
Proof.
  intros Hsel Hrun Hok.
  destruct (path_exists eng db db_path) eqn:Hex.
  2:{ unfold run_sql, db_bind, os_path_exists in Hrun. rewrite Hex in Hrun.
      simpl in Hrun. inversion Hrun; subst. discriminate. }
  destruct (sqlite_connect eng db db_path) as [e|] eqn:Hconn.
  { rewrite (run_sql_connect_raises db_path _ db e Hex Hconn) in Hrun.
    discriminate. }
  rewrite (run_sql_connected db_path _ db Hex Hconn) in Hrun.
  unfold except_sqlite3 in Hrun.
  destruct (String.eqb_spec (PyStr.strip text) "") as [E|Hne].
  { rewrite (run_sql_body_blank db_path text db E) in Hrun.
    inversion Hrun; subst. discriminate. }
  rewrite (run_sql_body_dispatch db_path text Hne db) in Hrun.
  cbv zeta in Hrun. rewrite Hsel in Hrun.
  unfold db_bind, executescript, execute, commit, db_ret in Hrun.
  destruct (PyStr.contains ";" (PyStr.strip text)).
  - destruct (sqlite_executescript eng db db_path (PyStr.strip text))
      as [db1 [cur|[msg|cls msg]]];
      [destruct (sqlite_commit eng db1 db_path) as [db2 [[msg|cls msg]|]]|..];
      simpl in Hrun; inversion Hrun; subst; try discriminate.
    left. now eexists.
  - destruct (sqlite_execute eng db db_path (PyStr.strip text))
      as [db1 [cur|[msg|cls msg]]];
      [destruct (sqlite_commit eng db1 db_path) as [db2 [[msg|cls msg]|]]|..];
      simpl in Hrun; inversion Hrun; subst; try discriminate.
    right. now do 2 eexists.
Qed.

(** *** What the [except] clause catches *)

(** Once the connection is open, a statement text never makes [run_sql]
    raise as long as the engine raises nothing but [sqlite3.Error]: the
    failure comes back as a result. *)
Lemma run_sql_contains_sqlite3_errors (db_path text : string) (db : DB) :
  sqlite_connect eng db db_path = None ->
  engine_raises_sqlite3_only eng db_path ->
  exists db' ops result,
    run_sql eng db_path (JStr text) db = (db', ops, Val result).
Proof.
  intros Hconn (Hexec & Hscript & Hcommit).
  destruct (path_exists eng db db_path) eqn:Hex.
  2:{ unfold run_sql, db_bind, os_path_exists. rewrite Hex. simpl.
      now do 3 eexists. }
  rewrite (run_sql_connected db_path _ db Hex Hconn). unfold except_sqlite3.
  destruct (String.eqb_spec (PyStr.strip text) "") as [E|Hne].
  { rewrite (run_sql_body_blank db_path text db E). now do 3 eexists. }
  rewrite (run_sql_body_dispatch db_path text Hne db). cbv zeta.
  unfold db_bind, executescript, execute, commit, fetchall, db_ret.
  specialize (Hexec db (PyStr.strip text)).
  specialize (Hscript db (PyStr.strip text)).
  destruct (is_select (PyStr.strip text));
    [|destruct (PyStr.contains ";" (PyStr.strip text))].
  - destruct (sqlite_execute eng db db_path (PyStr.strip text))
      as [db1 [cur|[msg|cls msg]]]; simpl in Hexec; [| |contradiction].
    + destruct (cur_fetchall cur) as [fetched|[msg|cls msg]];
        simpl in Hexec; [| |contradiction]; now do 3 eexists.
    + now do 3 eexists.
  - destruct (sqlite_executescript eng db db_path (PyStr.strip text))
      as [db1 [cur|[msg|cls msg]]]; simpl in Hscript; [| |contradiction].
    + specialize (Hcommit db1).
      destruct (sqlite_commit eng db1 db_path) as [db2 [[msg|cls msg]|]];
        simpl in Hcommit; [|contradiction|]; now do 3 eexists.
    + now do 3 eexists.
  - destruct (sqlite_execute eng db db_path (PyStr.strip text))
      as [db1 [cur|[msg|cls msg]]]; simpl in Hexec; [| |contradiction].
    + specialize (Hcommit db1).
      destruct (sqlite_commit eng db1 db_path) as [db2 [[msg|cls msg]|]];
        simpl in Hcommit; [|contradiction|]; now do 3 eexists.
    + now do 3 eexists.
Qed.

End ExecutorProperties.

(** * Properties of the agent *)

Section AgentProperties.

Variable DB : Type.
Variable eng : engine DB.
Variable py : pylib.
Variable clean_sql_text : string -> string.
Variable provider : nat -> bool -> list message -> presp.
Variable openai_client : res unit.
Variable db_path : string.

Local Abbreviation get_completion' :=
  (get_completion (DB:=DB) provider openai_client).
Local Abbreviation iteration' :=
  (iteration eng py provider openai_client db_path).
Local Abbreviation agent_loop' :=
  (agent_loop eng py provider openai_client db_path).
Local Abbreviation schema_context' :=
  (get_schema_context eng py clean_sql_text db_path).
Local Abbreviation process_message' :=
  (process_message eng py clean_sql_text provider openai_client db_path).

(** *** The schema is read through [sql_paraser.py] only *)

Lemma get_schema_context_locals (s s1 : state DB) (r : res string) :
  schema_context' s = (s1, r) ->
  st_sent s1 = st_sent s /\ st_events s1 = st_events s
  /\ st_messages s1 = st_messages s /\ st_step s1 = st_step s.
Proof.
  unfold get_schema_context, bind, lift_db.
  destruct (list_tables eng clean_sql_text db_path false (st_db s))
    as [[db ops] [[|tables]|e]];
    intros H; inversion H; subst; simpl; auto.
Qed.

Lemma get_schema_context_missing (s : state DB) :
  path_exists eng (st_db s) db_path = false ->
  schema_context' s
  = (State (st_db s) (st_ops s ++ []) (st_sent s) (st_events s)
           (st_messages s) (st_step s), Val "").
Proof.
  intros Hex.
  unfold get_schema_context, bind, lift_db, list_tables, db_bind,
    os_path_exists.
  rewrite Hex. reflexivity.
Qed.

(** C9.  When the database file does not exist, a run yields the one
    event [Error: Could not retrieve schema.] and stops: no provider
    call, no step, no engine call, no conversation. *)
Theorem process_message_missing_database (user_input : string) (db : DB) :
  path_exists eng db db_path = false ->
  process_message' user_input (fresh db)
  = Some (State db [] [] ["Error: Could not retrieve schema."] [] 0, Val tt).
Proof.
  intros Hex.
  unfold process_message, process_message_with.
  rewrite (get_schema_context_missing (fresh db) Hex).
  reflexivity.
Qed.

(** *** One pass through the loop body *)

(** With the client object built, [get_completion] is its loop. *)
Lemma get_completion_built (mode : bool) (s : state DB) :
  openai_client = Val tt ->
  get_completion' mode s
  = get_completion_loop provider (seq 0 max_retries) mode s.
Proof.
  intros H. unfold get_completion, bind, get_client. rewrite H. reflexivity.
Qed.

Section ClientBuilt.

(** The client object can be built. *)
Hypothesis client_built : openai_client = Val tt.

(** The first attempt of [get_completion] gets an answer. *)
Lemma get_completion_first (s : state DB) (content : option string) :
  provider (st_calls s) true (st_messages s) = PContent content ->
  get_completion' true s
  = (State (st_db s) (st_ops s) (st_sent s ++ [st_messages s]) (st_events s)
           (st_messages s) (st_step s), Val content).
Proof.
  intros H. rewrite (get_completion_built true s client_built). simpl.
  unfold bind, call_provider. rewrite H. reflexivity.
Qed.

Lemma iteration_malformed (s : state DB) (text : string) :
  provider (st_calls s) true (st_messages s) = PContent (Some text) ->
  json_loads py text = LoadsDecodeError ->
  iteration' s
  = (State (st_db s) (st_ops s) (st_sent s ++ [st_messages s])
           (st_events s ++ [parse_failure_event text])
           (st_messages s ++ [invalid_json_message]) (S (st_step s)),
     Val Continue).
Proof.
  intros Hp Hj. unfold iteration, bind at 1, incr_step.
  unfold bind at 1.
  rewrite (get_completion_first
             (State (st_db s) (st_ops s) (st_sent s) (st_events s)
                    (st_messages s) (S (st_step s))) (Some text) Hp).
  rewrite Hj. reflexivity.
Qed.

Lemma agent_loop_malformed (k : nat) :
  always_malformed py provider ->
  forall (s : state DB) (fuel : nat),
    st_step s + k = max_steps ->
    k < fuel ->
    exists s' texts,
      agent_loop' fuel s = Some (s', Val tt)
      /\ st_step s' = max_steps
      /\ st_calls s' = st_calls s + k
      /\ length texts = k
      /\ st_events s'
         = (st_events s ++ map parse_failure_event texts ++ [step_limit_event])%list.
Proof.
  intros Hbad. induction k as [|k IH]; intros s fuel Hstep Hfuel.
  - destruct fuel as [|fuel]; [lia|].
    exists (fst (after_loop s)), []. simpl.
    assert (Hlt : (st_step s <? max_steps)%nat = false) by (apply Nat.ltb_ge; lia).
    rewrite Hlt. unfold after_loop.
    assert (Hle : (max_steps <=? st_step s)%nat = true) by (apply Nat.leb_le; lia).
    rewrite Hle. simpl. repeat split; try lia.
    unfold st_calls. simpl. lia.
  - destruct fuel as [|fuel]; [lia|].
    destruct (Hbad (st_calls s) true (st_messages s)) as (text & Hp & Hj).
    simpl.
    assert (Hlt : (st_step s <? max_steps)%nat = true) by (apply Nat.ltb_lt; lia).
    rewrite Hlt, (iteration_malformed s text Hp Hj).
    edestruct IH as (s' & texts & Hrun & Hs & Hc & Hl & He);
      [|shelve|exists s', (text :: texts); rewrite Hrun; repeat split].
    + simpl. lia.
    + exact Hs.
    + rewrite Hc. unfold st_calls. simpl. rewrite length_app. simpl. lia.
    + simpl. lia.
    + rewrite He. simpl. rewrite <- app_assoc. reflexivity.
    Unshelve. lia.
Qed.


Lemma iteration_answer (s : state DB) (text : string)
      (fields : list (string * json)) :
  provider (st_calls s) true (st_messages s) = PContent (Some text) ->
  json_loads py text = LoadsOk (JObj fields) ->
  json_get fields "type" = JStr "answer" ->
  iteration' s
  = (State (st_db s) (st_ops s) (st_sent s ++ [st_messages s])
           (st_events s ++ thought_events py fields
            ++ ["Final Answer: " ++ py_str py (json_get fields "content")])
           (st_messages s) (S (st_step s)),
     Val Return).
Proof.
  intros Hp Hj Htype. unfold iteration, bind at 1, incr_step.
  unfold bind at 1.
  rewrite (get_completion_first
             (State (st_db s) (st_ops s) (st_sent s) (st_events s)
                    (st_messages s) (S (st_step s))) (Some text) Hp).
  rewrite Hj. unfold dispatch, thought_events. rewrite Htype.
  destruct (truthy (json_get fields "thought")); simpl;
    unfold bind, emit, ret; simpl; rewrite <- ?app_assoc; reflexivity.
Qed.

(** C2.  With a schema at hand, when the provider's first answer parses
    to an object whose [type] is [answer] and whose [content] is the text
    [X], the run ends in its first pass through the loop body: its last
    event is [Final Answer: X] (its only event when the object carries no
    thought), one provider call was made, and the engine was not called
    after the schema was read. *)
Theorem answer_on_first_step
        (user_input : string) (db : DB) (s1 : state DB) (schema text X : string)
        (fields : list (string * json)) :
  schema_context' (fresh db) = (s1, Val schema) ->
  schema <> "" ->
  provider 0 true [Msg System (system_prompt schema); Msg User user_input]
  = PContent (Some text) ->
  json_loads py text = LoadsOk (JObj fields) ->
  json_get fields "type" = JStr "answer" ->
  json_get fields "content" = JStr X ->
  exists s',
    process_message' user_input (fresh db) = Some (s', Val tt)
    /\ last (st_events s') "" = "Final Answer: " ++ X
    /\ (truthy (json_get fields "thought") = false ->
        st_events s' = ["Final Answer: " ++ X])
    /\ st_step s' = 1
    /\ st_calls s' = 1
    /\ st_ops s' = st_ops s1
    /\ st_db s' = st_db s1.
Proof.
  intros Hschema Hne Hp Hj Htype Hcontent.
  destruct (get_schema_context_locals (fresh db) s1 (Val schema) Hschema)
    as (Hsent & Hev & _ & _).
  destruct s1 as [db1 ops1 sent1 events1 messages1 step1].
  simpl in Hsent, Hev. subst sent1 events1.
  unfold process_message, process_message_with. rewrite Hschema.
  destruct (String.eqb_spec schema "") as [E|_]; [contradiction|].
  unfold start_conversation.
  cbn [fst agent_loop st_step st_db st_ops st_sent st_events max_steps
       Nat.ltb Nat.leb].
  rewrite (iteration_answer
             (State db1 ops1 [] []
                    [Msg System (system_prompt schema); Msg User user_input] 0)
             text fields Hp Hj Htype).
  rewrite Hcontent. cbn [py_str].
  eexists; split; [reflexivity|]. cbn [st_events st_step st_ops st_db app].
  repeat split.
  - apply last_last.
  - intros Hth. unfold thought_events. rewrite Hth. reflexivity.
Qed.

End ClientBuilt.

(** *** Properties kept by every command *)

Lemma preserves_ret (P : state DB -> Prop) {A : Type} (a : A) :
  preserves P (ret a).
Proof. intros s H. exact H. Qed.

Lemma preserves_raise (P : state DB -> Prop) {A : Type} (e : exn) :
  preserves P (raise (A:=A) e).
Proof. intros s H. exact H. Qed.

Lemma preserves_bind (P : state DB -> Prop) {A B : Type}
      (m : eff DB A) (k : A -> eff DB B) :
  preserves P m -> (forall a, preserves P (k a)) -> preserves P (bind m k).
Proof.
  intros Hm Hk s H. unfold bind.
  specialize (Hm s H). destruct (m s) as [s1 [a|e]]; simpl in *.
  - now apply Hk.
  - exact Hm.
Qed.

(** Splits a command along its binds, tests and matches, and closes the
    leaves with the hints of the database given. *)
Ltac preserve_with db :=
  repeat first
    [ apply preserves_ret
    | apply preserves_raise
    | solve [eauto with db]
    | apply preserves_bind; [|intros ?]
    | match goal with
      | |- preserves _ (if ?b then _ else _) => destruct b
      | |- preserves _ (match ?x with _ => _ end) => destruct x
      end ].

(** *** The step counter *)

Create HintDb step_db.

Lemma at_step_emit (n : nat) (text : string) : preserves (DB:=DB) (at_step n) (emit text).
Proof. intros s H. exact H. Qed.

Lemma at_step_append (n : nat) (m : message) :
  preserves (DB:=DB) (at_step n) (append_message m).
Proof. intros s H. exact H. Qed.

Lemma at_step_lift_db (n : nat) {A : Type} (m : dbm DB A) :
  preserves (DB:=DB) (at_step n) (lift_db m).
Proof.
  intros s H. unfold lift_db. destruct (m (st_db s)) as [[db ops] r]. exact H.
Qed.

Lemma at_step_call_provider (n : nat) (mode : bool) :
  preserves (DB:=DB) (at_step n) (call_provider provider mode).
Proof. intros s H. exact H. Qed.

Lemma at_step_last_message (n : nat) : preserves (DB:=DB) (at_step n) (last_message (DB:=DB)).
Proof.
  intros s H. unfold last_message. destruct (rev (st_messages s)); exact H.
Qed.

Lemma at_step_get_client (n : nat) :
  preserves (DB:=DB) (at_step n) (get_client openai_client).
Proof. intros s H. exact H. Qed.

#[local] Hint Resolve at_step_emit at_step_append at_step_lift_db
  at_step_call_provider at_step_last_message at_step_get_client : step_db.

Lemma at_step_get_completion_loop (n : nat) (mode : bool) (attempts : list nat) :
  preserves (DB:=DB) (at_step n) (get_completion_loop provider attempts mode).
Proof.
  induction attempts as [|attempt rest IH]; simpl; preserve_with step_db.
Qed.

#[local] Hint Resolve at_step_get_completion_loop : step_db.

Lemma at_step_dispatch (n : nat) (text : string) (parsed : json) :
  preserves (DB:=DB) (at_step n) (dispatch eng py db_path text parsed).
Proof.
  unfold dispatch, sql_branch. preserve_with step_db.
Qed.

#[local] Hint Resolve at_step_dispatch : step_db.

(** Every pass through the loop body advances [step] by one, however the
    pass ends. *)
Lemma iteration_step (s : state DB) :
  st_step (fst (iteration' s)) = S (st_step s).
Proof.
  unfold iteration, bind at 1, incr_step.
  match goal with
  | |- st_step (fst (?m ?s1)) = _ =>
      assert (H : preserves (DB:=DB) (at_step (S (st_step s))) m)
  end.
  { unfold get_completion. preserve_with step_db. }
  apply H. reflexivity.
Qed.

(** The loop needs no more passes through its test than steps are left,
    and one more. *)
Lemma agent_loop_total (fuel : nat) :
  forall s : state DB,
    max_steps - st_step s < fuel ->
    exists o, agent_loop' fuel s = Some o.
Proof.
  induction fuel as [|fuel IH]; intros s Hfuel; [lia|].
  simpl. destruct (st_step s <? max_steps)%nat eqn:Hlt; [|now eexists].
  apply Nat.ltb_lt in Hlt.
  pose proof (iteration_step s) as Hstep.
  destruct (iteration' s) as [s' [[|]|e]]; simpl in Hstep; try now eexists.
  apply IH. lia.
Qed.

(** [process_message] always comes to an end: the fuel of the model is
    never used up. *)
Lemma process_message_total (user_input : string) (s : state DB) :
  exists o, process_message' user_input s = Some o.
Proof.
  unfold process_message, process_message_with.
  destruct (schema_context' s) as [s1 [schema|e]]; [|now eexists].
  destruct (String.eqb schema ""); [now eexists|].
  apply agent_loop_total. simpl. unfold max_steps. lia.
Qed.

(** *** The retries of [get_completion] *)

Section Retries.

Hypothesis client_built : openai_client = Val tt.

Lemma reminded_not_empty (description : string) (messages : list message) :
  messages <> [] -> reminded description messages <> [].
Proof.
  intros H. unfold reminded.
  destruct (is_format_failure description); [|exact H].
  destruct (rev messages) as [|m tl]; [exact H|].
  destruct (negb (role_eqb (msg_role m) System)); [|exact H].
  intros E. now apply app_eq_nil in E.
Qed.

(** A failed attempt that is not the last is followed by the next one,
    whatever the failure was. *)
Lemma get_completion_loop_retry (attempt : nat) (rest : list nat) (mode : bool)
      (s : state DB) (description : string) :
  attempt < max_retries - 1 ->
  st_messages s <> [] ->
  provider (st_calls s) mode (st_messages s) = PFail description ->
  get_completion_loop provider (attempt :: rest) mode s
  = get_completion_loop provider rest mode
      (after_calls s [st_messages s] (reminded description (st_messages s))).
Proof.
  intros Hlt Hne Hp. cbn [get_completion_loop].
  unfold bind at 1, call_provider. rewrite Hp.
  assert (Hlt' : (attempt <? max_retries - 1)%nat = true) by now apply Nat.ltb_lt.
  assert (Hneq : (attempt =? max_retries - 1)%nat = false) by (apply Nat.eqb_neq; lia).
  rewrite Hlt', Hneq, andb_true_r. unfold reminded, after_calls.
  destruct (is_format_failure description); [|reflexivity].
  unfold bind, last_message. simpl.
  destruct (rev (st_messages s)) as [|m tl] eqn:Hrev.
  - exfalso. apply Hne. apply (f_equal (@rev message)) in Hrev.
    now rewrite rev_involutive in Hrev.
  - destruct (role_eqb (msg_role m) System); reflexivity.
Qed.

(** The last attempt: its content, or the empty string when it fails. *)
Lemma get_completion_loop_last (mode : bool) (s : state DB) :
  get_completion_loop provider [max_retries - 1] mode s
  = (after_calls s [st_messages s] (st_messages s),
     match provider (st_calls s) mode (st_messages s) with
     | PContent content => Val content
     | PFail _ => Val (Some "")
     end).
Proof.
  cbn [get_completion_loop]. unfold bind, call_provider.
  destruct (provider (st_calls s) mode (st_messages s)) as [content|d].
  - reflexivity.
  - rewrite Nat.ltb_irrefl, Nat.eqb_refl, andb_false_r. reflexivity.
Qed.

(** C4, as the code has it.  [get_completion] makes up to three attempts.
    Whatever a failure says, a failed first or second attempt is followed
    by another attempt; the format marker only decides whether the JSON
    reminder is appended first.  The content of the first attempt that
    succeeds is returned, and the empty string after a third failure. *)
Theorem get_completion_attempts (mode : bool) (s : state DB) :
  st_messages s <> [] ->
  let n := st_calls s in
  let m0 := st_messages s in
  match provider n mode m0 with
  | PContent content =>
      get_completion' mode s = (after_calls s [m0] m0, Val content)
  | PFail d0 =>
      let m1 := reminded d0 m0 in
      match provider (S n) mode m1 with
      | PContent content =>
          get_completion' mode s = (after_calls s [m0; m1] m1, Val content)
      | PFail d1 =>
          let m2 := reminded d1 m1 in
          match provider (S (S n)) mode m2 with
          | PContent content =>
              get_completion' mode s
              = (after_calls s [m0; m1; m2] m2, Val content)
          | PFail _ =>
              get_completion' mode s
              = (after_calls s [m0; m1; m2] m2, Val (Some ""))
          end
      end
  end.
Proof.
  intros Hne n m0. cbv zeta.
  rewrite (get_completion_built mode s client_built).
  change (seq 0 max_retries) with [0; 1; 2].
  destruct (provider n mode m0) as [content|d0] eqn:H0.
  { cbn [get_completion_loop]. unfold bind at 1, call_provider.
    fold n m0. rewrite H0. reflexivity. }
  rewrite (get_completion_loop_retry 0 [1; 2] mode s d0); [|unfold max_retries; lia|exact Hne|exact H0].
  fold m0. set (m1 := reminded d0 m0).
  set (s1 := after_calls s [m0] m1).
  assert (Hc1 : st_calls s1 = S n).
  { unfold s1, after_calls, st_calls. simpl. rewrite length_app. simpl. fold (st_calls s). lia. }
  assert (Hne1 : st_messages s1 <> []) by (apply reminded_not_empty; exact Hne).
  destruct (provider (S n) mode m1) as [content|d1] eqn:H1.
  { cbn [get_completion_loop]. unfold bind at 1, call_provider.
    rewrite Hc1. change (st_messages s1) with m1. rewrite H1.
    unfold ret, s1, after_calls. simpl. rewrite <- app_assoc. reflexivity. }
  rewrite (get_completion_loop_retry 1 [2] mode s1 d1);
    [|unfold max_retries; lia|exact Hne1|rewrite Hc1; exact H1].
  change (st_messages s1) with m1. set (m2 := reminded d1 m1).
  set (s2 := after_calls s1 [m1] m2).
  assert (Hc2 : st_calls s2 = S (S n)).
  { unfold s2, after_calls, st_calls. simpl. rewrite !length_app. simpl. fold (st_calls s). lia. }
  change [2] with [max_retries - 1].
  rewrite (get_completion_loop_last mode s2), Hc2.
  change (st_messages s2) with m2.
  destruct (provider (S (S n)) mode m2) as [content|d2];
    unfold s2, s1, after_calls; simpl; rewrite <- !app_assoc; reflexivity.
Qed.

End Retries.

(** *** The conversation invariant *)

Lemma linked_app (l l' : list message) :
  forall prev,
    linked prev (l ++ l') = linked prev l && linked (final_role prev l) l'.
Proof.
  induction l as [|m l IH]; intros prev; simpl; [reflexivity|].
  now rewrite IH, andb_assoc.
Qed.

Lemma final_role_app (l l' : list message) :
  forall prev, final_role prev (l ++ l') = final_role (final_role prev l) l'.
Proof.
  induction l as [|m l IH]; intros prev; simpl; [reflexivity|apply IH].
Qed.

(** [messages[-1]] has the role [final_role] computes. *)
Lemma final_role_rev (l tl : list message) (m : message) (prev : role) :
  rev l = m :: tl -> final_role prev l = msg_role m.
Proof.
  intros H. apply (f_equal (@rev message)) in H.
  rewrite rev_involutive in H. subst l. simpl.
  now rewrite final_role_app.
Qed.

(** Appending to a well-formed conversation. *)
Lemma conversation_ok_app (l l' : list message) :
  conversation_ok l = true ->
  linked (final_role System l) l' = true ->
  final_role (final_role System l) l' <> Assistant ->
  conversation_ok (l ++ l') = true.
Proof.
  destruct l as [|m0 [|m1 rest]]; try discriminate.
  simpl. intros H Hl Hf.
  apply andb_true_iff in H as [H _].
  apply andb_true_iff in H as [H Hrest].
  apply andb_true_iff in H as [H0 H1].
  rewrite H0, H1, linked_app, final_role_app, Hrest. simpl.
  assert (E : msg_role m1 = User) by (destruct (msg_role m1); now try discriminate).
  rewrite E in Hl, Hf. rewrite Hl. simpl.
  destruct (final_role (final_role User rest) l'); now try reflexivity.
Qed.

Lemma conversation_ok_last (l : list message) :
  conversation_ok l = true -> final_role System l <> Assistant.
Proof.
  destruct l as [|m0 [|m1 rest]]; try discriminate.
  simpl. intros H.
  apply andb_true_iff in H as [H Hf].
  apply andb_true_iff in H as [H _].
  apply andb_true_iff in H as [_ H1].
  assert (E : msg_role m1 = User) by (destruct (msg_role m1); now try discriminate).
  rewrite E. destruct (final_role User rest); now try discriminate.
Qed.

Lemma conversation_ok_repair (l : list message) (m : message) :
  conversation_ok l = true ->
  msg_role m = User -> is_repair m = true ->
  conversation_ok (l ++ [m]) = true.
Proof.
  intros H Hr Hm. pose proof (conversation_ok_last l H) as Hlast.
  apply conversation_ok_app; [exact H| |simpl; now rewrite Hr].
  simpl. unfold may_follow. rewrite Hr, Hm.
  destruct (final_role System l); now try reflexivity.
Qed.

Lemma conversation_ok_exchange (l : list message) (a u : string) :
  conversation_ok l = true ->
  conversation_ok (l ++ [Msg Assistant a; Msg User u]) = true.
Proof.
  intros H. pose proof (conversation_ok_last l H) as Hlast.
  apply conversation_ok_app; [exact H| |simpl; discriminate].
  simpl. destruct (final_role System l); now try reflexivity.
Qed.

Lemma conversation_ok_reminder (l tl : list message) (m : message) :
  conversation_ok l = true ->
  rev l = m :: tl ->
  role_eqb (msg_role m) System = false ->
  conversation_ok (l ++ [json_reminder]) = true.
Proof.
  intros H Hrev Hm. pose proof (conversation_ok_last l H) as Hlast.
  apply conversation_ok_app; [exact H| |simpl; discriminate].
  rewrite (final_role_rev l tl m System Hrev) in *.
  destruct (msg_role m); try discriminate; [reflexivity|now elim Hlast].
Qed.

Create HintDb conv_db.

Lemma conv_inv_emit (text : string) : preserves (DB:=DB) conv_inv (emit text).
Proof. intros s H. exact H. Qed.

Lemma conv_inv_lift_db {A : Type} (m : dbm DB A) : preserves (DB:=DB) conv_inv (lift_db m).
Proof.
  intros s H. unfold lift_db. destruct (m (st_db s)) as [[db ops] r]. exact H.
Qed.

Lemma conv_inv_repair (m : message) :
  msg_role m = User -> is_repair m = true ->
  preserves (DB:=DB) conv_inv (append_message m).
Proof.
  intros Hr Hm s [Hsent Hmsgs]. split; [exact Hsent|].
  simpl. now apply conversation_ok_repair.
Qed.

Lemma conv_inv_exchange {A : Type} (a u : string) (c : A) :
  preserves (DB:=DB) conv_inv
    (bind (append_message (Msg Assistant a))
          (fun _ => bind (append_message (Msg User u)) (fun _ => ret c))).
Proof.
  intros s [Hsent Hmsgs]. split; [exact Hsent|].
  simpl. rewrite <- app_assoc. now apply conversation_ok_exchange.
Qed.

Lemma conv_inv_invalid_json : preserves (DB:=DB) conv_inv (append_message invalid_json_message).
Proof. now apply conv_inv_repair. Qed.

Lemma conv_inv_unknown_type : preserves (DB:=DB) conv_inv (append_message unknown_type_message).
Proof. now apply conv_inv_repair. Qed.

#[local] Hint Resolve conv_inv_emit conv_inv_lift_db conv_inv_exchange
  conv_inv_invalid_json conv_inv_unknown_type : conv_db.

Lemma conv_inv_get_completion_loop (mode : bool) (attempts : list nat) :
  preserves (DB:=DB) conv_inv (get_completion_loop provider attempts mode).
Proof.
  induction attempts as [|attempt rest IH]; intros s Hs; [exact Hs|].
  cbn [get_completion_loop]. unfold bind, call_provider.
  assert (Hcalled : conv_inv (after_calls s [st_messages s] (st_messages s))).
  { destruct Hs as [Hsent Hmsgs]. split; [|exact Hmsgs].
    simpl. apply Forall_app. split; [exact Hsent|now constructor]. }
  fold (after_calls s [st_messages s] (st_messages s)).
  destruct (provider (st_calls s) mode (st_messages s)) as [content|d];
    [exact Hcalled|].
  destruct (is_format_failure d && (attempt <? max_retries - 1)%nat).
  - unfold last_message. simpl st_messages.
    destruct (rev (st_messages s)) as [|m tl] eqn:Hrev; [exact Hcalled|].
    destruct (role_eqb (msg_role m) System) eqn:Hm; simpl.
    + apply IH. exact Hcalled.
    + apply IH. destruct Hcalled as [Hsent Hmsgs]. split; [exact Hsent|].
      simpl. now apply (conversation_ok_reminder (st_messages s) tl m).
  - destruct (attempt =? max_retries - 1)%nat; [exact Hcalled|].
    apply IH. exact Hcalled.
Qed.

Lemma conv_inv_get_completion (mode : bool) :
  preserves (DB:=DB) conv_inv (get_completion' mode).
Proof.
  unfold get_completion. apply preserves_bind.
  - intros s H. exact H.
  - intros _. apply conv_inv_get_completion_loop.
Qed.

Lemma conv_inv_incr_step : preserves (DB:=DB) conv_inv (incr_step (DB:=DB)).
Proof. intros s H. exact H. Qed.

#[local] Hint Resolve conv_inv_get_completion conv_inv_incr_step : conv_db.

Lemma conv_inv_iteration : preserves (DB:=DB) conv_inv iteration'.
Proof.
  unfold iteration, dispatch, sql_branch. preserve_with conv_db.
Qed.

Lemma conv_inv_agent_loop (fuel : nat) :
  forall (s s' : state DB) (r : res unit),
    conv_inv s -> agent_loop' fuel s = Some (s', r) -> conv_inv s'.
Proof.
  induction fuel as [|fuel IH]; intros s s' r Hs Hrun; [discriminate|].
  simpl in Hrun. destruct (st_step s <? max_steps)%nat.
  - pose proof (conv_inv_iteration s Hs) as Hit.
    destruct (iteration' s) as [s1 [[|]|e]]; simpl in Hit.
    + now apply (IH s1 s' r).
    + inversion Hrun; now subst.
    + inversion Hrun; now subst.
  - unfold after_loop in Hrun.
    destruct (max_steps <=? st_step s)%nat; inversion Hrun; now subst.
Qed.

(** C5, as the code has it.  In every run, each conversation sent to the
    provider and the conversation the run ends with are well formed in the
    sense of [conversation_ok]: the system prompt, the user's input, and
    then assistant messages each followed by a user message, JSON reminders
    (role [system], appended by [get_completion]) each right after a user
    message, and repair messages. *)
Theorem conversation_invariant (user_input : string) (db : DB) :
  exists s' r,
    process_message' user_input (fresh db) = Some (s', r)
    /\ Forall (fun c => conversation_ok c = true) (st_sent s')
    /\ (st_messages s' = [] \/ conversation_ok (st_messages s') = true).
Proof.
  destruct (process_message_total user_input (fresh db)) as [[s' r] Hrun].
  exists s', r. split; [exact Hrun|].
  unfold process_message, process_message_with in Hrun.
  destruct (schema_context' (fresh db)) as [s1 r1] eqn:Hschema.
  destruct (get_schema_context_locals (fresh db) s1 r1 Hschema)
    as (Hsent & _ & Hmsgs & _).
  simpl in Hsent, Hmsgs.
  destruct r1 as [schema|e].
  - destruct (String.eqb schema "").
    + inversion Hrun; subst. simpl. rewrite Hsent, Hmsgs. split; [constructor|now left].
    + apply conv_inv_agent_loop in Hrun.
      * destruct Hrun as [H1 H2]. split; [exact H1|now right].
      * split; simpl; [rewrite Hsent; constructor|reflexivity].
  - inversion Hrun; subst. rewrite Hsent, Hmsgs. split; [constructor|now left].
Qed.

(** *** Query results fed back *)

(** A pass in which the provider asks for a query and [run_sql] reports
    [ok]. *)
Lemma iteration_sql_ok (s s1 : state DB) (text : string)
      (fields : list (string * json)) (db' : DB) (ops : list db_op)
      (result : qresult) :
  get_completion' true (fst (incr_step s)) = (s1, Val (Some text)) ->
  json_loads py text = LoadsOk (JObj fields) ->
  json_get fields "type" = JStr "sql" ->
  run_sql eng db_path (json_get fields "sql") (st_db s1) = (db', ops, Val result) ->
  status_ok result = true ->
  iteration' s
  = (State db' (st_ops s1 ++ ops) (st_sent s1)
           (st_events s1 ++ thought_events py fields
            ++ ["Executing SQL: " ++ py_str py (json_get fields "sql");
                "SQL Result ("
                ++ PyStr.str_of_nat (length (result_rows result)) ++ " rows)"])
           (st_messages s1
            ++ [Msg Assistant text;
                Msg User (result_message py (result_rows result))])
           (st_step s1),
     Val Continue).
Proof.
  intros Hc Hj Htype Hrun Hok.
  unfold iteration, bind at 1. destruct (incr_step s) as [s0 [[]|e]] eqn:Hincr;
    [|discriminate].
  simpl in Hc. unfold bind at 1. rewrite Hc, Hj.
  unfold dispatch, thought_events. rewrite Htype.
  change (json_is (JStr "sql") "sql") with true. cbv iota.
  unfold sql_branch.
  destruct (truthy (json_get fields "thought"));
    unfold bind, emit, ret, lift_db, append_message; simpl;
    rewrite Hrun, Hok; simpl; rewrite <- !app_assoc; reflexivity.
Qed.

Lemma last_of_two (l : list string) (a b : string) :
  last (l ++ [a; b]) "" = b.
Proof.
  change [a; b] with ([a] ++ [b])%list. rewrite app_assoc. apply last_last.
Qed.

(** C8.  When the query of a pass returns [ok] with more than ten rows,
    the next user message states the true row count and carries the
    serialisation of the first ten rows and of no other, and the
    [SQL Result] event carries the true row count. *)
Theorem large_result_preview (s s1 : state DB) (text : string)
        (fields : list (string * json)) (db' : DB) (ops : list db_op)
        (result : qresult) :
  get_completion' true (fst (incr_step s)) = (s1, Val (Some text)) ->
  json_loads py text = LoadsOk (JObj fields) ->
  json_get fields "type" = JStr "sql" ->
  run_sql eng db_path (json_get fields "sql") (st_db s1) = (db', ops, Val result) ->
  status_ok result = true ->
  10 < length (result_rows result) ->
  exists s',
    iteration' s = (s', Val Continue)
    /\ st_messages s'
       = (st_messages s1
          ++ [Msg Assistant text;
              Msg User
                ("Query returned "
                 ++ PyStr.str_of_nat (length (result_rows result))
                 ++ " rows. This is too many to show. Here are the first 10 rows:"
                 ++ PyStr.nl
                 ++ json_dumps_rows py (firstn 10 (result_rows result))
                 ++ PyStr.nl ++ PyStr.nl
                 ++ "Please refine your query if you need more specific data, or use this sample to answer.")])%list
    /\ length (firstn 10 (result_rows result)) = 10
    /\ last (st_events s') ""
       = "SQL Result (" ++ PyStr.str_of_nat (length (result_rows result))
         ++ " rows)".
Proof.
  intros Hc Hj Htype Hrun Hok Hlen.
  eexists. split; [apply (iteration_sql_ok s s1 text fields db' ops result); assumption|].
  cbn [st_messages st_events]. repeat split.
  - unfold result_message.
    assert (E : (MAX_PREVIEW_ROWS <? length (result_rows result))%nat = true)
      by (apply Nat.ltb_lt; exact Hlen).
    rewrite E. reflexivity.
  - apply firstn_length_le. lia.
  - rewrite app_assoc. apply last_of_two.
Qed.

(** C10.  A statement that is not a [SELECT] and succeeds gives a result
    without a ["rows"] key, and the loop reports it as an empty read: the
    event [SQL Result (0 rows)], and the user message [Query returned 0
    rows:] followed by the empty list. *)
Theorem mutation_reported_as_empty_read (s s1 : state DB) (text q : string)
        (fields : list (string * json)) (db' : DB) (ops : list db_op)
        (result : qresult) :
  get_completion' true (fst (incr_step s)) = (s1, Val (Some text)) ->
  json_loads py text = LoadsOk (JObj fields) ->
  json_get fields "type" = JStr "sql" ->
  json_get fields "sql" = JStr q ->
  is_select (PyStr.strip q) = false ->
  run_sql eng db_path (JStr q) (st_db s1) = (db', ops, Val result) ->
  status_ok result = true ->
  dict_get result "rows" = None
  /\ exists s',
      iteration' s = (s', Val Continue)
      /\ last (st_events s') "" = "SQL Result (0 rows)"
      /\ st_messages s'
         = (st_messages s1
            ++ [Msg Assistant text;
                Msg User ("Query returned 0 rows:" ++ PyStr.nl ++ "[]")])%list.
Proof.
  intros Hc Hj Htype Hsql Hsel Hrun Hok.
  assert (Hrows : dict_get result "rows" = None).
  { destruct (run_sql_mutation_result DB eng db_path q (st_db s1) db' ops result
                Hsel Hrun Hok) as [[n ->]|(n & l & ->)]; reflexivity. }
  split; [exact Hrows|].
  rewrite <- Hsql in Hrun.
  eexists. split; [apply (iteration_sql_ok s s1 text fields db' ops result); assumption|].
  cbn [st_messages st_events]. unfold result_rows. rewrite Hrows. split.
  - rewrite app_assoc. apply last_of_two.
  - reflexivity.
Qed.

End AgentProperties.

(** * The properties on the concrete world *)

(** C3: the database path is the directory ["."].  [os.path.exists] holds,
    [sqlite3.connect] raises, and the exception leaves [run_sql]: the call
    sits before the [try]. *)
Theorem run_sql_raises_on_unopenable_path :
  run_sql Demo.sqlite "." (JStr "SELECT 1") 3
  = (3, [OpConnect "."], Exc (Sqlite3Error "unable to open database file")).
Proof. reflexivity. Qed.

(** An invalid statement on a database that opens is reported, not raised. *)
Example run_sql_reports_syntax_error :
  run_sql Demo.sqlite Demo.db_file (JStr "  SELEC  ") 3
  = (3, [OpConnect Demo.db_file; OpExecute "SELEC"; OpClose],
     Val [("status", RStr "error");
          ("error", RStr "near the statement: syntax error")]).
Proof. reflexivity. Qed.


(** What the run does on that reply. *)
Example process_message_deep_reply :
  process_message Demo.sqlite DemoMore.deep_python Demo.clean DemoMore.nests
                  (Val tt) Demo.db_file "hi" (fresh 3)
  = Some (State 3 (st_ops (DemoMore.schema_read 3))
                [[Msg System (system_prompt DemoMore.schema_text);
                  Msg User "hi"]] []
                [Msg System (system_prompt DemoMore.schema_text);
                 Msg User "hi"] 1,
          Exc DemoMore.recursion_error).
Proof. vm_compute. reflexivity. Qed.


(** A provider that answers at once ends the run in one step. *)
Lemma answer_on_first_step_witness :
  exists s',
    process_message Demo.sqlite Demo.python Demo.clean (Demo.answers "42")
                    (Val tt) Demo.db_file "How many rows are there?" (fresh 3)
    = Some (s', Val tt)
    /\ last (st_events s') "" = "Final Answer: 42"
    /\ st_events s' = ["Final Answer: 42"]
    /\ st_step s' = 1
    /\ st_calls s' = 1
    /\ st_ops s'
       = [OpConnect Demo.db_file; OpExecute master_query; OpFetchall; OpClose]
    /\ st_db s' = 3.
Proof.
  destruct (answer_on_first_step nat Demo.sqlite Demo.python Demo.clean
              (Demo.answers "42") (Val tt) Demo.db_file eq_refl
              "How many rows are there?" 3
              (State 3 [OpConnect Demo.db_file; OpExecute master_query;
                        OpFetchall; OpClose] [] [] [] 0)
              ("Table: t" ++ PyStr.nl ++ "CREATE TABLE t (a INTEGER)"
               ++ PyStr.nl ++ PyStr.nl)
              (Demo.answer_text "42") "42"
              [("type", JStr "answer"); ("content", JStr "42")])
    as (s' & Hrun & Hlast & Honly & Hstep & Hcalls & Hops & Hdb);
    try reflexivity; try discriminate.
  exists s'. repeat split; try assumption.
  apply Honly. reflexivity.
Defined.

(** C4 as stated fails: a network failure carries no format marker, and
    yet the provider is called a second time and its answer returned. *)
Lemma no_local_retry_counterexample :
  ~ spec_no_local_retry (Demo.fails_once "Connection error.").
Proof.
  intros H.
  destruct (H nat (demo_state 3) true "Connection error.") as [Hret _];
    [reflexivity|reflexivity|].
  discriminate Hret.
Qed.

(** A network failure on the first attempt, an answer on the second. *)
Lemma get_completion_attempts_witness :
  get_completion (Demo.fails_once "Connection error.") (Val tt) true
                 (demo_state 3)
  = (after_calls (demo_state 3)
                 [st_messages (demo_state 3); st_messages (demo_state 3)]
                 (st_messages (demo_state 3)),
     Val (Some (Demo.answer_text "42"))).
Proof.
  apply (get_completion_attempts nat (Demo.fails_once "Connection error.")
                                 (Val tt) eq_refl true (demo_state 3)).
  discriminate.
Defined.

(** C5 as stated fails: after a failure with a format marker the
    conversation holds a second system message. *)
Lemma spec_conversation_counterexample :
  exists s',
    process_message Demo.sqlite Demo.python Demo.clean
                    (Demo.fails_once "Error code: 400") (Val tt) Demo.db_file
                    "hi" (fresh 3)
    = Some (s', Val tt)
    /\ map msg_role (st_messages s') = [System; User; System]
    /\ spec_conversation_ok (st_messages s') = false.
Proof.
  eexists. split; [vm_compute; reflexivity|]. split; reflexivity.
Qed.


(** The statement without a blank runs through [execute] and [commit]. *)
Example run_sql_select_star :
  run_sql DemoMore.star_sqlite Demo.db_file (JStr DemoMore.select_star) 3
  = (3, [OpConnect Demo.db_file; OpExecute DemoMore.select_star; OpCommit;
         OpClose],
     Val [("status", RStr "ok"); ("rows_affected", RInt (-1));
          ("lastrowid", RInt 0)]).
Proof. reflexivity. Qed.


(** A script of two inserts, and a single insert. *)
Lemma run_sql_mutation_witness :
  run_sql Demo.sqlite Demo.db_file (JStr Demo.insert_two) 3
  = (5, [OpConnect Demo.db_file; OpExecuteScript Demo.insert_two; OpCommit;
         OpClose],
     Val [("status", RStr "ok"); ("rows_affected", RInt (-1))])
  /\ run_sql Demo.sqlite Demo.db_file (JStr Demo.insert_one) 3
     = (4, [OpConnect Demo.db_file; OpExecute Demo.insert_one; OpCommit; OpClose],
        Val [("status", RStr "ok"); ("rows_affected", RInt 1);
             ("lastrowid", RInt 4)]).
Proof.
  split.
  - apply (proj1 (run_sql_mutation nat Demo.sqlite Demo.db_file Demo.insert_two 3
                    eq_refl eq_refl ltac:(discriminate) eq_refl)
                 eq_refl 5 (Cursor None (Val []) (-1) None) 5);
      reflexivity.
  - apply (proj2 (run_sql_mutation nat Demo.sqlite Demo.db_file Demo.insert_one 3
                    eq_refl eq_refl ltac:(discriminate) eq_refl)
                 eq_refl 4 (Cursor None (Val []) 1 (Some 4%Z)) 4);
      reflexivity.
Defined.

(** A run on a path that does not exist. *)
Lemma process_message_missing_database_witness :
  process_message Demo.sqlite Demo.python Demo.clean Demo.chatty (Val tt)
                  "missing.db" "How many rows are there?" (fresh 3)
  = Some (State 3 [] [] ["Error: Could not retrieve schema."] [] 0, Val tt).
Proof.
  apply (process_message_missing_database nat Demo.sqlite Demo.python Demo.clean
           Demo.chatty (Val tt) "missing.db" "How many rows are there?" 3).
  reflexivity.
Defined.

(** Twelve rows come back; ten are shown. *)
Lemma large_result_preview_witness :
  exists s',
    iteration Demo.sqlite Demo.python (Demo.asks Demo.select_all) (Val tt)
              Demo.db_file (demo_state 12)
    = (s', Val Continue)
    /\ skipn 2 (st_messages s')
       = [Msg Assistant (Demo.sql_text Demo.select_all);
          Msg User
            ("Query returned 12 rows. This is too many to show. Here are the first 10 rows:"
             ++ PyStr.nl
             ++ json_dumps_rows Demo.python
                  (map (fun i => [("a", SqlInt (Z.of_nat i))]) (seq 1 10))
             ++ PyStr.nl ++ PyStr.nl
             ++ "Please refine your query if you need more specific data, or use this sample to answer.")]
    /\ last (st_events s') "" = "SQL Result (12 rows)".
Proof.
  destruct (large_result_preview nat Demo.sqlite Demo.python
              (Demo.asks Demo.select_all) (Val tt) Demo.db_file
              (demo_state 12) (demo_called 12) (Demo.sql_text Demo.select_all)
              [("type", JStr "sql"); ("sql", JStr Demo.select_all)]
              12
              [OpConnect Demo.db_file; OpExecute Demo.select_all; OpFetchall;
               OpClose]
              [("status", RStr "ok"); ("columns", RCols ["a"]);
               ("rows", RRows (map (fun i => [("a", SqlInt (Z.of_nat i))])
                                   (seq 1 12)))])
    as (s' & Hrun & Hmsgs & _ & Hlast); try reflexivity.
  - vm_compute. lia.
  - exists s'. split; [exact Hrun|]. split.
    + rewrite Hmsgs. reflexivity.
    + rewrite Hlast. reflexivity.
Defined.

(** An insert that succeeds is reported as a read of no rows. *)
Lemma mutation_reported_as_empty_read_witness :
  exists s',
    iteration Demo.sqlite Demo.python (Demo.asks Demo.insert_one) (Val tt)
              Demo.db_file (demo_state 3)
    = (s', Val Continue)
    /\ last (st_events s') "" = "SQL Result (0 rows)"
    /\ skipn 2 (st_messages s')
       = [Msg Assistant (Demo.sql_text Demo.insert_one);
          Msg User ("Query returned 0 rows:" ++ PyStr.nl ++ "[]")].
Proof.
  destruct (mutation_reported_as_empty_read nat Demo.sqlite Demo.python
              (Demo.asks Demo.insert_one) (Val tt) Demo.db_file
              (demo_state 3) (demo_called 3) (Demo.sql_text Demo.insert_one)
              Demo.insert_one
              [("type", JStr "sql"); ("sql", JStr Demo.insert_one)]
              4
              [OpConnect Demo.db_file; OpExecute Demo.insert_one; OpCommit;
               OpClose]
              [("status", RStr "ok"); ("rows_affected", RInt 1);
               ("lastrowid", RInt 4)])
    as (_ & s' & Hrun & Hlast & Hmsgs); try reflexivity.
  exists s'. split; [exact Hrun|]. split.
  - exact Hlast.
  - rewrite Hmsgs. reflexivity.
Defined.

(** * Further properties of the SQL executor *)

Section ExecutorCoverage.

Variable DB : Type.
Variable eng : engine DB.

(** The inside of the [try] with its [except] clause. *)
Local Abbreviation guarded_body db_path sql_query :=
  (except_sqlite3 (run_sql_body eng db_path sql_query)
                  (fun msg => db_ret (error_result msg))).

(** What [(sql_query or "").strip()] makes of a query: nothing to run, an
    [AttributeError], or a statement text that is not blank. *)
Lemma guarded_body_query (db_path : string) (sql_query : json) (db : DB) :
  guarded_body db_path sql_query db
  = (db, [], Val (error_result "Empty SQL query"))
  \/ guarded_body db_path sql_query db
     = (db, [], Exc (attribute_error "object has no attribute 'strip'"))
  \/ exists text, sql_query = JStr text /\ PyStr.strip text <> "".
Proof.
  destruct (truthy sql_query) eqn:Ht.
  - destruct sql_query as [| | | |text| |];
      try (right; left; unfold except_sqlite3, run_sql_body, db_bind,
             stripped_query; rewrite Ht; reflexivity).
    destruct (String.eqb_spec (PyStr.strip text) "") as [E|Hne].
    + left. unfold except_sqlite3.
      now rewrite (run_sql_body_blank DB eng db_path text db E).
    + right. right. now exists text.
  - left. unfold except_sqlite3, run_sql_body, db_bind, stripped_query.
    rewrite Ht. reflexivity.
Qed.

(** Takes the run of a statement text on an open connection apart, one
    goal per path through the [try]. *)
Ltac run_sql_paths H :=
  unfold except_sqlite3 in H;
  match type of H with
  | context [run_sql_body _ ?p (JStr ?t) ?d] =>
      match goal with
      | Hne : PyStr.strip t <> "" |- _ =>
          rewrite (run_sql_body_dispatch DB eng p t Hne d) in H
      end
  end;
  cbv zeta in H;
  unfold db_bind, execute, executescript, commit, fetchall, db_ret in H;
  repeat match type of H with
         | context [match ?x with _ => _ end] =>
             lazymatch x with
             | context [match _ with _ => _ end] => fail
             | _ => destruct x eqn:?
             end
         end;
  inversion H; subst; clear H.

(** X1.  Once [run_sql] has opened a connection it closes it on every way
    out, a raised exception included: the engine calls are the [connect],
    then calls on the open connection, then the [close]. *)
Theorem run_sql_releases_connection (db_path : string) (sql_query : json)
        (db : DB) :
  path_exists eng db db_path = true ->
  sqlite_connect eng db db_path = None ->
  exists mid,
    snd (fst (run_sql eng db_path sql_query db))
    = (OpConnect db_path :: mid ++ [OpClose])%list
    /\ forallb is_statement_op mid = true.
Proof.
  intros Hex Hconn.
  rewrite (run_sql_connected DB eng db_path sql_query db Hex Hconn).
  destruct (guarded_body db_path sql_query db) as [[db1 ops1] r] eqn:Hbody.
  exists ops1. split; [reflexivity|].
  destruct (guarded_body_query db_path sql_query db)
    as [E|[E|(text & -> & Hne)]];
    try (rewrite E in Hbody; inversion Hbody; reflexivity).
  run_sql_paths Hbody; reflexivity.
Qed.

(** The three ways [run_sql] goes, by what the file system and
    [sqlite3.connect] say. *)
Lemma run_sql_stages (db_path : string) (sql_query : json) (db : DB) :
  run_sql eng db_path sql_query db
  = (db, [], Val (error_result ("Database not found: " ++ db_path)))
  \/ (exists e, run_sql eng db_path sql_query db = (db, [OpConnect db_path], Exc e))
  \/ (path_exists eng db db_path = true
      /\ sqlite_connect eng db db_path = None).
Proof.
  destruct (path_exists eng db db_path) eqn:Hex.
  - destruct (sqlite_connect eng db db_path) as [e|] eqn:Hconn.
    + right. left. exists e. now apply run_sql_connect_raises.
    + right. right. now split.
  - left. unfold run_sql, db_bind, os_path_exists. now rewrite Hex.
Qed.


(** X3.  What [run_sql] returns is an [ok] result or an error result of
    the two keys [status] and [error]: when the status is not [ok], the
    result is [{"status": "error", "error": msg}] for some text [msg], so
    a reader of ["error"] never falls back on a default. *)
Theorem run_sql_result_shape (db_path : string) (sql_query : json)
        (db db' : DB) (ops : list db_op) (result : qresult) :
  run_sql eng db_path sql_query db = (db', ops, Val result) ->
  status_ok result = false ->
  exists msg, result = error_result msg /\ result_error result = msg.
Proof.
  intros Hrun Hok.
  destruct (run_sql_stages db_path sql_query db) as [E|[[e E]|[Hex Hconn]]];
    try (rewrite E in Hrun; inversion Hrun; subst; now eexists).
  rewrite (run_sql_connected DB eng db_path sql_query db Hex Hconn) in Hrun.
  destruct (guarded_body db_path sql_query db) as [[db1 ops1] r] eqn:Hbody.
  inversion Hrun; subst; clear Hrun.
  destruct (guarded_body_query db_path sql_query db)
    as [E|[E|(text & -> & Hne)]];
    try (rewrite E in Hbody; inversion Hbody; subst; now eexists).
  run_sql_paths Hbody; try discriminate Hok; now eexists.
Qed.

(** X4.  A query that is empty, blank, or any false value ([None], [0],
    [[]], ...) is not run: on an open connection [run_sql] answers [Empty
    SQL query], and its only engine calls are the [connect] and the
    [close]. *)
Theorem run_sql_empty_query (db_path : string) (sql_query : json) (db : DB) :
  path_exists eng db db_path = true ->
  sqlite_connect eng db db_path = None ->
  truthy sql_query = false
  \/ (exists text, sql_query = JStr text /\ PyStr.strip text = "") ->
  run_sql eng db_path sql_query db
  = (db, [OpConnect db_path; OpClose],
     Val [("status", RStr "error"); ("error", RStr "Empty SQL query")]).
Proof.
  intros Hex Hconn Hq.
  rewrite (run_sql_connected DB eng db_path sql_query db Hex Hconn).
  unfold except_sqlite3.
  destruct Hq as [Ht|(text & -> & E)].
  - unfold run_sql_body, db_bind, stripped_query. rewrite Ht. reflexivity.
  - now rewrite (run_sql_body_blank DB eng db_path text db E).
Qed.

(** X5.  A query that is a true value and no text (a number, a list, an
    object) makes [run_sql] raise [AttributeError]: the [except] clause
    does not catch it.  Nothing is run, and the connection is closed. *)
Theorem run_sql_query_not_text (db_path : string) (sql_query : json) (db : DB) :
  path_exists eng db db_path = true ->
  sqlite_connect eng db db_path = None ->
  truthy sql_query = true ->
  (forall text, sql_query <> JStr text) ->
  run_sql eng db_path sql_query db
  = (db, [OpConnect db_path; OpClose],
     Exc (OtherException "AttributeError" "object has no attribute 'strip'")).
Proof.
  intros Hex Hconn Ht Hno.
  rewrite (run_sql_connected DB eng db_path sql_query db Hex Hconn).
  unfold except_sqlite3, run_sql_body, db_bind, stripped_query. rewrite Ht.
  destruct sql_query; try reflexivity. now elim (Hno s).
Qed.

(** When the engine refuses the statement, [run_sql] commits nothing and
    closes the connection; a [sqlite3.Error] comes back as an error result
    with the engine's message, any other exception leaves [run_sql]. *)
Lemma run_sql_statement_refused (db_path text : string) (db db1 : DB)
        (e : exn) (op : db_op) :
  path_exists eng db db_path = true ->
  sqlite_connect eng db db_path = None ->
  PyStr.strip text <> "" ->
  statement_call eng db db_path (PyStr.strip text) = (db1, Exc e, op) ->
  run_sql eng db_path (JStr text) db
  = (db1, [OpConnect db_path; op; OpClose], converted e).
Proof.
  intros Hex Hconn Hne Hcall.
  rewrite (run_sql_connected DB eng db_path (JStr text) db Hex Hconn).
  unfold except_sqlite3.
  rewrite (run_sql_body_dispatch DB eng db_path text Hne db). cbv zeta.
  unfold statement_call in Hcall.
  unfold db_bind, execute, executescript.
  destruct (is_select (PyStr.strip text));
    [|destruct (PyStr.contains ";" (PyStr.strip text))];
    match type of Hcall with
    | (?c, _) = _ => destruct c as [d r] eqn:Hc
    end;
    inversion Hcall; subst; destruct e; reflexivity.
Qed.

(** *** Reading the catalogue *)

Variable clean_sql_text : string -> string.

Lemma tables_of_rows_well_formed (show_sql : bool) (rows : list (list sqlval)) :
  forallb catalogue_row_ok rows = true ->
  forall tables_json,
    tables_of_rows clean_sql_text show_sql rows tables_json
    = Val (tables_json ++ map (table_of_row clean_sql_text) rows)%list.
Proof.
  induction rows as [|r rows IH]; intros Hok tables_json.
  - simpl. now rewrite app_nil_r.
  - simpl in Hok. apply andb_true_iff in Hok as [Hr Hrows].
    destruct r as [|name [|typ [|ddl [|x r]]]]; try discriminate Hr;
      destruct typ as [| | |typ|]; try discriminate Hr;
      destruct ddl as [| | |ddl|]; try discriminate Hr;
      cbn [tables_of_rows sqlval_truthy map table_of_row print_table].
    + unfold clean_sql. cbn. rewrite (IH Hrows), <- app_assoc. reflexivity.
    + unfold clean_sql.
      destruct (String.eqb ddl "") eqn:E; cbn; [|rewrite E; cbn];
        rewrite (IH Hrows), <- app_assoc; reflexivity.
Qed.

(** [list_tables] on a catalogue of well-formed rows. *)
Lemma list_tables_rows (db_path : string) (show_sql : bool) (db db1 : DB)
      (cur : cursor) (rows : list (list sqlval)) :
  path_exists eng db db_path = true ->
  sqlite_connect eng db db_path = None ->
  sqlite_execute eng db db_path master_query = (db1, Val cur) ->
  cur_fetchall cur = Val rows ->
  rows <> [] ->
  forallb catalogue_row_ok rows = true ->
  list_tables eng clean_sql_text db_path show_sql db
  = (db1,
     [OpConnect db_path; OpExecute master_query; OpFetchall; OpClose],
     Val (TableList (map (table_of_row clean_sql_text) rows))).
Proof.
  intros Hex Hconn Hrun Hfetch Hne Hok.
  unfold list_tables, db_bind, os_path_exists, connect, finally, execute,
    fetchall, close.
  rewrite Hex. cbn [negb]. rewrite Hconn, Hrun, Hfetch.
  destruct rows as [|r rows]; [now elim Hne|].
  rewrite (tables_of_rows_well_formed show_sql (r :: rows) Hok []).
  reflexivity.
Qed.

(** X6.  On a catalogue of well-formed rows, [list_tables] returns one
    entry per table or view, in the order the engine gives them, each with
    the name as it stands and the cleaned DDL (the empty text when the DDL
    is [NULL] or empty), whether [show_sql] is set or not; it reads the
    catalogue once, commits nothing and closes the connection. *)
Theorem list_tables_entries (db_path : string) (show_sql : bool) (db db1 : DB)
        (cur : cursor) (rows : list (list sqlval)) :
  path_exists eng db db_path = true ->
  sqlite_connect eng db db_path = None ->
  sqlite_execute eng db db_path master_query = (db1, Val cur) ->
  cur_fetchall cur = Val rows ->
  rows <> [] ->
  forallb catalogue_row_ok rows = true ->
  exists tables,
    list_tables eng clean_sql_text db_path show_sql db
    = (db1,
       [OpConnect db_path; OpExecute master_query; OpFetchall; OpClose],
       Val (TableList tables))
    /\ length tables = length rows
    /\ map table_name tables = map (hd SqlNull) rows
    /\ tables = map (table_of_row clean_sql_text) rows.
Proof.
  intros Hex Hconn Hrun Hfetch Hne Hok.
  exists (map (table_of_row clean_sql_text) rows).
  split; [now apply (list_tables_rows db_path show_sql db db1 cur rows)|].
  split; [apply length_map|]. split; [|reflexivity].
  rewrite map_map. apply map_ext_in. intros r Hin.
  assert (Hr : catalogue_row_ok r = true)
    by (rewrite forallb_forall in Hok; now apply Hok).
  destruct r as [|name [|typ [|ddl [|x r]]]]; try discriminate Hr;
    destruct typ; try discriminate Hr; destruct ddl; try discriminate Hr;
    reflexivity.
Qed.

(** [run_sql] makes at most four engine calls. *)
Lemma run_sql_ops_bound (db_path : string) (sql_query : json) (db : DB) :
  length (snd (fst (run_sql eng db_path sql_query db))) <= 4.
Proof.
  destruct (run_sql_stages db_path sql_query db) as [E|[[e E]|[Hex Hconn]]];
    try (rewrite E; simpl; lia).
  rewrite (run_sql_connected DB eng db_path sql_query db Hex Hconn).
  destruct (guarded_body db_path sql_query db) as [[db1 ops1] r] eqn:Hbody.
  destruct (guarded_body_query db_path sql_query db)
    as [E|[E|(text & -> & Hne)]];
    try (rewrite E in Hbody; inversion Hbody; subst; simpl; lia).
  run_sql_paths Hbody; simpl; lia.
Qed.

(** X7.  The [except] clause of [run_sql] covers everything but the
    [connect]: a [sqlite3.Error] leaves [run_sql] only when
    [sqlite3.connect] itself raised it, and then no other engine call was
    made and the database is as it was. *)
Theorem run_sql_sqlite3_error_origin (db_path : string) (sql_query : json)
        (db db' : DB) (ops : list db_op) (msg : string) :
  run_sql eng db_path sql_query db = (db', ops, Exc (Sqlite3Error msg)) ->
  sqlite_connect eng db db_path = Some (Sqlite3Error msg)
  /\ ops = [OpConnect db_path] /\ db' = db.
Proof.
  intros Hrun.
  destruct (path_exists eng db db_path) eqn:Hex.
  2:{ unfold run_sql, db_bind, os_path_exists in Hrun. rewrite Hex in Hrun.
      discriminate Hrun. }
  destruct (sqlite_connect eng db db_path) as [e|] eqn:Hconn.
  { rewrite (run_sql_connect_raises DB eng db_path sql_query db e Hex Hconn)
      in Hrun.
    inversion Hrun; subst. auto. }
  exfalso.
  rewrite (run_sql_connected DB eng db_path sql_query db Hex Hconn) in Hrun.
  destruct (guarded_body db_path sql_query db) as [[db1 ops1] r] eqn:Hbody.
  inversion Hrun; subst; clear Hrun.
  destruct (guarded_body_query db_path sql_query db)
    as [E|[E|(text & -> & Hne)]];
    try (rewrite E in Hbody; discriminate Hbody).
  run_sql_paths Hbody.
Qed.

(** [list_tables] makes at most four engine calls. *)
Lemma list_tables_ops_bound (db_path : string) (show_sql : bool) (db : DB) :
  length (snd (fst (list_tables eng clean_sql_text db_path show_sql db))) <= 4.
Proof.
  unfold list_tables, db_bind, os_path_exists, connect, finally, execute,
    fetchall, close, db_ret, db_raise.
  destruct (path_exists eng db db_path); [|simpl; lia]. cbn [negb].
  destruct (sqlite_connect eng db db_path); [simpl; lia|].
  destruct (sqlite_execute eng db db_path master_query) as [db1 [cur|e]];
    [|simpl; lia].
  destruct (cur_fetchall cur) as [[|r rows]|e]; try (simpl; lia).
  destruct (tables_of_rows clean_sql_text show_sql (r :: rows) []);
    simpl; lia.
Qed.

End ExecutorCoverage.

(** ** The executor's further properties on the concrete world *)

(** A statement the engine refuses: the connection is closed all the
    same. *)
Lemma run_sql_releases_connection_witness :
  exists mid,
    snd (fst (run_sql Demo.sqlite Demo.db_file (JStr "SELEC") 3))
    = (OpConnect Demo.db_file :: mid ++ [OpClose])%list
    /\ forallb is_statement_op mid = true.
Proof.
  apply (run_sql_releases_connection nat Demo.sqlite Demo.db_file
           (JStr "SELEC") 3); reflexivity.
Defined.


(** The error result of a statement the engine refuses. *)
Lemma run_sql_result_shape_witness :
  exists msg,
    [("status", RStr "error");
     ("error", RStr "near the statement: syntax error")]
    = error_result msg
    /\ result_error [("status", RStr "error");
                     ("error", RStr "near the statement: syntax error")]
       = msg.
Proof.
  apply (run_sql_result_shape nat Demo.sqlite Demo.db_file (JStr "SELEC") 3 3
           [OpConnect Demo.db_file; OpExecute "SELEC"; OpClose]);
    reflexivity.
Defined.

(** A query of blanks, and no query at all. *)
Lemma run_sql_empty_query_witness :
  run_sql Demo.sqlite Demo.db_file (JStr "   ") 3
  = (3, [OpConnect Demo.db_file; OpClose],
     Val [("status", RStr "error"); ("error", RStr "Empty SQL query")])
  /\ run_sql Demo.sqlite Demo.db_file JNull 3
     = (3, [OpConnect Demo.db_file; OpClose],
        Val [("status", RStr "error"); ("error", RStr "Empty SQL query")]).
Proof.
  split.
  - apply (run_sql_empty_query nat Demo.sqlite Demo.db_file (JStr "   ") 3);
      [reflexivity|reflexivity|].
    right. exists "   ". split; reflexivity.
  - apply (run_sql_empty_query nat Demo.sqlite Demo.db_file JNull 3);
      [reflexivity|reflexivity|].
    left. reflexivity.
Defined.

(** A number where the statement is expected. *)
Lemma run_sql_query_not_text_witness :
  run_sql Demo.sqlite Demo.db_file (JInt 5) 3
  = (3, [OpConnect Demo.db_file; OpClose],
     Exc (OtherException "AttributeError" "object has no attribute 'strip'")).
Proof.
  apply (run_sql_query_not_text nat Demo.sqlite Demo.db_file (JInt 5) 3);
    try reflexivity.
  intros text. discriminate.
Defined.

(** The directory ["."]: the error of [connect] is the one that leaves. *)
Lemma run_sql_sqlite3_error_origin_witness :
  sqlite_connect Demo.sqlite 3 "."
  = Some (Sqlite3Error "unable to open database file")
  /\ [OpConnect "."] = [OpConnect "."] /\ 3 = 3.
Proof.
  apply (run_sql_sqlite3_error_origin nat Demo.sqlite "." (JStr "SELECT 1")
           3 3 [OpConnect "."] "unable to open database file").
  reflexivity.
Defined.

(** A table and a view whose DDL is [NULL]. *)
Lemma list_tables_entries_witness :
  exists tables,
    list_tables DemoMore.two_objects_sqlite Demo.clean Demo.db_file false 3
    = (3,
       [OpConnect Demo.db_file; OpExecute master_query; OpFetchall; OpClose],
       Val (TableList tables))
    /\ length tables = 2
    /\ map table_name tables = [SqlText "t"; SqlText "v"]
    /\ tables = [TableInfo (SqlText "t") "CREATE TABLE t (a INTEGER)";
                 TableInfo (SqlText "v") ""].
Proof.
  apply (list_tables_entries nat DemoMore.two_objects_sqlite Demo.clean
           Demo.db_file false 3 3
           (Cursor (Some ["name"; "type"; "sql"]) (Val DemoMore.two_objects)
                   (-1) None)
           DemoMore.two_objects);
    try reflexivity.
  discriminate.
Defined.

(** * Further properties of the agent *)

Section AgentCoverage.

Variable DB : Type.
Variable eng : engine DB.
Variable py : pylib.
Variable clean_sql_text : string -> string.
Variable provider : nat -> bool -> list message -> presp.
Variable openai_client : res unit.
Variable db_path : string.

Local Abbreviation get_completion' :=
  (get_completion (DB:=DB) provider openai_client).
Local Abbreviation dispatch' := (dispatch eng py db_path).
Local Abbreviation iteration' :=
  (iteration eng py provider openai_client db_path).
Local Abbreviation agent_loop' :=
  (agent_loop eng py provider openai_client db_path).
Local Abbreviation schema_context' :=
  (get_schema_context eng py clean_sql_text db_path).
Local Abbreviation process_message' :=
  (process_message eng py clean_sql_text provider openai_client db_path).

(** *** The schema *)

(** [get_schema_context] over what [list_tables] gives. *)
Lemma get_schema_context_tables (s : state DB) (db1 : DB) (ops : list db_op)
      (r : res tables_result) :
  list_tables eng clean_sql_text db_path false (st_db s) = (db1, ops, r) ->
  schema_context' s
  = (State db1 (st_ops s ++ ops) (st_sent s) (st_events s) (st_messages s)
           (st_step s),
     match r with
     | Val (TableList l) => Val (String.concat "" (map (table_desc py) l))
     | Val EmptyDict => Val ""
     | Exc e => Exc e
     end).
Proof.
  intros H. unfold get_schema_context, bind, lift_db. rewrite H.
  destruct r as [[|l]|e]; reflexivity.
Qed.

Lemma concat_descriptions_not_empty (l : list table_info) :
  l <> [] -> String.concat "" (map (table_desc py) l) <> "".
Proof.
  destruct l as [|t [|t' l]]; [congruence| |]; intros _; simpl; discriminate.
Qed.

(** X8.  Over a catalogue of well-formed rows the schema text of
    [get_schema_context] is one block [Table: name], DDL, blank line per
    table or view, in the engine's order, and it is not empty, so that
    [process_message] goes on to the loop. *)
Theorem get_schema_context_describes_tables (s : state DB) (db1 : DB)
        (cur : cursor) (rows : list (list sqlval)) :
  path_exists eng (st_db s) db_path = true ->
  sqlite_connect eng (st_db s) db_path = None ->
  sqlite_execute eng (st_db s) db_path master_query = (db1, Val cur) ->
  cur_fetchall cur = Val rows ->
  rows <> [] ->
  forallb catalogue_row_ok rows = true ->
  exists schema,
    schema_context' s
    = (State db1
             (st_ops s ++ [OpConnect db_path; OpExecute master_query;
                           OpFetchall; OpClose])
             (st_sent s) (st_events s) (st_messages s) (st_step s),
       Val schema)
    /\ schema
       = String.concat ""
           (map (fun r => "Table: " ++ sqlval_str py (hd SqlNull r) ++ PyStr.nl
                          ++ table_sql (table_of_row clean_sql_text r)
                          ++ PyStr.nl ++ PyStr.nl) rows)
    /\ schema <> "".
Proof.
  intros Hex Hconn Hrun Hfetch Hne Hok.
  eexists. split; [|split].
  - rewrite (get_schema_context_tables s db1 _ _
               (list_tables_rows DB eng clean_sql_text db_path false (st_db s)
                  db1 cur rows Hex Hconn Hrun Hfetch Hne Hok)).
    reflexivity.
  - rewrite map_map. f_equal. apply map_ext_in. intros r Hin.
    assert (Hr : catalogue_row_ok r = true)
      by (rewrite forallb_forall in Hok; now apply Hok).
    destruct r as [|name [|typ [|ddl [|x r]]]]; try discriminate Hr;
      destruct typ; try discriminate Hr; destruct ddl; try discriminate Hr;
      reflexivity.
  - apply concat_descriptions_not_empty.
    destruct rows; [now elim Hne|discriminate].
Qed.

(** X9.  A database file that holds no table and no view: the catalogue
    is read, and the run yields the one event [Error: Could not retrieve
    schema.] and stops; no provider call is made and no conversation is
    started. *)
Theorem process_message_empty_catalogue (user_input : string) (db db1 : DB)
        (cur : cursor) :
  path_exists eng db db_path = true ->
  sqlite_connect eng db db_path = None ->
  sqlite_execute eng db db_path master_query = (db1, Val cur) ->
  cur_fetchall cur = Val [] ->
  process_message' user_input (fresh db)
  = Some (State db1
                [OpConnect db_path; OpExecute master_query; OpFetchall; OpClose]
                [] ["Error: Could not retrieve schema."] [] 0,
          Val tt).
Proof.
  intros Hex Hconn Hrun Hfetch.
  unfold process_message, process_message_with.
  rewrite (get_schema_context_tables (fresh db) db1
             [OpConnect db_path; OpExecute master_query; OpFetchall; OpClose]
             (Val EmptyDict)).
  - reflexivity.
  - unfold list_tables, db_bind, os_path_exists, connect, finally, execute,
      fetchall, close.
    change (st_db (fresh db)) with db. rewrite Hex. cbn [negb].
    rewrite Hconn, Hrun, Hfetch.
    reflexivity.
Qed.

(** X10.  [list_tables] has no [except] clause: when the engine refuses
    the catalogue query, the exception, a [sqlite3.Error] included, ends
    the run before any event is yielded; the connection is closed and no
    provider call is made. *)
Theorem process_message_catalogue_error (user_input : string) (db db1 : DB)
        (e : exn) :
  path_exists eng db db_path = true ->
  sqlite_connect eng db db_path = None ->
  sqlite_execute eng db db_path master_query = (db1, Exc e) ->
  process_message' user_input (fresh db)
  = Some (State db1 [OpConnect db_path; OpExecute master_query; OpClose]
                [] [] [] 0,
          Exc e).
Proof.
  intros Hex Hconn Hrun.
  unfold process_message, process_message_with.
  rewrite (get_schema_context_tables (fresh db) db1
             [OpConnect db_path; OpExecute master_query; OpClose] (Exc e)).
  - reflexivity.
  - unfold list_tables, db_bind, os_path_exists, connect, finally, execute,
      fetchall, close.
    change (st_db (fresh db)) with db. rewrite Hex. cbn [negb].
    rewrite Hconn, Hrun. reflexivity.
Qed.

(** *** What [get_completion] does to the state *)

Lemma ends_with_system_reminder (l : list message) :
  ends_with_system (l ++ [json_reminder]) = true.
Proof. unfold ends_with_system. rewrite rev_unit. reflexivity. Qed.

Lemma after_calls_again (s : state DB) (sent sent' : list (list message))
      (msgs msgs' : list message) :
  after_calls (after_calls s sent msgs) sent' msgs'
  = after_calls s (sent ++ sent') msgs'.
Proof. unfold after_calls. simpl. now rewrite app_assoc. Qed.

Lemma after_calls_none (s : state DB) : after_calls s [] (st_messages s) = s.
Proof. destruct s. unfold after_calls. simpl. now rewrite app_nil_r. Qed.

Lemma rev_nil_inv (l : list message) : rev l = [] -> l = [].
Proof.
  intros H. apply (f_equal (@rev message)) in H.
  now rewrite rev_involutive in H.
Qed.

(** With a system message last, the loop appends nothing and does not
    raise: every attempt is sent the conversation as it stands. *)
Lemma get_completion_loop_reminded (mode : bool) (attempts : list nat) :
  forall (s s' : state DB) (r : res (option string)),
    ends_with_system (st_messages s) = true ->
    get_completion_loop provider attempts mode s = (s', r) ->
    exists k,
      s' = after_calls s (repeat (st_messages s) k) (st_messages s)
      /\ k <= length attempts
      /\ exists content, r = Val content.
Proof.
  induction attempts as [|attempt rest IH]; intros s s' r Hsys Hrun.
  - inversion Hrun; subst s' r. exists 0. simpl. rewrite after_calls_none.
    split; [reflexivity|]. split; [lia|]. now eexists.
  - cbn [get_completion_loop] in Hrun. unfold bind at 1, call_provider in Hrun.
    change (State (st_db s) (st_ops s) (st_sent s ++ [st_messages s])
                  (st_events s) (st_messages s) (st_step s))
      with (after_calls s [st_messages s] (st_messages s)) in Hrun.
    set (s0 := after_calls s [st_messages s] (st_messages s)) in *.
    assert (Hone : forall s' r,
               get_completion_loop provider rest mode s0 = (s', r) ->
               exists k,
                 s' = after_calls s (repeat (st_messages s) k) (st_messages s)
                 /\ k <= length (attempt :: rest)
                 /\ exists content, r = Val content).
    { intros s2 r2 H2. destruct (IH s0 s2 r2 Hsys H2) as (k & -> & Hk & Hr).
      exists (S k). unfold s0. simpl st_messages.
      rewrite after_calls_again. simpl. split; [reflexivity|].
      split; [lia|exact Hr]. }
    assert (Hstop : forall content,
               exists k,
                 s0 = after_calls s (repeat (st_messages s) k) (st_messages s)
                 /\ k <= length (attempt :: rest)
                 /\ exists content', Val content = Val content' :> res (option string)).
    { intros content. exists 1. split; [reflexivity|].
      split; [simpl; lia|now eexists]. }
    destruct (provider (st_calls s) mode (st_messages s)) as [content|d].
    { inversion Hrun; subst. apply Hstop. }
    destruct (is_format_failure d && (attempt <? max_retries - 1)%nat).
    + unfold bind at 1, last_message in Hrun. simpl st_messages in Hrun.
      unfold ends_with_system in Hsys.
      destruct (rev (st_messages s)) as [|m tl]; [discriminate Hsys|].
      rewrite Hsys in Hrun. cbn [negb] in Hrun.
      unfold bind at 1, ret in Hrun. now apply Hone.
    + destruct (attempt =? max_retries - 1)%nat.
      * inversion Hrun; subst. apply Hstop.
      * now apply Hone.
Qed.

(** The effect of the attempts left: the calls made, each over the
    conversation as [get_completion] found it or over the conversation it
    leaves; the reminder is appended at most once. *)
Lemma get_completion_loop_effect (mode : bool) (attempts : list nat) :
  forall (s s' : state DB) (r : res (option string)),
    get_completion_loop provider attempts mode s = (s', r) ->
    exists sent msgs,
      s' = after_calls s sent msgs
      /\ length sent <= length attempts
      /\ (msgs = st_messages s
          \/ (msgs = (st_messages s ++ [json_reminder])%list
              /\ ends_with_system (st_messages s) = false))
      /\ Forall (fun c => c = st_messages s \/ c = msgs) sent
      /\ (st_messages s <> [] -> exists content, r = Val content)
      /\ (attempts <> [] -> sent <> []).
Proof.
  induction attempts as [|attempt rest IH]; intros s s' r Hrun.
  - inversion Hrun; subst s' r. exists [], (st_messages s).
    rewrite after_calls_none.
    repeat split; auto; try (intros; now eexists); try (intros H; now elim H).
  - cbn [get_completion_loop] in Hrun. unfold bind at 1, call_provider in Hrun.
    change (State (st_db s) (st_ops s) (st_sent s ++ [st_messages s])
                  (st_events s) (st_messages s) (st_step s))
      with (after_calls s [st_messages s] (st_messages s)) in Hrun.
    set (s0 := after_calls s [st_messages s] (st_messages s)) in *.
    assert (Hone : forall s' r,
               get_completion_loop provider rest mode s0 = (s', r) ->
               exists sent msgs,
                 s' = after_calls s sent msgs
                 /\ length sent <= length (attempt :: rest)
                 /\ (msgs = st_messages s
                     \/ (msgs = (st_messages s ++ [json_reminder])%list
                         /\ ends_with_system (st_messages s) = false))
                 /\ Forall (fun c => c = st_messages s \/ c = msgs) sent
                 /\ (st_messages s <> [] -> exists content, r = Val content)
                 /\ (attempt :: rest <> [] -> sent <> [])).
    { intros s2 r2 H2.
      destruct (IH s0 s2 r2 H2) as (sent & msgs & -> & Hlen & Hmsgs & Hall & Hr & _).
      exists (st_messages s :: sent), msgs. unfold s0.
      rewrite after_calls_again. simpl.
      repeat split; auto; try lia; try discriminate. }
    assert (Hstop : forall r : res (option string),
               (st_messages s <> [] -> exists content, r = Val content) ->
               exists sent msgs,
                 s0 = after_calls s sent msgs
                 /\ length sent <= length (attempt :: rest)
                 /\ (msgs = st_messages s
                     \/ (msgs = (st_messages s ++ [json_reminder])%list
                         /\ ends_with_system (st_messages s) = false))
                 /\ Forall (fun c => c = st_messages s \/ c = msgs) sent
                 /\ (st_messages s <> [] -> exists content, r = Val content)
                 /\ (attempt :: rest <> [] -> sent <> [])).
    { intros r0 Hr0. exists [st_messages s], (st_messages s).
      repeat split; auto; simpl; try lia; try discriminate. }
    destruct (provider (st_calls s) mode (st_messages s)) as [content|d].
    { inversion Hrun; subst. apply Hstop. intros _. now eexists. }
    destruct (is_format_failure d && (attempt <? max_retries - 1)%nat).
    + unfold bind at 1, last_message in Hrun. simpl st_messages in Hrun.
      destruct (rev (st_messages s)) as [|m tl] eqn:Hrev.
      { inversion Hrun; subst. apply Hstop.
        intros Hne. elim Hne. now apply rev_nil_inv. }
      destruct (role_eqb (msg_role m) System) eqn:Hm; cbn [negb] in Hrun.
      * unfold bind at 1, ret in Hrun. now apply Hone.
      * unfold bind at 1, append_message in Hrun. simpl in Hrun.
        change (State (st_db s) (st_ops s) (st_sent s ++ [st_messages s])
                      (st_events s) (st_messages s ++ [json_reminder])
                      (st_step s))
          with (after_calls s [st_messages s]
                            (st_messages s ++ [json_reminder])%list) in Hrun.
        destruct (get_completion_loop_reminded mode rest
                    (after_calls s [st_messages s]
                                 (st_messages s ++ [json_reminder])%list)
                    s' r
                    (ends_with_system_reminder (st_messages s)) Hrun)
          as (k & -> & Hk & Hr).
        simpl st_messages. rewrite after_calls_again.
        exists ([st_messages s]
                  ++ repeat (st_messages s ++ [json_reminder])%list k)%list,
          (st_messages s ++ [json_reminder])%list.
        repeat split; auto.
        -- simpl. rewrite repeat_length. lia.
        -- right. split; [reflexivity|].
           unfold ends_with_system. now rewrite Hrev, Hm.
        -- simpl. constructor; [now left|].
           apply Forall_forall. intros c Hc. right.
           now apply repeat_spec in Hc.
        -- discriminate.
    + destruct (attempt =? max_retries - 1)%nat.
      * inversion Hrun; subst. apply Hstop. intros _. now eexists.
      * now apply Hone.
Qed.

(** [get_completion]: the client is built, then the loop runs over three
    attempts. *)
Lemma get_completion_effect (mode : bool) (s s' : state DB)
      (r : res (option string)) :
  get_completion' mode s = (s', r) ->
  exists sent msgs,
    s' = after_calls s sent msgs
    /\ length sent <= 3
    /\ (msgs = st_messages s
        \/ (msgs = (st_messages s ++ [json_reminder])%list
            /\ ends_with_system (st_messages s) = false))
    /\ Forall (fun c => c = st_messages s \/ c = msgs) sent
    /\ (openai_client = Val tt -> st_messages s <> [] ->
        sent <> [] /\ exists content, r = Val content).
Proof.
  unfold get_completion, bind, get_client.
  destruct openai_client as [[]|e] eqn:Hclient.
  - intros Hrun.
    destruct (get_completion_loop_effect mode (seq 0 max_retries) s s' r Hrun)
      as (sent & msgs & Hs & Hlen & Hmsgs & Hall & Hr & Hne).
    exists sent, msgs. repeat split; auto.
    apply Hne. discriminate.
  - intros Hrun. inversion Hrun; subst. exists [], (st_messages s').
    rewrite after_calls_none.
    repeat split; auto; try discriminate; simpl; lia.
Qed.

(** X11.  [get_completion] touches nothing but the conversation and the
    provider: the database, the events and the step counter are as
    before; it makes at most three provider calls; it leaves the
    conversation as it was or with the one JSON reminder appended, never
    two, and appends none after a system message.  With the client built
    and a conversation that is not empty it makes at least one call and
    does not raise, whatever the provider does. *)
Theorem get_completion_contract (mode : bool) (s s' : state DB)
        (r : res (option string)) :
  get_completion' mode s = (s', r) ->
  st_db s' = st_db s /\ st_ops s' = st_ops s /\ st_events s' = st_events s
  /\ st_step s' = st_step s
  /\ st_calls s <= st_calls s' <= st_calls s + 3
  /\ (st_messages s' = st_messages s
      \/ (st_messages s' = (st_messages s ++ [json_reminder])%list
          /\ ends_with_system (st_messages s) = false))
  /\ (openai_client = Val tt -> st_messages s <> [] ->
      st_calls s < st_calls s' /\ exists content, r = Val content).
Proof.
  intros Hrun.
  destruct (get_completion_effect mode s s' r Hrun)
    as (sent & msgs & -> & Hlen & Hmsgs & _ & Hr).
  unfold st_calls, after_calls. simpl. rewrite length_app.
  repeat split; auto; try lia.
  - destruct (Hr H H0) as [Hne _]. destruct sent; [now elim Hne|simpl; lia].
  - now destruct (Hr H H0).
Qed.

(** *** One pass through the loop body, case by case *)

Lemma iteration_cases (s : state DB) :
  iteration' s
  = match get_completion' true (fst (incr_step s)) with
    | (s1, Exc e) => (s1, Exc e)
    | (s1, Val None) =>
        (s1, Exc (OtherException "TypeError"
                    "the JSON object must be str, bytes or bytearray, not NoneType"))
    | (s1, Val (Some text)) =>
        match json_loads py text with
        | LoadsDecodeError =>
            (State (st_db s1) (st_ops s1) (st_sent s1)
                   (st_events s1 ++ [parse_failure_event text])
                   (st_messages s1 ++ [invalid_json_message]) (st_step s1),
             Val Continue)
        | LoadsRaise e => (s1, Exc e)
        | LoadsOk parsed => dispatch' text parsed s1
        end
    end.
Proof.
  unfold iteration, bind at 1, incr_step. unfold bind at 1. cbn [fst].
  destruct (get_completion' true _) as [s1 [[text|]|e]]; try reflexivity.
  destruct (json_loads py text); reflexivity.
Qed.

(** Chooses what was appended to a component of the state. *)
Ltac appended :=
  rewrite <- ?app_assoc;
  first [ exists []; split; [symmetry; apply app_nil_r|]
        | eexists; split; [reflexivity|] ].

(** What the part of a pass after [json.loads] does: it makes no provider
    call and leaves the step counter alone; it appends at most four engine
    calls, two messages and three events; an event with the final answer
    is the last event of a pass that returns, and comes in no other
    pass. *)
Lemma dispatch_effect (text : string) (parsed : json) (s1 s' : state DB)
      (r : res ctl) :
  dispatch' text parsed s1 = (s', r) ->
  st_sent s' = st_sent s1 /\ st_step s' = st_step s1
  /\ (exists ops, st_ops s' = (st_ops s1 ++ ops)%list /\ length ops <= 4)
  /\ (exists msgs,
         st_messages s' = (st_messages s1 ++ msgs)%list /\ length msgs <= 2)
  /\ (exists evs,
         st_events s' = (st_events s1 ++ evs)%list /\ length evs <= 3
         /\ match r with
            | Val Return =>
                exists pre X,
                  evs = (pre ++ [("Final Answer: " ++ X)%string])%list
                  /\ no_final_answer pre = true
            | _ => no_final_answer evs = true
            end).
Proof.
  intros H. unfold dispatch in H.
  destruct parsed as [| | | | | |fields];
    try (inversion H; subst s' r; repeat split; appended;
         first [simpl; lia | split; [simpl; lia|reflexivity]]).
  unfold sql_branch, bind, emit, ret, append_message, lift_db in H.
  pose proof (run_sql_ops_bound DB eng db_path (json_get fields "sql")
                (st_db s1)) as Hb.
  destruct (truthy (json_get fields "thought"));
    (destruct (json_is (json_get fields "type") "sql");
     [|destruct (json_is (json_get fields "type") "answer")]);
    cbn [fst snd st_db st_ops st_sent st_events st_messages st_step] in H.
  all: try (match type of H with context [run_sql] => idtac end;
            destruct (run_sql eng db_path (json_get fields "sql") (st_db s1))
              as [[db' ops] [result|e]];
            [destruct (status_ok result)|];
            cbn [fst snd st_db st_ops st_sent st_events st_messages st_step]
              in H, Hb).
  all: inversion H; subst s' r;
    cbn [fst snd st_db st_ops st_sent st_events st_messages st_step].
  all: repeat split; appended.
  all: try (simpl; lia).
  all: try (split; [simpl; lia|]).
  all: try reflexivity.
  all: first [ exists []; eexists; split; reflexivity
             | eexists [_]; eexists; split; reflexivity ].
Qed.

(** A whole pass: one step, at most three provider calls, four engine
    calls and three events. *)
Lemma iteration_effect (s s' : state DB) (r : res ctl) :
  iteration' s = (s', r) ->
  st_step s' = S (st_step s)
  /\ st_calls s <= st_calls s' <= st_calls s + 3
  /\ length (st_ops s') <= length (st_ops s) + 4
  /\ (exists evs,
         st_events s' = (st_events s ++ evs)%list /\ length evs <= 3
         /\ match r with
            | Val Return =>
                exists pre X,
                  evs = (pre ++ [("Final Answer: " ++ X)%string])%list
                  /\ no_final_answer pre = true
            | _ => no_final_answer evs = true
            end).
Proof.
  intros H. rewrite iteration_cases in H.
  destruct (get_completion' true (fst (incr_step s))) as [s1 rc] eqn:Hc.
  apply get_completion_effect in Hc as (sent & msgs & Hs1 & Hlen & _).
  assert (Hstep : st_step s1 = S (st_step s)) by (now rewrite Hs1).
  assert (Hcalls : st_calls s1 = st_calls s + length sent)
    by (rewrite Hs1; unfold st_calls; simpl; now rewrite length_app).
  assert (Hops : st_ops s1 = st_ops s) by (now rewrite Hs1).
  assert (Hev : st_events s1 = st_events s) by (now rewrite Hs1).
  clear Hs1.
  assert (Hquiet : st_step s1 = S (st_step s)
                   /\ st_calls s <= st_calls s1 <= st_calls s + 3
                   /\ length (st_ops s1) <= length (st_ops s) + 4
                   /\ (exists evs,
                          st_events s1 = (st_events s ++ evs)%list
                          /\ length evs <= 3 /\ no_final_answer evs = true)).
  { repeat split; try lia; [rewrite Hops; lia|].
    exists []. rewrite Hev, app_nil_r. repeat split. simpl. lia. }
  destruct rc as [[text|]|e];
    [destruct (json_loads py text) as [parsed| |e]|..];
    try (inversion H; subst s' r; exact Hquiet).
  - apply dispatch_effect in H
      as (Hsent' & Hstep' & (ops & Hops' & Hopslen) & _
          & (evs & Hev' & Hevlen & Hclass)).
    unfold st_calls in *. rewrite Hsent', Hstep', Hops', Hev', Hops, Hev.
    rewrite length_app. repeat split; try lia.
    exists evs. now repeat split.
  - inversion H; subst s' r. unfold st_calls in *.
    cbn [st_step st_sent st_ops st_events]. rewrite Hops, Hev.
    repeat split; try lia.
    exists [parse_failure_event text]. repeat split. simpl. lia.
Qed.

Lemma no_final_answer_app (a b : list string) :
  no_final_answer (a ++ b) = no_final_answer a && no_final_answer b.
Proof. apply forallb_app. Qed.

(** *** The bounds of a run *)

Lemma agent_loop_budget (fuel : nat) :
  forall (s s' : state DB) (r : res unit),
    st_step s <= max_steps ->
    agent_loop' fuel s = Some (s', r) ->
    st_step s <= st_step s' <= max_steps
    /\ st_calls s' <= st_calls s + 3 * (st_step s' - st_step s)
    /\ length (st_ops s') <= length (st_ops s) + 4 * (st_step s' - st_step s)
    /\ length (st_events s')
       <= length (st_events s) + 3 * (st_step s' - st_step s) + 1.
Proof.
  induction fuel as [|fuel IH]; intros s s' r Hle Hrun; [discriminate|].
  cbn [agent_loop] in Hrun.
  destruct (st_step s <? max_steps)%nat eqn:Hlt.
  - apply Nat.ltb_lt in Hlt.
    destruct (iteration' s) as [s1 rc] eqn:Hit.
    destruct (iteration_effect s s1 rc Hit)
      as (Hstep & Hcalls & Hops & (evs & Hev & Hevlen & _)).
    assert (Hevs : length (st_events s1) <= length (st_events s) + 3)
      by (rewrite Hev, length_app; lia).
    destruct rc as [[|]|e].
    + assert (Hle1 : st_step s1 <= max_steps) by lia.
      destruct (IH s1 s' r Hle1 Hrun) as (H1 & H2 & H3 & H4). lia.
    + inversion Hrun; subst s' r. lia.
    + inversion Hrun; subst s' r. lia.
  - apply Nat.ltb_ge in Hlt. unfold after_loop in Hrun.
    destruct (max_steps <=? st_step s)%nat; inversion Hrun; subst s' r;
      cbn [st_step st_sent st_ops st_events st_calls];
      unfold st_calls; cbn [st_sent]; rewrite ?length_app; simpl; lia.
Qed.

(** X12.  The budget of a run, whatever the provider and the engine do:
    at most ten passes through the loop body, at most three provider
    calls per pass (thirty in all), at most four engine calls for the
    schema and four per pass, and at most three events per pass and one
    more. *)
Theorem process_message_budget (user_input : string) (db : DB)
        (s' : state DB) (r : res unit) :
  process_message' user_input (fresh db) = Some (s', r) ->
  st_step s' <= 10
  /\ st_calls s' <= 3 * st_step s'
  /\ length (st_ops s') <= 4 + 4 * st_step s'
  /\ length (st_events s') <= 3 * st_step s' + 1.
Proof.
  intros Hrun. unfold process_message, process_message_with in Hrun.
  destruct (list_tables eng clean_sql_text db_path false (st_db (fresh db)))
    as [[db1 ops] rt] eqn:Htables.
  pose proof (list_tables_ops_bound DB eng clean_sql_text db_path false
                (st_db (fresh db))) as Hb.
  rewrite Htables in Hb. cbn [fst snd] in Hb.
  rewrite (get_schema_context_tables (fresh db) db1 ops rt Htables) in Hrun.
  cbn [fresh st_ops st_sent st_events st_messages st_step app] in Hrun.
  destruct rt as [[|l]|e];
    try (inversion Hrun; subst s' r; unfold st_calls; simpl; lia).
  destruct (String.eqb (String.concat "" (map (table_desc py) l)) "").
  { inversion Hrun; subst s' r; unfold st_calls; simpl; lia. }
  apply agent_loop_budget in Hrun; [|simpl; unfold max_steps; lia].
  unfold st_calls in *. simpl in Hrun. unfold max_steps in Hrun. lia.
Qed.

(** *** How a run ends *)

Lemma agent_loop_outcome (fuel : nat) :
  forall (s s' : state DB) (r : res unit),
    st_step s <= max_steps ->
    agent_loop' fuel s = Some (s', r) ->
    exists evs,
      st_events s' = (st_events s ++ evs)%list
      /\ match r with
         | Val _ =>
             (exists pre,
                 evs = (pre ++ [step_limit_event])%list
                 /\ no_final_answer pre = true /\ st_step s' = max_steps)
             \/ (exists pre X,
                    evs = (pre ++ [("Final Answer: " ++ X)%string])%list
                    /\ no_final_answer pre = true)
         | Exc _ => no_final_answer evs = true
         end.
Proof.
  induction fuel as [|fuel IH]; intros s s' r Hle Hrun; [discriminate|].
  cbn [agent_loop] in Hrun.
  destruct (st_step s <? max_steps)%nat eqn:Hlt.
  - apply Nat.ltb_lt in Hlt.
    destruct (iteration' s) as [s1 rc] eqn:Hit.
    destruct (iteration_effect s s1 rc Hit)
      as (Hstep & _ & _ & (evs & Hev & _ & Hclass)).
    destruct rc as [[|]|e].
    + assert (Hle1 : st_step s1 <= max_steps) by lia.
      destruct (IH s1 s' r Hle1 Hrun) as (evs' & Hev' & Hout).
      exists (evs ++ evs')%list. rewrite Hev', Hev, app_assoc.
      split; [reflexivity|].
      destruct r as [u|e].
      * destruct Hout as [(pre & -> & Hpre & Hs)|(pre & X & -> & Hpre)].
        -- left. exists (evs ++ pre)%list. rewrite app_assoc.
           rewrite no_final_answer_app, Hclass, Hpre. auto.
        -- right. exists (evs ++ pre)%list, X. rewrite app_assoc.
           rewrite no_final_answer_app, Hclass, Hpre. auto.
      * now rewrite no_final_answer_app, Hclass, Hout.
    + inversion Hrun; subst s' r. exists evs. split; [exact Hev|].
      right. exact Hclass.
    + inversion Hrun; subst s' r. exists evs. now split.
  - apply Nat.ltb_ge in Hlt. unfold after_loop in Hrun.
    assert (E : (max_steps <=? st_step s)%nat = true) by now apply Nat.leb_le.
    rewrite E in Hrun. inversion Hrun; subst s' r.
    exists [step_limit_event]. split; [reflexivity|].
    left. exists []. repeat split. simpl. lia.
Qed.

(** X13.  How a run ends.  A run that returns has yielded the schema
    error alone, or ends with the step-limit error after exactly ten
    passes, or ends with an event [Final Answer: ...]; a run that raises
    has yielded no final answer.  In every case no event before the last
    carries a final answer. *)
Theorem process_message_outcome (user_input : string) (db : DB)
        (s' : state DB) (r : res unit) :
  process_message' user_input (fresh db) = Some (s', r) ->
  match r with
  | Val _ =>
      st_events s' = ["Error: Could not retrieve schema."]
      \/ (exists pre,
             st_events s'
             = (pre ++ ["Error: Agent reached maximum steps without a final answer."])%list
             /\ no_final_answer pre = true /\ st_step s' = 10)
      \/ (exists pre X,
             st_events s' = (pre ++ [("Final Answer: " ++ X)%string])%list
             /\ no_final_answer pre = true)
  | Exc _ => no_final_answer (st_events s') = true
  end.
Proof.
  intros Hrun. unfold process_message, process_message_with in Hrun.
  destruct (schema_context' (fresh db)) as [s1 r1] eqn:Hschema.
  destruct (get_schema_context_locals DB eng py clean_sql_text db_path
              (fresh db) s1 r1 Hschema) as (_ & Hev & _ & _).
  simpl in Hev.
  destruct r1 as [schema|e].
  - destruct (String.eqb schema "").
    + inversion Hrun; subst s' r. left. simpl. now rewrite Hev.
    + apply agent_loop_outcome in Hrun; [|simpl; unfold max_steps; lia].
      destruct Hrun as (evs & Hevs & Hout). simpl in Hevs.
      rewrite Hev in Hevs. simpl in Hevs. rewrite Hevs.
      destruct r as [u|e]; [right|exact Hout]. exact Hout.
  - inversion Hrun; subst s' r. now rewrite Hev.
Qed.

(** *** Nothing sent is taken back *)

Lemma extends_refl (l : list message) : extends l l.
Proof. exists []. now rewrite app_nil_r. Qed.

Lemma extends_trans (a b c : list message) :
  extends a b -> extends b c -> extends a c.
Proof. intros [d ->] [d' ->]. exists (d ++ d')%list. now rewrite app_assoc. Qed.

Lemma extends_app (l d : list message) : extends l (l ++ d).
Proof. now exists d. Qed.

Lemma StronglySorted_snoc {A : Type} (R : A -> A -> Prop) (l : list A) (x : A) :
  StronglySorted R l -> Forall (fun c => R c x) l ->
  StronglySorted R (l ++ [x]).
Proof.
  induction 1 as [|a l Hl IH Ha]; intros Hx; simpl.
  - constructor; constructor.
  - inversion Hx; subst. constructor; [now apply IH|].
    apply Forall_app. split; [exact Ha|now constructor].
Qed.

(** Splits a command along its binds, tests and matches, and closes the
    leaves with the hints of the database given. *)
Ltac keeps_with db :=
  repeat first
    [ apply preserves_ret
    | apply preserves_raise
    | solve [eauto with db]
    | apply preserves_bind; [|intros ?]
    | match goal with
      | |- preserves _ (if ?b then _ else _) => destruct b
      | |- preserves _ (match ?x with _ => _ end) => destruct x
      end ].

Create HintDb grow_db.

Section Grows.

Variable base : list message.

Lemma grows_emit (text : string) :
  preserves (DB:=DB) (grows_from base (DB:=DB)) (emit text).
Proof. intros s H. exact H. Qed.

Lemma grows_incr_step :
  preserves (DB:=DB) (grows_from base (DB:=DB)) (incr_step (DB:=DB)).
Proof. intros s H. exact H. Qed.

Lemma grows_get_client :
  preserves (DB:=DB) (grows_from base (DB:=DB)) (get_client openai_client).
Proof. intros s H. exact H. Qed.

Lemma grows_lift_db {A : Type} (m : dbm DB A) :
  preserves (DB:=DB) (grows_from base (DB:=DB)) (lift_db m).
Proof.
  intros s H. unfold lift_db. destruct (m (st_db s)) as [[db ops] r]. exact H.
Qed.

Lemma grows_last_message :
  preserves (DB:=DB) (grows_from base (DB:=DB)) (last_message (DB:=DB)).
Proof.
  intros s H. unfold last_message. destruct (rev (st_messages s)); exact H.
Qed.

Lemma grows_append (m : message) :
  preserves (DB:=DB) (grows_from base (DB:=DB)) (append_message m).
Proof.
  intros s (Hbase & Hall & Hsorted). repeat split; simpl.
  - apply (extends_trans _ _ _ Hbase). apply extends_app.
  - eapply Forall_impl; [|exact Hall]. intros c [Hc1 Hc2].
    split; [exact Hc1|]. apply (extends_trans _ _ _ Hc2). apply extends_app.
  - exact Hsorted.
Qed.

Lemma grows_call_provider (mode : bool) :
  preserves (DB:=DB) (grows_from base (DB:=DB)) (call_provider provider mode).
Proof.
  intros s (Hbase & Hall & Hsorted). repeat split; simpl.
  - exact Hbase.
  - apply Forall_app. split; [exact Hall|].
    constructor; [|constructor]. split; [exact Hbase|apply extends_refl].
  - apply StronglySorted_snoc; [exact Hsorted|].
    eapply Forall_impl; [|exact Hall]. now intros c [_ Hc].
Qed.

#[local] Hint Resolve grows_emit grows_incr_step grows_get_client
  grows_lift_db grows_last_message grows_append grows_call_provider : grow_db.

Lemma grows_get_completion_loop (mode : bool) (attempts : list nat) :
  preserves (DB:=DB) (grows_from base (DB:=DB))
            (get_completion_loop provider attempts mode).
Proof.
  induction attempts as [|attempt rest IH]; simpl; keeps_with grow_db.
Qed.

#[local] Hint Resolve grows_get_completion_loop : grow_db.

Lemma grows_iteration : preserves (DB:=DB) (grows_from base (DB:=DB)) iteration'.
Proof.
  unfold iteration, get_completion, dispatch, sql_branch. keeps_with grow_db.
Qed.

Lemma grows_agent_loop (fuel : nat) :
  forall (s s' : state DB) (r : res unit),
    grows_from base s -> agent_loop' fuel s = Some (s', r) -> grows_from base s'.
Proof.
  induction fuel as [|fuel IH]; intros s s' r Hs Hrun; [discriminate|].
  simpl in Hrun. destruct (st_step s <? max_steps)%nat.
  - pose proof (grows_iteration s Hs) as Hit.
    destruct (iteration' s) as [s1 [[|]|e]]; simpl in Hit.
    + now apply (IH s1 s' r).
    + inversion Hrun; now subst.
    + inversion Hrun; now subst.
  - unfold after_loop in Hrun.
    destruct (max_steps <=? st_step s)%nat; inversion Hrun; now subst.
Qed.

End Grows.

(** X14.  The conversation only grows.  In every run, each conversation
    sent to the provider opens with the system prompt built from the
    schema text and with the user's input as it was given; each one
    extends all the ones sent before it, and the conversation the run
    ends with extends them all: no message, once sent, is dropped or
    rewritten. *)
Theorem conversation_append_only (user_input : string) (db : DB)
        (s' : state DB) (r : res unit) :
  process_message' user_input (fresh db) = Some (s', r) ->
  StronglySorted extends (st_sent s')
  /\ Forall (fun c =>
               extends c (st_messages s')
               /\ forall s1 schema,
                   schema_context' (fresh db) = (s1, Val schema) ->
                   extends [Msg System (system_prompt schema);
                            Msg User user_input] c)
            (st_sent s').
Proof.
  intros Hrun. unfold process_message, process_message_with in Hrun.
  destruct (schema_context' (fresh db)) as [s1 r1] eqn:Hschema.
  destruct (get_schema_context_locals DB eng py clean_sql_text db_path
              (fresh db) s1 r1 Hschema) as (Hsent & _ & _ & _).
  simpl in Hsent.
  destruct r1 as [schema|e].
  - destruct (String.eqb schema "").
    + inversion Hrun; subst s' r. simpl. rewrite Hsent.
      split; constructor.
    + apply (grows_agent_loop (opening schema user_input)) in Hrun.
      * destruct Hrun as (_ & Hall & Hsorted). split; [exact Hsorted|].
        eapply Forall_impl; [|exact Hall]. intros c [Hc1 Hc2].
        split; [exact Hc2|]. intros s2 schema2 E. now inversion E; subst.
      * repeat split; simpl; [apply extends_refl|rewrite Hsent; constructor..].
  - inversion Hrun; subst s' r. rewrite Hsent. split; constructor.
Qed.

(** *** The branches of a pass *)

(** A pass whose reply parses to an object. *)
Lemma iteration_object (s s1 : state DB) (text : string)
      (fields : list (string * json)) :
  get_completion' true (fst (incr_step s)) = (s1, Val (Some text)) ->
  json_loads py text = LoadsOk (JObj fields) ->
  iteration' s = dispatch' text (JObj fields) s1.
Proof. intros Hc Hj. now rewrite iteration_cases, Hc, Hj. Qed.

(** A pass that runs a statement: the events and the messages it adds,
    by what [run_sql] gives. *)
Lemma iteration_sql (s s1 : state DB) (text : string)
      (fields : list (string * json)) (db' : DB) (ops : list db_op)
      (outcome : res qresult) :
  get_completion' true (fst (incr_step s)) = (s1, Val (Some text)) ->
  json_loads py text = LoadsOk (JObj fields) ->
  json_get fields "type" = JStr "sql" ->
  run_sql eng db_path (json_get fields "sql") (st_db s1) = (db', ops, outcome) ->
  iteration' s
  = match outcome with
    | Val result =>
        if status_ok result then
          (State db' (st_ops s1 ++ ops) (st_sent s1)
                 (st_events s1 ++ thought_events py fields
                  ++ ["Executing SQL: " ++ py_str py (json_get fields "sql");
                      "SQL Result ("
                      ++ PyStr.str_of_nat (length (result_rows result))
                      ++ " rows)"])
                 (st_messages s1
                  ++ [Msg Assistant text;
                      Msg User (result_message py (result_rows result))])
                 (st_step s1),
           Val Continue)
        else
          (State db' (st_ops s1 ++ ops) (st_sent s1)
                 (st_events s1 ++ thought_events py fields
                  ++ ["Executing SQL: " ++ py_str py (json_get fields "sql");
                      "SQL Error: " ++ result_error result])
                 (st_messages s1
                  ++ [Msg Assistant text;
                      Msg User ("SQL Error: " ++ result_error result)])
                 (st_step s1),
           Val Continue)
    | Exc e =>
        (State db' (st_ops s1 ++ ops) (st_sent s1)
               (st_events s1 ++ thought_events py fields
                ++ ["Executing SQL: " ++ py_str py (json_get fields "sql")])
               (st_messages s1) (st_step s1),
         Exc e)
    end.
Proof.
  intros Hc Hj Htype Hrun.
  rewrite (iteration_object s s1 text fields Hc Hj).
  unfold dispatch, thought_events. rewrite Htype.
  change (json_is (JStr "sql") "sql") with true. cbv iota.
  unfold sql_branch.
  destruct (truthy (json_get fields "thought"));
    unfold bind, emit, ret, lift_db, append_message;
    cbn [fst snd st_db st_ops st_sent st_events st_messages st_step];
    rewrite Hrun; destruct outcome as [result|e];
    [destruct (status_ok result)| |destruct (status_ok result)|];
    cbn [fst snd st_db st_ops st_sent st_events st_messages st_step];
    rewrite <- ?app_assoc; reflexivity.
Qed.

(** X15.  A reply that is an object whose [type] is neither [sql] nor
    [answer] (no [type] at all, or [SQL] in capitals) runs nothing: the
    pass yields [Debug: Unknown response type: ...] with the type as
    Python shows it ([None] when the key is absent), appends the complaint
    as a user message, and goes on; the reply itself is not added to the
    conversation. *)
Theorem unknown_type_feedback (s s1 : state DB) (text : string)
        (fields : list (string * json)) :
  get_completion' true (fst (incr_step s)) = (s1, Val (Some text)) ->
  json_loads py text = LoadsOk (JObj fields) ->
  json_is (json_get fields "type") "sql" = false ->
  json_is (json_get fields "type") "answer" = false ->
  iteration' s
  = (State (st_db s1) (st_ops s1) (st_sent s1)
           (st_events s1 ++ thought_events py fields
            ++ ["Debug: Unknown response type: "
                ++ py_str py (json_get fields "type")])
           (st_messages s1
            ++ [Msg User "Error: Unknown response type. Use 'sql' or 'answer'."])
           (st_step s1),
     Val Continue)
  /\ (dict_get fields "type" = None ->
      last (st_events (fst (iteration' s))) ""
      = "Debug: Unknown response type: None").
Proof.
  intros Hc Hj Hsql Hans.
  assert (E : iteration' s
              = (State (st_db s1) (st_ops s1) (st_sent s1)
                       (st_events s1 ++ thought_events py fields
                        ++ ["Debug: Unknown response type: "
                            ++ py_str py (json_get fields "type")])
                       (st_messages s1 ++ [unknown_type_message])
                       (st_step s1),
                 Val Continue)).
  { rewrite (iteration_object s s1 text fields Hc Hj).
    unfold dispatch, thought_events. rewrite Hsql, Hans.
    destruct (truthy (json_get fields "thought"));
      unfold bind, emit, ret, append_message;
      cbn [fst snd st_db st_ops st_sent st_events st_messages st_step];
      rewrite <- ?app_assoc; reflexivity. }
  split; [exact E|].
  intros Hnone. rewrite E. cbn [fst st_events].
  rewrite app_assoc, last_last. unfold json_get. rewrite Hnone. reflexivity.
Qed.


(** X17.  A [sql] decision that carries no statement (no [sql] key, an
    empty or a blank text, or any false value) is answered without
    running anything: on a database that opens, the pass yields
    [SQL Error: Empty SQL query], hands the same text to the model and
    goes on. *)
Theorem empty_statement_feedback (s s1 : state DB) (text : string)
        (fields : list (string * json)) :
  get_completion' true (fst (incr_step s)) = (s1, Val (Some text)) ->
  json_loads py text = LoadsOk (JObj fields) ->
  json_get fields "type" = JStr "sql" ->
  path_exists eng (st_db s1) db_path = true ->
  sqlite_connect eng (st_db s1) db_path = None ->
  truthy (json_get fields "sql") = false
  \/ (exists q, json_get fields "sql" = JStr q /\ PyStr.strip q = "") ->
  iteration' s
  = (State (st_db s1) (st_ops s1 ++ [OpConnect db_path; OpClose]) (st_sent s1)
           (st_events s1 ++ thought_events py fields
            ++ ["Executing SQL: " ++ py_str py (json_get fields "sql");
                "SQL Error: Empty SQL query"])
           (st_messages s1
            ++ [Msg Assistant text; Msg User "SQL Error: Empty SQL query"])
           (st_step s1),
     Val Continue).
Proof.
  intros Hc Hj Htype Hex Hconn Hq.
  assert (Hrun : run_sql eng db_path (json_get fields "sql") (st_db s1)
                 = (st_db s1, [OpConnect db_path; OpClose],
                    Val (error_result "Empty SQL query"))).
  { rewrite (run_sql_connected DB eng db_path _ (st_db s1) Hex Hconn).
    unfold except_sqlite3.
    destruct Hq as [Ht|(q & -> & E)].
    - unfold run_sql_body, db_bind, stripped_query. rewrite Ht. reflexivity.
    - now rewrite (run_sql_body_blank DB eng db_path q (st_db s1) E). }
  rewrite (iteration_sql s s1 text fields _ _ _ Hc Hj Htype Hrun).
  reflexivity.
Qed.

(** *** Runs that raise at the first pass *)

(** The state the loop starts from. *)
Lemma process_message_started (user_input : string) (db : DB)
      (s1 : state DB) (schema : string) :
  schema_context' (fresh db) = (s1, Val schema) ->
  schema <> "" ->
  process_message' user_input (fresh db)
  = agent_loop' (S max_steps)
      (State (st_db s1) (st_ops s1) [] [] (opening schema user_input) 0).
Proof.
  intros Hschema Hne.
  destruct (get_schema_context_locals DB eng py clean_sql_text db_path
              (fresh db) s1 (Val schema) Hschema) as (Hsent & Hev & _ & _).
  simpl in Hsent, Hev.
  unfold process_message, process_message_with. rewrite Hschema.
  destruct (String.eqb_spec schema "") as [E|_]; [contradiction|].
  unfold start_conversation. cbn [fst]. now rewrite Hsent, Hev.
Qed.

(** X18.  A first reply that is no text at all, or that is valid JSON and
    no object (a list, a number, a quoted text), is not reported: it ends
    the run with a [TypeError] or an [AttributeError], after one provider
    call and before any event. *)
Theorem unusable_reply_raises (user_input : string) (db : DB)
        (s1 : state DB) (schema : string) (content : option string) :
  schema_context' (fresh db) = (s1, Val schema) ->
  schema <> "" ->
  openai_client = Val tt ->
  provider 0 true [Msg System (system_prompt schema); Msg User user_input]
  = PContent content ->
  match content with
  | None => True
  | Some text =>
      exists parsed,
        json_loads py text = LoadsOk parsed
        /\ forall fields, parsed <> JObj fields
  end ->
  process_message' user_input (fresh db)
  = Some (State (st_db s1) (st_ops s1)
                [[Msg System (system_prompt schema); Msg User user_input]] []
                [Msg System (system_prompt schema); Msg User user_input] 1,
          Exc match content with
              | None =>
                  OtherException "TypeError"
                    "the JSON object must be str, bytes or bytearray, not NoneType"
              | Some _ =>
                  OtherException "AttributeError"
                    "object has no attribute 'get'"
              end).
Proof.
  intros Hschema Hne Hbuilt Hp Hcontent.
  rewrite (process_message_started user_input db s1 schema Hschema Hne).
  cbn [agent_loop st_step max_steps Nat.ltb Nat.leb].
  rewrite iteration_cases.
  rewrite (get_completion_first DB provider openai_client Hbuilt
             (fst (incr_step
                     (State (st_db s1) (st_ops s1) [] []
                            (opening schema user_input) 0)))
             content Hp).
  destruct content as [text|]; [|reflexivity].
  destruct Hcontent as (parsed & -> & Hno).
  destruct parsed; try reflexivity. now elim (Hno fields).
Qed.

(** X19.  The client object is built inside [get_completion], outside its
    [try]: when building it raises (no API key at hand), the exception
    ends the run at the first pass, with no provider call and no event;
    the schema has been read by then. *)
Theorem client_failure_raises (user_input : string) (db : DB)
        (s1 : state DB) (schema : string) (e : exn) :
  schema_context' (fresh db) = (s1, Val schema) ->
  schema <> "" ->
  openai_client = Exc e ->
  process_message' user_input (fresh db)
  = Some (State (st_db s1) (st_ops s1) [] []
                [Msg System (system_prompt schema); Msg User user_input] 1,
          Exc e).
Proof.
  intros Hschema Hne Hclient.
  rewrite (process_message_started user_input db s1 schema Hschema Hne).
  cbn [agent_loop st_step max_steps Nat.ltb Nat.leb].
  rewrite iteration_cases.
  unfold get_completion, bind, get_client. rewrite Hclient. reflexivity.
Qed.

End AgentCoverage.

(** * Properties of the chat front end *)

Section AppCoverage.

Variable DB : Type.
Variable eng : engine DB.
Variable py : pylib.
Variable clean_sql_text : string -> string.
Variable provider : nat -> bool -> list message -> presp.
Variable openai_client : res unit.
Variable db_path : string.

Local Abbreviation process_message' :=
  (process_message eng py clean_sql_text provider openai_client db_path).
Local Abbreviation respond' :=
  (respond eng py clean_sql_text provider openai_client db_path).

Lemma prefix_append (a x : string) : prefix a (a ++ x) = true.
Proof.
  induction a as [|c a IH]; simpl; [now destruct x|].
  destruct (ascii_dec c c) as [_|H]; [exact IH|now elim H].
Qed.

Lemma length_append (a b : string) :
  String.length (a ++ b) = String.length a + String.length b.
Proof. induction a as [|c a IH]; simpl; [reflexivity|now rewrite IH]. Qed.

(** Every update adds a line. *)
Lemma render_update_line (update : string) :
  exists rest, render_update update = PyStr.nl ++ rest.
Proof.
  unfold render_update.
  repeat match goal with
         | |- context [if ?b then _ else _] => destruct b
         end; eexists; reflexivity.
Qed.

Lemma respond_outputs_length (updates : list string) :
  forall full, length (respond_outputs full updates) = length updates.
Proof.
  induction updates as [|u rest IH]; intros full; simpl; [reflexivity|].
  now rewrite IH.
Qed.

Lemma respond_outputs_step (updates : list string) :
  forall full i a b,
    nth_error (full :: respond_outputs full updates) i = Some a ->
    nth_error (full :: respond_outputs full updates) (S i) = Some b ->
    exists u, nth_error updates i = Some u /\ b = a ++ render_update u.
Proof.
  induction updates as [|u rest IH]; intros full i a b Ha Hb.
  - destruct i; discriminate Hb.
  - destruct i as [|i].
    + simpl in Ha, Hb. inversion Ha; inversion Hb; subst. now exists u.
    + apply (IH (full ++ render_update u) i a b); assumption.
Qed.

(** What [respond] has built after all the updates. *)
Lemma respond_outputs_last (updates : list string) :
  forall full u,
    last (respond_outputs full (updates ++ [u])) ""
    = fold_left (fun acc x => acc ++ render_update x) updates full
      ++ render_update u.
Proof.
  induction updates as [|v rest IH]; intros full u; [reflexivity|].
  change (respond_outputs full ((v :: rest) ++ [u]))
    with ((full ++ render_update v)
            :: respond_outputs (full ++ render_update v) (rest ++ [u])).
  cbn [fold_left]. rewrite <- IH.
  destruct (respond_outputs (full ++ render_update v) (rest ++ [u])) eqn:E;
    [|reflexivity].
  apply (f_equal (@length string)) in E.
  rewrite respond_outputs_length, length_app in E. simpl in E. lia.
Qed.

(** X20.  The chat window only grows: [respond] yields one text per event
    of the agent, and each text is the one before it (the empty text at
    the start) with the rendering of that event appended, which is never
    empty. *)
Theorem respond_grows (message : string) (history : list (string * string))
        (db : DB) (outs : list string) (r : res unit) :
  respond' message history db = Some (outs, r) ->
  exists s',
    process_message' message (fresh db) = Some (s', r)
    /\ length outs = length (st_events s')
    /\ forall i a b,
        nth_error ("" :: outs) i = Some a ->
        nth_error ("" :: outs) (S i) = Some b ->
        exists u,
          nth_error (st_events s') i = Some u
          /\ b = a ++ render_update u
          /\ prefix a b = true
          /\ String.length a < String.length b.
Proof.
  unfold respond. intros H.
  destruct (process_message' message (fresh db)) as [[s' r']|]; [|discriminate].
  inversion H; subst outs r'. exists s'. split; [reflexivity|].
  split; [apply respond_outputs_length|].
  intros i a b Ha Hb.
  destruct (respond_outputs_step (st_events s') "" i a b Ha Hb) as (u & Hu & ->).
  exists u. repeat split; [exact Hu|apply prefix_append|].
  destruct (render_update_line u) as [rest ->].
  rewrite length_append. simpl. lia.
Qed.

(** Cutting the marker out of an event that starts with it. *)
Lemma replace_final_marker (X : string) :
  py_replace "Final Answer:" "" ("Final Answer: " ++ X)
  = " " ++ py_replace "Final Answer:" "" X.
Proof. reflexivity. Qed.

Lemma space_len_space (s : string) : PyStr.space_len (String " " s) = 1.
Proof. destruct s; reflexivity. Qed.

Lemma strip_leading_space (s : string) : PyStr.strip (" " ++ s) = PyStr.strip s.
Proof.
  unfold PyStr.strip, PyStr.lstrip. change (" " ++ s) with (String " " s).
  cbn [PyStr.drop_space]. now rewrite space_len_space.
Qed.

(** A text without the marker is left as it is. *)
Lemma replace_absent (old new s : string) :
  PyStr.contains old s = false -> py_replace old new s = s.
Proof.
  unfold py_replace. induction s as [|c s IH]; intros H; [reflexivity|].
  cbn [PyStr.contains] in H. cbn [replace_from].
  destruct (prefix old (String c s)); [discriminate H|].
  now rewrite IH.
Qed.

Lemma render_final_answer (X : string) :
  render_update ("Final Answer: " ++ X)
  = PyStr.nl ++ PyStr.nl ++ "**Answer:** "
    ++ PyStr.strip (py_replace "Final Answer:" "" X).
Proof.
  unfold render_update.
  change (prefix "Final Answer:" ("Final Answer: " ++ X)) with true.
  cbv iota zeta.
  now rewrite replace_final_marker, strip_leading_space.
Qed.

(** X21.  The answer as the chat window shows it.  When a run ends with
    the event [Final Answer: X], the last text of [respond] ends with a
    blank line, the label, and [X] with every occurrence of the marker
    [Final Answer:] cut out of it and the white space around the rest
    trimmed; an answer that does not hold the marker is shown as it is,
    trimmed. *)
Theorem respond_final_answer (message : string)
        (history : list (string * string)) (db : DB) (s' : state DB)
        (X : string) :
  process_message' message (fresh db) = Some (s', Val tt) ->
  last (st_events s') "" = "Final Answer: " ++ X ->
  exists outs shown,
    respond' message history db = Some (outs, Val tt)
    /\ last outs ""
       = shown ++ PyStr.nl ++ PyStr.nl ++ "**Answer:** "
         ++ PyStr.strip (py_replace "Final Answer:" "" X)
    /\ (PyStr.contains "Final Answer:" X = false ->
        last outs ""
        = shown ++ PyStr.nl ++ PyStr.nl ++ "**Answer:** " ++ PyStr.strip X).
Proof.
  intros Hrun Hlast. unfold respond. rewrite Hrun.
  assert (Hne : st_events s' <> []).
  { intros E. rewrite E in Hlast. discriminate Hlast. }
  destruct (exists_last Hne) as (updates & u & E).
  rewrite E in Hlast. rewrite last_last in Hlast. subst u.
  exists (respond_outputs "" (st_events s')),
    (fold_left (fun acc x => acc ++ render_update x) updates "").
  split; [reflexivity|].
  rewrite E, respond_outputs_last, render_final_answer.
  split; [reflexivity|].
  intros Habsent. now rewrite (replace_absent _ _ _ Habsent).
Qed.

End AppCoverage.

(** ** The agent's further properties on the concrete world *)

(** The schema text of a table and a view without DDL. *)
Lemma get_schema_context_describes_tables_witness :
  exists schema,
    get_schema_context DemoMore.two_objects_sqlite Demo.python Demo.clean
                       Demo.db_file (fresh 3)
    = (DemoMore.schema_read 3, Val schema)
    /\ schema
       = "Table: t" ++ PyStr.nl ++ "CREATE TABLE t (a INTEGER)" ++ PyStr.nl
         ++ PyStr.nl ++ "Table: v" ++ PyStr.nl ++ PyStr.nl ++ PyStr.nl
    /\ schema <> "".
Proof.
  apply (get_schema_context_describes_tables nat DemoMore.two_objects_sqlite
           Demo.python Demo.clean Demo.db_file (fresh 3) 3
           (Cursor (Some ["name"; "type"; "sql"]) (Val DemoMore.two_objects)
                   (-1) None)
           DemoMore.two_objects);
    try reflexivity.
  discriminate.
Defined.

(** A database without tables. *)
Lemma process_message_empty_catalogue_witness :
  process_message DemoMore.empty_sqlite Demo.python Demo.clean Demo.chatty
                  (Val tt) Demo.db_file "How many rows are there?" (fresh 3)
  = Some (State 3
                [OpConnect Demo.db_file; OpExecute master_query; OpFetchall;
                 OpClose]
                [] ["Error: Could not retrieve schema."] [] 0,
          Val tt).
Proof.
  apply (process_message_empty_catalogue nat DemoMore.empty_sqlite Demo.python
           Demo.clean Demo.chatty (Val tt) Demo.db_file
           "How many rows are there?" 3 3
           (Cursor (Some ["name"; "type"; "sql"]) (Val []) (-1) None));
    reflexivity.
Defined.

(** A file that is no database. *)
Lemma process_message_catalogue_error_witness :
  process_message DemoMore.broken_sqlite Demo.python Demo.clean Demo.chatty
                  (Val tt) Demo.db_file "How many rows are there?" (fresh 3)
  = Some (State 3 [OpConnect Demo.db_file; OpExecute master_query; OpClose]
                [] [] [] 0,
          Exc (Sqlite3Error "file is not a database")).
Proof.
  apply (process_message_catalogue_error nat DemoMore.broken_sqlite Demo.python
           Demo.clean Demo.chatty (Val tt) Demo.db_file
           "How many rows are there?" 3 3 DemoMore.not_a_database);
    reflexivity.
Defined.

(** A format failure, then an answer: two calls and one reminder. *)
Lemma get_completion_contract_witness :
  let s := demo_state 3 in
  let s' := after_calls s
              [st_messages s; (st_messages s ++ [json_reminder])%list]
              (st_messages s ++ [json_reminder])%list in
  st_db s' = st_db s /\ st_ops s' = st_ops s /\ st_events s' = st_events s
  /\ st_step s' = st_step s
  /\ st_calls s <= st_calls s' <= st_calls s + 3
  /\ (st_messages s' = st_messages s
      \/ (st_messages s' = (st_messages s ++ [json_reminder])%list
          /\ ends_with_system (st_messages s) = false))
  /\ ((Val tt : res unit) = Val tt -> st_messages s <> [] ->
      st_calls s < st_calls s'
      /\ exists content, Val (Some (Demo.answer_text "42")) = Val content).
Proof.
  apply (get_completion_contract nat (Demo.fails_once "Error code: 400")
           (Val tt) true (demo_state 3)).
  reflexivity.
Defined.

(** A run that ends at its first pass stays within the bounds. *)
Lemma process_message_budget_witness :
  exists s' r,
    process_message Demo.sqlite Demo.python Demo.clean (Demo.answers "42")
                    (Val tt) Demo.db_file "How many rows are there?" (fresh 3)
    = Some (s', r)
    /\ st_step s' <= 10
    /\ st_calls s' <= 3 * st_step s'
    /\ length (st_ops s') <= 4 + 4 * st_step s'
    /\ length (st_events s') <= 3 * st_step s' + 1.
Proof.
  eexists. eexists. split; [vm_compute; reflexivity|].
  apply (process_message_budget nat Demo.sqlite Demo.python Demo.clean
           (Demo.answers "42") (Val tt) Demo.db_file
           "How many rows are there?" 3 _ (Val tt)).
  vm_compute. reflexivity.
Defined.

(** A run that ends with an answer. *)
Lemma process_message_outcome_witness :
  exists s',
    process_message Demo.sqlite Demo.python Demo.clean (Demo.answers "42")
                    (Val tt) Demo.db_file "How many rows are there?" (fresh 3)
    = Some (s', Val tt)
    /\ (st_events s' = ["Error: Could not retrieve schema."]
        \/ (exists pre,
               st_events s'
               = (pre ++ ["Error: Agent reached maximum steps without a final answer."])%list
               /\ no_final_answer pre = true /\ st_step s' = 10)
        \/ (exists pre X,
               st_events s' = (pre ++ [("Final Answer: " ++ X)%string])%list
               /\ no_final_answer pre = true)).
Proof.
  eexists. split; [vm_compute; reflexivity|].
  apply (process_message_outcome nat Demo.sqlite Demo.python Demo.clean
           (Demo.answers "42") (Val tt) Demo.db_file
           "How many rows are there?" 3 _ (Val tt)).
  vm_compute. reflexivity.
Defined.

(** A run with a reminder: the second conversation sent extends the
    first. *)
Lemma conversation_append_only_witness :
  exists s',
    process_message Demo.sqlite Demo.python Demo.clean
                    (Demo.fails_once "Error code: 400") (Val tt) Demo.db_file
                    "hi" (fresh 3)
    = Some (s', Val tt)
    /\ length (st_sent s') = 2
    /\ StronglySorted extends (st_sent s')
    /\ Forall (fun c =>
                 extends c (st_messages s')
                 /\ forall s1 schema,
                     get_schema_context Demo.sqlite Demo.python Demo.clean
                                        Demo.db_file (fresh 3)
                     = (s1, Val schema) ->
                     extends [Msg System (system_prompt schema);
                              Msg User "hi"] c)
              (st_sent s').
Proof.
  eexists. split; [vm_compute; reflexivity|]. split; [reflexivity|].
  apply (conversation_append_only nat Demo.sqlite Demo.python Demo.clean
           (Demo.fails_once "Error code: 400") (Val tt) Demo.db_file
           "hi" 3 _ (Val tt)).
  vm_compute. reflexivity.
Defined.

(** A reply that carries a thought and no type. *)
Lemma unknown_type_feedback_witness :
  iteration Demo.sqlite Demo.python DemoMore.wonders (Val tt) Demo.db_file
            (demo_state 3)
  = (State 3 [] [st_messages (demo_state 3)]
           ["Thought: hm"; "Debug: Unknown response type: None"]
           (st_messages (demo_state 3)
            ++ [Msg User "Error: Unknown response type. Use 'sql' or 'answer'."])
           1,
     Val Continue)
  /\ last (st_events
             (fst (iteration Demo.sqlite Demo.python DemoMore.wonders (Val tt)
                             Demo.db_file (demo_state 3)))) ""
     = "Debug: Unknown response type: None".
Proof.
  destruct (unknown_type_feedback nat Demo.sqlite Demo.python DemoMore.wonders
              (Val tt) Demo.db_file (demo_state 3) (demo_called 3)
              ("{" ++ Demo.field "thought" "hm" ++ "}")
              [("thought", JStr "hm")])
    as [Hrun Hlast]; try reflexivity.
  split; [exact Hrun|]. apply Hlast. reflexivity.
Defined.


(** A statement of blanks. *)
Lemma empty_statement_feedback_witness :
  iteration Demo.sqlite Demo.python (Demo.asks "   ") (Val tt) Demo.db_file
            (demo_state 3)
  = (State 3 [OpConnect Demo.db_file; OpClose]
           [st_messages (demo_state 3)]
           ["Executing SQL:    "; "SQL Error: Empty SQL query"]
           (st_messages (demo_state 3)
            ++ [Msg Assistant (Demo.sql_text "   ");
                Msg User "SQL Error: Empty SQL query"])
           1,
     Val Continue).
Proof.
  apply (empty_statement_feedback nat Demo.sqlite Demo.python
           (Demo.asks "   ") (Val tt) Demo.db_file
           (demo_state 3) (demo_called 3) (Demo.sql_text "   ")
           [("type", JStr "sql"); ("sql", JStr "   ")]);
    try reflexivity.
  right. exists "   ". split; reflexivity.
Defined.

(** A reply that is the empty JSON list. *)
Lemma unusable_reply_raises_witness :
  process_message Demo.sqlite DemoMore.python Demo.clean DemoMore.lists
                  (Val tt) Demo.db_file "hi" (fresh 3)
  = Some (State 3 (st_ops (DemoMore.schema_read 3))
                [[Msg System (system_prompt DemoMore.schema_text);
                  Msg User "hi"]] []
                [Msg System (system_prompt DemoMore.schema_text);
                 Msg User "hi"] 1,
          Exc (OtherException "AttributeError" "object has no attribute 'get'")).
Proof.
  apply (unusable_reply_raises nat Demo.sqlite DemoMore.python Demo.clean
           DemoMore.lists (Val tt) Demo.db_file "hi" 3
           (DemoMore.schema_read 3) DemoMore.schema_text (Some "[]"));
    try reflexivity.
  - discriminate.
  - exists (JArr []). split; [reflexivity|]. discriminate.
Defined.

(** No API key. *)
Lemma client_failure_raises_witness :
  process_message Demo.sqlite Demo.python Demo.clean Demo.chatty
                  (Exc DemoMore.no_api_key) Demo.db_file "hi" (fresh 3)
  = Some (State 3 (st_ops (DemoMore.schema_read 3)) [] []
                [Msg System (system_prompt DemoMore.schema_text);
                 Msg User "hi"] 1,
          Exc DemoMore.no_api_key).
Proof.
  apply (client_failure_raises nat Demo.sqlite Demo.python Demo.clean
           Demo.chatty (Exc DemoMore.no_api_key) Demo.db_file "hi" 3
           (DemoMore.schema_read 3) DemoMore.schema_text DemoMore.no_api_key);
    try reflexivity.
  discriminate.
Defined.

(** The chat window over a run of two passes. *)
Lemma respond_grows_witness :
  exists outs r s',
    respond Demo.sqlite Demo.python Demo.clean (Demo.asks "SELEC") (Val tt)
            Demo.db_file "hi" [] 3
    = Some (outs, r)
    /\ process_message Demo.sqlite Demo.python Demo.clean (Demo.asks "SELEC")
                       (Val tt) Demo.db_file "hi" (fresh 3)
       = Some (s', r)
    /\ length outs = length (st_events s')
    /\ forall i a b,
        nth_error ("" :: outs) i = Some a ->
        nth_error ("" :: outs) (S i) = Some b ->
        exists u,
          nth_error (st_events s') i = Some u
          /\ b = a ++ render_update u
          /\ prefix a b = true
          /\ String.length a < String.length b.
Proof.
  eexists. eexists.
  destruct (respond_grows nat Demo.sqlite Demo.python Demo.clean
              (Demo.asks "SELEC") (Val tt) Demo.db_file "hi" [] 3 _ _
              ltac:(vm_compute; reflexivity))
    as (s' & Hrun & Hlen & Hstep).
  exists s'. split; [vm_compute; reflexivity|].
  split; [exact Hrun|]. split; [exact Hlen|exact Hstep].
Defined.

(** An answer with blanks around it. *)
Lemma respond_final_answer_witness :
  exists outs shown,
    respond Demo.sqlite Demo.python Demo.clean (Demo.answers " 42 ") (Val tt)
            Demo.db_file "hi" [] 3
    = Some (outs, Val tt)
    /\ last outs ""
       = shown ++ PyStr.nl ++ PyStr.nl ++ "**Answer:** "
         ++ PyStr.strip (py_replace "Final Answer:" "" " 42 ")
    /\ last outs "" = shown ++ PyStr.nl ++ PyStr.nl ++ "**Answer:** 42".
Proof.
  destruct (respond_final_answer nat Demo.sqlite Demo.python Demo.clean
              (Demo.answers " 42 ") (Val tt) Demo.db_file "hi" [] 3
              (State 3 (st_ops (DemoMore.schema_read 3))
                     [[Msg System (system_prompt DemoMore.schema_text);
                       Msg User "hi"]]
                     ["Final Answer:  42 "]
                     [Msg System (system_prompt DemoMore.schema_text);
                      Msg User "hi"] 1)
              " 42 ")
    as (outs & shown & Hrun & Hlast & Hplain); try reflexivity.
  exists outs, shown. split; [exact Hrun|]. split; [exact Hlast|].
  rewrite Hplain; reflexivity.
Defined.

(** * Properties of [clean_sql] *)

Lemma occurs_app (c : ascii) (a b : string) :
  occurs c (a ++ b) = occurs c a || occurs c b.
Proof.
  induction a as [|c' a IH]; simpl; [reflexivity|].
  now rewrite IH, orb_assoc.
Qed.

Lemma prefix_of_empty (s : string) : prefix "" s = true.
Proof. now destruct s. Qed.

(** *** Characters that stay out *)

Lemma replace_from_occurs (c : ascii) (old new : string) :
  occurs c new = false ->
  forall s skip,
    occurs c s = false -> occurs c (replace_from old new skip s) = false.
Proof.
  intros Hnew. induction s as [|c' s IH]; intros skip Hs; [reflexivity|].
  simpl in Hs. apply orb_false_iff in Hs as [Hc Hs].
  cbn [replace_from]. destruct skip; [|now apply IH].
  destruct (prefix old (String c' s)).
  - rewrite occurs_app, Hnew. now apply IH.
  - simpl. rewrite Hc. now apply IH.
Qed.

Lemma py_replace_occurs (c : ascii) (old new s : string) :
  occurs c new = false -> occurs c s = false ->
  occurs c (py_replace old new s) = false.
Proof. intros Hnew Hs. now apply replace_from_occurs. Qed.

(** Replacing a character takes it out. *)
Lemma py_replace_removes (c : ascii) (new : string) :
  occurs c new = false ->
  forall s, occurs c (py_replace (String c "") new s) = false.
Proof.
  intros Hnew. unfold py_replace.
  induction s as [|c' s IH]; [reflexivity|].
  cbn [replace_from prefix].
  destruct (ascii_dec c c') as [<-|Hne].
  - rewrite prefix_of_empty. simpl String.length. cbn [Nat.sub].
    now rewrite occurs_app, Hnew, IH.
  - simpl. rewrite IH, orb_false_r. apply Ascii.eqb_neq. congruence.
Qed.

Lemma until_paren_occurs (c : ascii) (s : string) :
  forall head after,
    CleanSql.until_paren s = Some (head, after) ->
    occurs c s = false -> occurs c head = false.
Proof.
  induction s as [|c' s IH]; intros head after H Hs; [discriminate|].
  simpl in H, Hs. apply orb_false_iff in Hs as [Hc Hs].
  destruct (Ascii.eqb c' "(").
  - now inversion H.
  - destruct (CleanSql.until_paren s) as [[h a]|] eqn:E; [|discriminate].
    inversion H; subst head after. simpl. rewrite Hc.
    now apply (IH h a).
Qed.

Lemma match_create_head (s head rest : string) :
  CleanSql.match_create s = Some (head, rest) ->
  exists after, CleanSql.until_paren s = Some (head, after).
Proof.
  unfold CleanSql.match_create.
  destruct (CleanSql.until_paren s) as [[h a]|]; [|discriminate].
  destruct (CleanSql.match_ci "CREATE" h) as [r1|]; [|discriminate].
  destruct (PyStr.space_len r1); [discriminate|].
  destruct (CleanSql.match_kind (PyStr.lstrip r1)) as [r3|]; [|discriminate].
  destruct (PyStr.space_len r3); [discriminate|].
  destruct (_ <? _)%nat; [|discriminate].
  intros H. inversion H; subst. now exists a.
Qed.

Lemma sub_create_occurs (c : ascii) :
  occurs c ("(" ++ PyStr.nl) = false ->
  forall s skip,
    occurs c s = false -> occurs c (CleanSql.sub_create skip s) = false.
Proof.
  intros Hnew. induction s as [|c' s IH]; intros skip Hs; [reflexivity|].
  cbn [CleanSql.sub_create]. destruct skip.
  2:{ apply IH. simpl in Hs. now apply orb_false_iff in Hs. }
  destruct (CleanSql.match_create (String c' s)) as [[head rest]|] eqn:E.
  - destruct (match_create_head _ _ _ E) as [after Hhead].
    rewrite occurs_app, (until_paren_occurs c _ head after Hhead Hs).
    change ("(" ++ PyStr.nl ++ CleanSql.sub_create
              (String.length (String c' s) - String.length rest - 1) s)
      with (("(" ++ PyStr.nl) ++ CleanSql.sub_create
              (String.length (String c' s) - String.length rest - 1) s).
    rewrite occurs_app, Hnew. apply IH.
    simpl in Hs. now apply orb_false_iff in Hs.
  - simpl in Hs |- *. apply orb_false_iff in Hs as [Hc Hs].
    rewrite Hc. now apply IH.
Qed.

Lemma sub_blanks_occurs (c : ascii) :
  occurs c " " = false ->
  forall s in_run,
    occurs c s = false -> occurs c (CleanSql.sub_blanks in_run s) = false.
Proof.
  intros Hnew. induction s as [|c' s IH]; intros in_run Hs; [reflexivity|].
  simpl in Hs. apply orb_false_iff in Hs as [Hc Hs].
  cbn [CleanSql.sub_blanks].
  destruct (Ascii.eqb c' " " || Ascii.eqb c' CleanSql.tab).
  - destruct in_run; [now apply IH|].
    change (String " " (CleanSql.sub_blanks true s))
      with (" " ++ CleanSql.sub_blanks true s).
    rewrite occurs_app, Hnew. now apply IH.
  - simpl. rewrite Hc. now apply IH.
Qed.

Lemma sub_with_space_occurs (c0 c : ascii) (repl : string) :
  occurs c repl = false ->
  forall s eating pending,
    occurs c s = false ->
    occurs c (CleanSql.sub_with_space c0 repl eating pending s) = false.
Proof.
  intros Hnew. induction s as [|c' s IH]; intros eating pending Hs;
    [reflexivity|].
  simpl in Hs. apply orb_false_iff in Hs as [Hc Hs].
  cbn [CleanSql.sub_with_space]. destruct pending; [|now apply IH].
  cbv zeta.
  assert (Hplain :
            occurs c
              (if Ascii.eqb c' c0
               then repl ++ CleanSql.sub_with_space c0 repl true 0 s
               else String c' (CleanSql.sub_with_space c0 repl false 0 s))
            = false).
  { destruct (Ascii.eqb c' c0).
    - rewrite occurs_app, Hnew. now apply IH.
    - simpl. rewrite Hc. now apply IH. }
  destruct eating; [|exact Hplain].
  destruct (PyStr.space_len (String c' s)); [exact Hplain|now apply IH].
Qed.

(** The character whose matches are replaced is gone when the replacement
    does not hold it. *)
Lemma sub_with_space_removes (c : ascii) (repl : string) :
  occurs c repl = false ->
  forall s eating pending,
    occurs c (CleanSql.sub_with_space c repl eating pending s) = false.
Proof.
  intros Hnew. induction s as [|c' s IH]; intros eating pending;
    [reflexivity|].
  cbn [CleanSql.sub_with_space]. destruct pending; [|now apply IH].
  cbv zeta.
  assert (Hplain :
            occurs c
              (if Ascii.eqb c' c
               then repl ++ CleanSql.sub_with_space c repl true 0 s
               else String c' (CleanSql.sub_with_space c repl false 0 s))
            = false).
  { destruct (Ascii.eqb c' c) eqn:E.
    - rewrite occurs_app, Hnew. now apply IH.
    - simpl. rewrite E. now apply IH. }
  destruct eating; [|exact Hplain].
  destruct (PyStr.space_len (String c' s)); [exact Hplain|now apply IH].
Qed.

Lemma drop_space_occurs (c : ascii) (s : string) :
  forall pending,
    occurs c s = false -> occurs c (PyStr.drop_space pending s) = false.
Proof.
  induction s as [|c' s IH]; intros pending Hs; [reflexivity|].
  cbn [PyStr.drop_space].
  assert (Hs' : occurs c s = false)
    by (simpl in Hs; now apply orb_false_iff in Hs).
  destruct pending; [|now apply IH].
  destruct (PyStr.space_len (String c' s)); [exact Hs|now apply IH].
Qed.

Lemma rstrip_occurs (c : ascii) (s : string) :
  occurs c s = false -> occurs c (PyStr.rstrip s) = false.
Proof.
  induction s as [|c' s IH]; intros Hs; [reflexivity|].
  simpl in Hs. apply orb_false_iff in Hs as [Hc Hs].
  cbn [PyStr.rstrip]. destruct (PyStr.lstrip (String c' s)); [reflexivity|].
  simpl. rewrite Hc. now apply IH.
Qed.

Lemma strip_occurs (c : ascii) (s : string) :
  occurs c s = false -> occurs c (PyStr.strip s) = false.
Proof.
  intros Hs. unfold PyStr.strip, PyStr.lstrip.
  apply rstrip_occurs. now apply drop_space_occurs.
Qed.

Lemma split_on_occurs (c sep : ascii) (s : string) :
  occurs c s = false ->
  Forall (fun part => occurs c part = false) (split_on sep s).
Proof.
  induction s as [|c' s IH]; intros Hs; [now repeat constructor|].
  simpl in Hs. apply orb_false_iff in Hs as [Hc Hs].
  cbn [split_on]. specialize (IH Hs).
  destruct (Ascii.eqb c' sep); [now constructor|].
  destruct (split_on sep s) as [|part parts].
  - repeat constructor. simpl. now rewrite Hc.
  - inversion IH; subst. constructor; [|assumption].
    simpl. now rewrite Hc.
Qed.

Lemma stripped_lines_occurs (c : ascii) (s : string) :
  occurs c s = false ->
  Forall (fun line => occurs c line = false) (CleanSql.stripped_lines s).
Proof.
  intros Hs. unfold CleanSql.stripped_lines.
  apply Forall_forall. intros line Hin.
  apply filter_In in Hin as [Hin _].
  apply in_map_iff in Hin as (part & <- & Hin).
  apply strip_occurs.
  pose proof (split_on_occurs c CleanSql.lf s Hs) as Hall.
  rewrite Forall_forall in Hall. now apply Hall.
Qed.

Lemma repeat_char_occurs (c : ascii) (n : nat) :
  occurs c " " = false -> occurs c (repeat_char " " n) = false.
Proof.
  intros H. induction n as [|n IH]; [reflexivity|].
  simpl in H |- *. apply orb_false_iff in H as [H _]. now rewrite H.
Qed.

Lemma indent_lines_occurs (c : ascii) :
  occurs c " " = false ->
  forall lines level,
    Forall (fun line => occurs c line = false) lines ->
    Forall (fun line => occurs c line = false)
           (CleanSql.indent_lines level lines).
Proof.
  intros Hnew. induction lines as [|line rest IH]; intros level Hall;
    [constructor|].
  inversion Hall; subst. cbn [CleanSql.indent_lines]. cbv zeta.
  constructor; [|now apply IH].
  rewrite occurs_app, repeat_char_occurs by exact Hnew. assumption.
Qed.

Lemma join_occurs (c : ascii) (sep : string) :
  occurs c sep = false ->
  forall parts,
    Forall (fun part => occurs c part = false) parts ->
    occurs c (PyStr.join sep parts) = false.
Proof.
  intros Hsep. induction parts as [|p ps IH]; intros Hall; [reflexivity|].
  inversion Hall; subst. cbn [PyStr.join].
  destruct ps as [|q ps]; [assumption|].
  rewrite !occurs_app, Hsep. rewrite IH by assumption.
  now rewrite orb_false_r.
Qed.

Lemma sub_newlines_occurs (c : ascii) (s : string) :
  forall run,
    occurs c s = false -> occurs c (CleanSql.sub_newlines run s) = false.
Proof.
  induction s as [|c' s IH]; intros run Hs; [reflexivity|].
  simpl in Hs. apply orb_false_iff in Hs as [Hc Hs].
  cbn [CleanSql.sub_newlines].
  destruct (Ascii.eqb c' CleanSql.lf); [destruct (run <? 2)%nat|];
    simpl; rewrite ?Hc; now apply IH.
Qed.

(** The steps of [clean_sql] after line 11 bring in no character but
    [(], the newline, the space and the comma. *)
Lemma clean_sql_steps_occur (c : ascii) (s : string) :
  occurs c ("(" ++ PyStr.nl ++ ", ") = false ->
  occurs c s = false ->
  occurs c
    (py_replace "," ", "
       (CleanSql.sub_with_space CleanSql.lf "" false 0
          (py_replace "\n" ""
             (PyStr.strip
                (CleanSql.sub_newlines 0
                   (PyStr.join PyStr.nl
                      (CleanSql.indent_lines 0
                         (CleanSql.stripped_lines
                            (CleanSql.sub_with_space "," ("," ++ PyStr.nl)
                               false 0
                               (CleanSql.sub_blanks false
                                  (CleanSql.sub_create 0 s))))))))))) = false.
Proof.
  intros Hnew Hs. simpl in Hnew.
  apply orb_false_iff in Hnew as [Hparen Hnew].
  apply orb_false_iff in Hnew as [Hlf Hnew].
  apply orb_false_iff in Hnew as [Hcomma Hnew].
  apply orb_false_iff in Hnew as [Hspace _].
  apply py_replace_occurs; [simpl; now rewrite Hcomma, Hspace|].
  apply sub_with_space_occurs; [reflexivity|].
  apply py_replace_occurs; [reflexivity|].
  apply strip_occurs, sub_newlines_occurs.
  apply join_occurs; [simpl; now rewrite Hlf|].
  apply indent_lines_occurs; [simpl; now rewrite Hspace|].
  apply stripped_lines_occurs.
  apply sub_with_space_occurs; [simpl; now rewrite Hcomma, Hlf|].
  apply sub_blanks_occurs; [simpl; now rewrite Hspace|].
  apply sub_create_occurs; [simpl; now rewrite Hparen, Hlf|].
  exact Hs.
Qed.

(** X22.  What [clean_sql] returns is one line without the quoting of
    identifiers: it holds no newline, no carriage return, no double quote
    and no square bracket, whatever the DDL text is. *)
Theorem clean_sql_removed_characters (sql_text : sqlval) (cleaned : string)
        (c : ascii) :
  clean_sql clean_sql_body sql_text = Val cleaned ->
  In c [CleanSql.lf; CleanSql.cr; ascii_of_nat 34; "["%char; "]"%char] ->
  occurs c cleaned = false.
Proof.
  unfold clean_sql. intros H Hin.
  destruct (negb (sqlval_truthy sql_text)); [now inversion H|].
  destruct sql_text as [| | |s|]; try discriminate H.
  inversion H; subst cleaned; clear H.
  unfold clean_sql_body. cbv zeta.
  destruct Hin as [<-|[<-|[<-|[<-|[<-|[]]]]]].
  - apply py_replace_occurs; [reflexivity|].
    apply sub_with_space_removes. reflexivity.
  - apply clean_sql_steps_occur; [reflexivity|].
    do 3 (apply py_replace_occurs; [reflexivity|]).
    apply py_replace_removes. reflexivity.
  - apply clean_sql_steps_occur; [reflexivity|].
    do 2 (apply py_replace_occurs; [reflexivity|]).
    apply py_replace_removes. reflexivity.
  - apply clean_sql_steps_occur; [reflexivity|].
    apply py_replace_occurs; [reflexivity|].
    apply py_replace_removes. reflexivity.
  - apply clean_sql_steps_occur; [reflexivity|].
    apply py_replace_removes. reflexivity.
Qed.

(** *** Commas *)

Lemma commas_spaced_replace (s : string) :
  commas_spaced (py_replace "," ", " s) = true.
Proof.
  unfold py_replace. induction s as [|c s IH]; [reflexivity|].
  cbn [replace_from prefix].
  destruct (ascii_dec "," c) as [<-|Hne].
  - rewrite prefix_of_empty. simpl String.length. cbn [Nat.sub].
    change (", " ++ replace_from "," ", " 0 s)
      with (String "," (String " " (replace_from "," ", " 0 s))).
    cbn [commas_spaced prefix]. simpl. rewrite prefix_of_empty. exact IH.
  - cbn [commas_spaced]. rewrite IH.
    assert (E : Ascii.eqb c "," = false) by (apply Ascii.eqb_neq; congruence).
    now rewrite E.
Qed.

(** X23.  In what [clean_sql] returns every comma is followed by a
    space. *)
Theorem clean_sql_commas_spaced (sql_text : sqlval) (cleaned : string) :
  clean_sql clean_sql_body sql_text = Val cleaned ->
  commas_spaced cleaned = true.
Proof.
  unfold clean_sql. intros H.
  destruct (negb (sqlval_truthy sql_text)); [now inversion H|].
  destruct sql_text as [| | |s|]; try discriminate H.
  inversion H; subst cleaned. unfold clean_sql_body. cbv zeta.
  apply commas_spaced_replace.
Qed.

(** *** Lines are joined without a separator *)

Lemma occurs_word (c : ascii) (s : string) :
  is_word_char c = false -> is_word s = true -> occurs c s = false.
Proof.
  intros Hc. induction s as [|c' s IH]; intros Hs; [reflexivity|].
  simpl in Hs |- *. apply andb_true_iff in Hs as [Hc' Hs].
  rewrite (IH Hs), orb_false_r. apply Ascii.eqb_neq. intros ->.
  congruence.
Qed.

Lemma contains_absent (o : ascii) (w s : string) :
  occurs o s = false -> PyStr.contains (String o w) s = false.
Proof.
  induction s as [|c s IH]; intros Hs; [reflexivity|].
  simpl in Hs. apply orb_false_iff in Hs as [Hc Hs].
  cbn [PyStr.contains prefix].
  destruct (ascii_dec o c) as [->|_].
  - now rewrite Ascii.eqb_refl in Hc.
  - now apply IH.
Qed.

Lemma py_replace_absent (o : ascii) (w new s : string) :
  occurs o s = false -> py_replace (String o w) new s = s.
Proof. intros Hs. apply replace_absent. now apply contains_absent. Qed.

Lemma until_paren_none (s : string) :
  occurs "(" s = false -> CleanSql.until_paren s = None.
Proof.
  induction s as [|c s IH]; intros Hs; [reflexivity|].
  simpl in Hs |- *. apply orb_false_iff in Hs as [Hc Hs].
  now rewrite Hc, IH.
Qed.

Lemma sub_create_absent (s : string) :
  occurs "(" s = false -> CleanSql.sub_create 0 s = s.
Proof.
  induction s as [|c s IH]; intros Hs; [reflexivity|].
  cbn [CleanSql.sub_create]. unfold CleanSql.match_create.
  rewrite (until_paren_none _ Hs).
  simpl in Hs. apply orb_false_iff in Hs as [_ Hs]. now rewrite IH.
Qed.

Lemma sub_blanks_absent (s : string) :
  occurs " " s = false -> occurs CleanSql.tab s = false ->
  CleanSql.sub_blanks false s = s.
Proof.
  induction s as [|c s IH]; intros Hs Ht; [reflexivity|].
  simpl in Hs, Ht. apply orb_false_iff in Hs as [Hc Hs].
  apply orb_false_iff in Ht as [Hc' Ht].
  cbn [CleanSql.sub_blanks]. rewrite Hc, Hc'. simpl. now rewrite IH.
Qed.

Lemma sub_with_space_app (c : ascii) (repl a s : string) :
  occurs c a = false ->
  CleanSql.sub_with_space c repl false 0 (a ++ s)
  = a ++ CleanSql.sub_with_space c repl false 0 s.
Proof.
  induction a as [|c' a IH]; intros Ha; [reflexivity|].
  simpl in Ha. apply orb_false_iff in Ha as [Hc Ha].
  change (String c' a ++ s) with (String c' (a ++ s)).
  cbn [CleanSql.sub_with_space]. cbv zeta. rewrite Hc, IH by exact Ha.
  reflexivity.
Qed.

Lemma sub_with_space_absent (c : ascii) (repl s : string) :
  occurs c s = false -> CleanSql.sub_with_space c repl false 0 s = s.
Proof.
  induction s as [|c' s IH]; intros Hs; [reflexivity|].
  simpl in Hs. apply orb_false_iff in Hs as [Hc Hs].
  cbn [CleanSql.sub_with_space]. cbv zeta. now rewrite Hc, IH.
Qed.

(** No white-space character starts with a letter, a digit or an
    underscore. *)
Lemma space_len_word (c : ascii) (s : string) :
  is_word_char c = true -> PyStr.space_len (String c s) = 0.
Proof.
  intros H.
  destruct c as [b0 b1 b2 b3 b4 b5 b6 b7];
    destruct b0, b1, b2, b3, b4, b5, b6, b7;
    vm_compute in H; try discriminate H; reflexivity.
Qed.

Lemma lstrip_word (c : ascii) (s : string) :
  is_word_char c = true -> PyStr.lstrip (String c s) = String c s.
Proof.
  intros H. unfold PyStr.lstrip. cbn [PyStr.drop_space].
  now rewrite (space_len_word c s H).
Qed.

Lemma rstrip_app_word (a s : string) :
  is_word a = true -> PyStr.rstrip (a ++ s) = a ++ PyStr.rstrip s.
Proof.
  induction a as [|c a IH]; intros Ha; [reflexivity|].
  simpl in Ha. apply andb_true_iff in Ha as [Hc Ha].
  change (String c a ++ s) with (String c (a ++ s)).
  cbn [PyStr.rstrip]. rewrite (lstrip_word c _ Hc), IH by exact Ha.
  reflexivity.
Qed.

Lemma rstrip_word (s : string) : is_word s = true -> PyStr.rstrip s = s.
Proof.
  induction s as [|c s IH]; intros Hs; [reflexivity|].
  simpl in Hs. apply andb_true_iff in Hs as [Hc Hs].
  cbn [PyStr.rstrip]. now rewrite (lstrip_word c _ Hc), IH.
Qed.

Lemma strip_word (s : string) : is_word s = true -> PyStr.strip s = s.
Proof.
  intros Hs. unfold PyStr.strip.
  destruct s as [|c s]; [reflexivity|].
  assert (Hc : is_word_char c = true)
    by (simpl in Hs; now apply andb_true_iff in Hs).
  rewrite (lstrip_word c s Hc). now apply rstrip_word.
Qed.

Lemma split_on_absent (sep : ascii) (s : string) :
  occurs sep s = false -> split_on sep s = [s].
Proof.
  induction s as [|c s IH]; intros Hs; [reflexivity|].
  simpl in Hs. apply orb_false_iff in Hs as [Hc Hs].
  cbn [split_on]. now rewrite Hc, IH.
Qed.

Lemma split_on_app (sep : ascii) (a b : string) :
  occurs sep a = false ->
  split_on sep (a ++ String sep b) = a :: split_on sep b.
Proof.
  induction a as [|c a IH]; intros Ha.
  - simpl. now rewrite Ascii.eqb_refl.
  - simpl in Ha. apply orb_false_iff in Ha as [Hc Ha].
    change (String c a ++ String sep b) with (String c (a ++ String sep b)).
    cbn [split_on]. now rewrite Hc, IH.
Qed.

Lemma ends_with_absent (c : ascii) (s : string) :
  occurs c s = false -> ends_with c s = false.
Proof.
  induction s as [|c' s IH]; intros Hs; [reflexivity|].
  simpl in Hs. apply orb_false_iff in Hs as [Hc Hs].
  cbn [ends_with]. destruct s; [exact Hc|now apply IH].
Qed.

Lemma prefix_absent (o : ascii) (s : string) :
  occurs o s = false -> prefix (String o "") s = false.
Proof.
  destruct s as [|c s]; intros Hs; [reflexivity|].
  simpl in Hs. apply orb_false_iff in Hs as [Hc _].
  cbn [prefix]. destruct (ascii_dec o c) as [->|_]; [|reflexivity].
  now rewrite Ascii.eqb_refl in Hc.
Qed.

(** Lines of words are not indented. *)
Lemma indent_lines_words (lines : list string) :
  Forall (fun line => is_word line = true) lines ->
  CleanSql.indent_lines 0 lines = lines.
Proof.
  induction 1 as [|line rest Hline _ IH]; [reflexivity|].
  cbn [CleanSql.indent_lines]. cbv zeta.
  rewrite (prefix_absent ")" line), (ends_with_absent "(" line),
    (contains_absent "(" "" line);
    try (apply occurs_word; [reflexivity|exact Hline]).
  cbn. now rewrite IH.
Qed.

Lemma sub_newlines_absent (s : string) :
  occurs CleanSql.lf s = false ->
  forall run, CleanSql.sub_newlines run s = s.
Proof.
  induction s as [|c s IH]; intros Hs run; [reflexivity|].
  simpl in Hs. apply orb_false_iff in Hs as [Hc Hs].
  cbn [CleanSql.sub_newlines]. now rewrite Hc, IH.
Qed.

Lemma sub_newlines_app (a s : string) :
  occurs CleanSql.lf a = false -> a <> "" ->
  forall run, CleanSql.sub_newlines run (a ++ s) = a ++ CleanSql.sub_newlines 0 s.
Proof.
  induction a as [|c a IH]; intros Ha Hne run; [now elim Hne|].
  simpl in Ha. apply orb_false_iff in Ha as [Hc Ha].
  change (String c a ++ s) with (String c (a ++ s)).
  cbn [CleanSql.sub_newlines]. rewrite Hc.
  destruct a as [|c' a]; [reflexivity|].
  rewrite IH; [reflexivity|exact Ha|discriminate].
Qed.

(** X24.  Lines are joined with nothing in between: the newline of line 29
    and the indentation are taken out again by line 32.  Two words on
    neighbouring lines come out as one word. *)
Theorem clean_sql_glues_lines (a b : string) :
  is_word a = true -> is_word b = true -> a <> "" -> b <> "" ->
  clean_sql clean_sql_body (SqlText (a ++ PyStr.nl ++ b)) = Val (a ++ b).
Proof.
  intros Ha Hb Hane Hbne.
  destruct a as [|ca a']; [now elim Hane|].
  destruct b as [|cb b']; [now elim Hbne|].
  set (a := String ca a') in *. set (b := String cb b') in *.
  assert (Hca : is_word_char ca = true)
    by (simpl in Ha; now apply andb_true_iff in Ha).
  assert (Hcb : is_word_char cb = true)
    by (simpl in Hb; now apply andb_true_iff in Hb).
  assert (Hocc : forall c, is_word_char c = false ->
                           Ascii.eqb CleanSql.lf c = false ->
                           occurs c (a ++ PyStr.nl ++ b) = false).
  { intros c Hc Hlf.
    change (a ++ PyStr.nl ++ b) with (a ++ String CleanSql.lf b).
    rewrite occurs_app. cbn [occurs]. rewrite Hlf.
    now rewrite (occurs_word c a Hc Ha), (occurs_word c b Hc Hb). }
  assert (Hlfa : occurs CleanSql.lf a = false)
    by (now apply occurs_word).
  assert (Hlfb : occurs CleanSql.lf b = false)
    by (now apply occurs_word).
  set (t := a ++ PyStr.nl ++ b) in *.
  assert (Htruthy : sqlval_truthy (SqlText t) = true) by reflexivity.
  unfold clean_sql. rewrite Htruthy. cbn [negb].
  unfold clean_sql_body. cbv zeta.
  change (String CleanSql.cr "" ++ PyStr.nl) with (String CleanSql.cr PyStr.nl).
  rewrite (py_replace_absent CleanSql.cr PyStr.nl PyStr.nl t)
    by (now apply Hocc).
  rewrite (py_replace_absent CleanSql.cr "" PyStr.nl t) by (now apply Hocc).
  unfold PyStr.dquote.
  rewrite (py_replace_absent (ascii_of_nat 34) "" "" t) by (now apply Hocc).
  rewrite (py_replace_absent "[" "" "" t) by (now apply Hocc).
  rewrite (py_replace_absent "]" "" "" t) by (now apply Hocc).
  rewrite (sub_create_absent t) by (now apply Hocc).
  rewrite (sub_blanks_absent t) by (now apply Hocc).
  rewrite (sub_with_space_absent "," _ t) by (now apply Hocc).
  unfold t.
  assert (Hlines : CleanSql.stripped_lines (a ++ PyStr.nl ++ b) = [a; b]).
  { unfold CleanSql.stripped_lines.
    change (a ++ PyStr.nl ++ b) with (a ++ String CleanSql.lf b).
    rewrite (split_on_app CleanSql.lf a b Hlfa),
      (split_on_absent CleanSql.lf b Hlfb).
    cbn [map]. rewrite (strip_word a Ha), (strip_word b Hb). reflexivity. }
  rewrite Hlines.
  rewrite indent_lines_words by (repeat constructor; assumption).
  cbn [PyStr.join].
  rewrite (sub_newlines_app a (PyStr.nl ++ b) Hlfa Hane 0).
  change (PyStr.nl ++ b) with (String CleanSql.lf b).
  assert (Hnl : CleanSql.sub_newlines 0 (String CleanSql.lf b)
                = String CleanSql.lf b).
  { cbn [CleanSql.sub_newlines]. rewrite Ascii.eqb_refl. cbn [Nat.ltb Nat.leb].
    now rewrite (sub_newlines_absent b Hlfb). }
  rewrite Hnl.
  assert (Hstrip : PyStr.strip (a ++ String CleanSql.lf b)
                   = a ++ String CleanSql.lf b).
  { unfold PyStr.strip.
    change (a ++ String CleanSql.lf b)
      with (String ca (a' ++ String CleanSql.lf b)) at 1.
    rewrite (lstrip_word ca _ Hca).
    change (String ca (a' ++ String CleanSql.lf b))
      with (a ++ String CleanSql.lf b).
    rewrite (rstrip_app_word a _ Ha). f_equal.
    cbn [PyStr.rstrip].
    assert (E : PyStr.lstrip (String CleanSql.lf b) = b).
    { unfold PyStr.lstrip. cbn [PyStr.drop_space].
      replace (PyStr.space_len (String CleanSql.lf b)) with 1
        by (now destruct b).
      apply (lstrip_word cb b' Hcb). }
    rewrite E. unfold b at 1. now rewrite (rstrip_word b Hb). }
  rewrite Hstrip.
  rewrite (py_replace_absent "\") by
    (change (a ++ String CleanSql.lf b) with (a ++ PyStr.nl ++ b);
     now apply Hocc).
  rewrite (sub_with_space_app CleanSql.lf "" a _ Hlfa).
  assert (Hjoin : CleanSql.sub_with_space CleanSql.lf "" false 0
                    (String CleanSql.lf b) = b).
  { cbn [CleanSql.sub_with_space]. cbv zeta. rewrite Ascii.eqb_refl.
    cbn [append]. unfold b. cbn [CleanSql.sub_with_space]. cbv zeta.
    rewrite (space_len_word cb b' Hcb).
    assert (E : Ascii.eqb cb CleanSql.lf = false).
    { apply Ascii.eqb_neq. intros ->. vm_compute in Hcb. discriminate Hcb. }
    rewrite E. f_equal. apply sub_with_space_absent.
    fold b in Hlfb. simpl in Hlfb.
    now apply orb_false_iff in Hlfb. }
  rewrite Hjoin.
  rewrite (py_replace_absent ",");
    [reflexivity|].
  rewrite occurs_app.
  now rewrite (occurs_word "," a eq_refl Ha), (occurs_word "," b eq_refl Hb).
Qed.

(** ** [clean_sql] on the concrete world *)

(** A bracketed DDL text over four lines comes out as one line. *)
Lemma clean_sql_removed_characters_witness :
  clean_sql clean_sql_body (SqlText DemoMore.bracketed_ddl)
  = Val DemoMore.flat_ddl
  /\ occurs "["%char DemoMore.flat_ddl = false
  /\ occurs CleanSql.lf DemoMore.flat_ddl = false.
Proof.
  split; [vm_compute; reflexivity|]. split.
  - apply (clean_sql_removed_characters (SqlText DemoMore.bracketed_ddl)
             DemoMore.flat_ddl "["%char);
      [vm_compute; reflexivity|simpl; tauto].
  - apply (clean_sql_removed_characters (SqlText DemoMore.bracketed_ddl)
             DemoMore.flat_ddl CleanSql.lf);
      [vm_compute; reflexivity|simpl; tauto].
Defined.

Lemma clean_sql_commas_spaced_witness :
  commas_spaced DemoMore.flat_ddl = true.
Proof.
  apply (clean_sql_commas_spaced (SqlText DemoMore.bracketed_ddl)
           DemoMore.flat_ddl).
  vm_compute. reflexivity.
Defined.

(** The two lines of a view. *)
Lemma clean_sql_glues_lines_witness :
  clean_sql clean_sql_body (SqlText ("AS" ++ PyStr.nl ++ "SELECT"))
  = Val "ASSELECT".
Proof.
  apply (clean_sql_glues_lines "AS" "SELECT"); try reflexivity; discriminate.
Defined.
